(** * nest-udp: the reliable datagram protocol engine

    A shallow embedding of the reliability layer of [@pirumu/nest-udp]
    ([lib/helpers/reliable-udp-socket]): the flag byte and the envelope
    ([message-envelope.handler.ts]), the chunker and reassembler
    ([chunking.handler.ts]), the snowflake identifier generator
    ([snowflake-id.generator.ts]), the compression pipeline
    ([compression.handler.ts], [compression.factory.ts]), the request
    tracker ([request-tracker.ts]) and the send and receive paths of
    [reliable-udp-socket.ts].

    Conventions.  A JavaScript string is a Rocq [string] read as its UTF-8
    bytes, so [Buffer.byteLength(s, 'utf8')] is [String.length s] and
    [Buffer.from(s, 'utf8')] is [list_byte_of_string s].  An integer-valued
    JavaScript number is a [Z]; the 32-bit coercion of the bitwise
    operators is written out ([ToInt32]).  A [bigint] is a [Z].  The one
    computation of the engine on fractional numbers, the reduction
    percentage of the compression pipeline, is carried out on binary64
    floats ([PrimFloat]).  [undefined] and an absent property are the
    [None] of an [option].  A function that can throw returns an [option]
    or a result type with a case for the exception. *)

From Stdlib Require Import ZArith QArith List String Ascii Bool Lia.
From Stdlib.Strings Require Import Byte.
From Stdlib Require Import Floats Uint63 DecimalString DecimalZ Sorted.
From stdpp Require Import gmap strings list.

Local Open Scope Z_scope.

(** ** JavaScript values and the built-ins the engine calls *)

Module Js.

(** The values that travel as [any]: message bodies, chunk data, parsed
    JSON.  Numbers are the integer-valued ones. *)
#[warnings="-register-all"] Inductive Value : Type :=
| JsUndefined
| JsNull
| JsBoolean (b : bool)
| JsNumber (n : Z)
| JsString (s : string)
| JsArray (items : list Value)
| JsObject (fields : list (string * Value)).

(** [v === null] *)
Definition is_null (v : Value) : bool :=
  match v with JsNull => true | _ => false end.

(** [ToInt32], the coercion every bitwise operator applies to its operands. *)
Definition ToInt32 (z : Z) : Z :=
  let m := z mod 4294967296 in
  if m <? 2147483648 then m else m - 4294967296.

(** [a | b], [a & b], [a << n], [a >> n] on numbers. *)
Definition bitor (a b : Z) : Z := ToInt32 (Z.lor (ToInt32 a) (ToInt32 b)).
Definition bitand (a b : Z) : Z := ToInt32 (Z.land (ToInt32 a) (ToInt32 b)).
Definition shl (a n : Z) : Z := ToInt32 (Z.shiftl (ToInt32 a) (n mod 32)).
Definition sar (a n : Z) : Z := Z.shiftr (ToInt32 a) (n mod 32).

(** [Buffer.byteLength(s, 'utf8')], [Buffer.from(s, 'utf8')] and
    [buf.toString('utf8')] (on well-formed UTF-8). *)
Definition byteLength (s : string) : Z := Z.of_nat (String.length s).
Definition Buffer_from_utf8 (s : string) : list byte := list_byte_of_string s.
Definition Buffer_toString_utf8 (b : list byte) : string := string_of_list_byte b.

(** [buf.subarray(start, end)] for [0 <= start <= end <= buf.length], the
    only way the chunker calls it. *)
Definition subarray (buf : list byte) (start stop : Z) : list byte :=
  firstn (Z.to_nat (stop - start)) (skipn (Z.to_nat start) buf).

(** [buf.toString('base64')]: RFC 4648 with padding. *)
Definition base64_alphabet : string :=
  "ABCDEFGHIJKLMNOPQRSTUVWXYZabcdefghijklmnopqrstuvwxyz0123456789+/".

Definition base64_digit (n : N) : ascii :=
  match String.get (N.to_nat n) base64_alphabet with
  | Some c => c
  | None => "="%char
  end.

Fixpoint base64_encode (bs : list byte) : string :=
  match bs with
  | [] => EmptyString
  | [a] =>
      let x := Byte.to_N a in
      String (base64_digit (x / 4))
        (String (base64_digit ((x mod 4) * 16)) "==")
  | [a; b] =>
      let x := Byte.to_N a in
      let y := Byte.to_N b in
      String (base64_digit (x / 4))
        (String (base64_digit ((x mod 4) * 16 + y / 16))
           (String (base64_digit ((y mod 16) * 4)) "="))
  | a :: b :: c :: rest =>
      let x := Byte.to_N a in
      let y := Byte.to_N b in
      let z := Byte.to_N c in
      String (base64_digit (x / 4))
        (String (base64_digit ((x mod 4) * 16 + y / 16))
           (String (base64_digit ((y mod 16) * 4 + z / 64))
              (String (base64_digit (z mod 64)) (base64_encode rest))))
  end%N.

(** [bigint.toString()] and [BigInt(s)] on signed decimal literals, the
    strings [toString] produces; the empty string is [0n].  Other numeric
    literal forms (blanks, a plus sign, radix prefixes) are not covered
    and read as the [SyntaxError] case. *)
Definition BigInt_toString (z : Z) : string :=
  NilZero.string_of_int (Z.to_int z).

Definition BigInt_of_string (s : string) : option Z :=
  match s with
  | EmptyString => Some 0
  | _ => option_map Z.of_int (NilZero.int_of_string s)
  end.

(** [Number(b)] for a bigint [b]: the nearest binary64 value, ties to
    even; the identity up to [2^53]. *)
Definition Number_of_BigInt (z : Z) : Z :=
  let a := Z.abs z in
  if a <=? 9007199254740992 then z
  else
    let k := Z.log2 a - 52 in
    let q := Z.shiftr a k in
    let r := a - Z.shiftl q k in
    let half := Z.shiftl 1 (k - 1) in
    let q' := if (half <? r) || ((half =? r) && Z.odd q) then q + 1 else q in
    Z.sgn z * Z.shiftl q' k.

(** A size (a buffer length) as a binary64 number; exact below [2^53]. *)
Definition Number_of_size (z : Z) : float := PrimFloat.of_uint63 (Uint63.of_Z z).

(** A value in a boolean position. *)
Definition truthy (v : Value) : bool :=
  match v with
  | JsUndefined | JsNull => false
  | JsBoolean b => b
  | JsNumber n => negb (n =? 0)
  | JsString s => negb (String.eqb s EmptyString)
  | JsArray _ | JsObject _ => true
  end.

(** [typeof v === 'object'], [typeof v === 'string'],
    [typeof v === 'number'] *)
Definition typeof_object (v : Value) : bool :=
  match v with JsNull | JsArray _ | JsObject _ => true | _ => false end.
Definition typeof_string (v : Value) : bool :=
  match v with JsString _ => true | _ => false end.
Definition typeof_number (v : Value) : bool :=
  match v with JsNumber _ => true | _ => false end.

(** [v[k]] on a value other than [undefined] and [null], for the property
    names the engine reads (none of them is a property of an array or of
    a primitive): the binding of an object that was written last. *)
Definition get (v : Value) (k : string) : Value :=
  match v with
  | JsObject fields =>
      match List.find (fun kv => String.eqb (fst kv) k) (rev fields) with
      | Some kv => snd kv
      | None => JsUndefined
      end
  | _ => JsUndefined
  end.

(** The built-ins left abstract: [JSON.stringify] on a value other than
    [undefined], [JSON.parse] ([None]: [SyntaxError]), and
    [Buffer.from(x, 'base64')] on a string (lenient, it never throws) and
    on an array or object ([None]: [TypeError]). *)
Class Builtins : Type := {
  JSON_stringify_defined : Value -> string;
  JSON_parse : string -> option Value;
  base64_decode : string -> list byte;
  Buffer_from_object : Value -> option (list byte)
}.

Section WithBuiltins.
Context `{Builtins}.

(** [JSON.stringify(v)]: [undefined] for [undefined], a string otherwise. *)
Definition JSON_stringify (v : Value) : option string :=
  match v with
  | JsUndefined => None
  | _ => Some (JSON_stringify_defined v)
  end.

(** [Buffer.from(v, 'base64')]: a [TypeError] ([None]) on [undefined],
    [null], a boolean or a number. *)
Definition Buffer_from_base64 (v : Value) : option (list byte) :=
  match v with
  | JsString s => Some (base64_decode s)
  | JsArray _ | JsObject _ => Buffer_from_object v
  | JsUndefined | JsNull | JsBoolean _ | JsNumber _ => None
  end.

End WithBuiltins.

End Js.

(** ** [crypto.createHash('sha256')]: SHA-256 (FIPS 180-4), hex digest *)

Module Sha256.

Definition word : Z := 4294967296.
Definition add32 (a b : Z) : Z := (a + b) mod word.
Definition rotr (n x : Z) : Z :=
  (Z.lor (Z.shiftr x n) (Z.shiftl x (32 - n))) mod word.
Definition shr (n x : Z) : Z := Z.shiftr x n.
Definition not32 (x : Z) : Z := word - 1 - x.

Definition Ch (x y z : Z) : Z := Z.lxor (Z.land x y) (Z.land (not32 x) z).
Definition Maj (x y z : Z) : Z :=
  Z.lxor (Z.lxor (Z.land x y) (Z.land x z)) (Z.land y z).
Definition Sigma0 (x : Z) : Z := Z.lxor (Z.lxor (rotr 2 x) (rotr 13 x)) (rotr 22 x).
Definition Sigma1 (x : Z) : Z := Z.lxor (Z.lxor (rotr 6 x) (rotr 11 x)) (rotr 25 x).
Definition sigma0 (x : Z) : Z := Z.lxor (Z.lxor (rotr 7 x) (rotr 18 x)) (shr 3 x).
Definition sigma1 (x : Z) : Z := Z.lxor (Z.lxor (rotr 17 x) (rotr 19 x)) (shr 10 x).

Definition K : list Z :=
  [1116352408; 1899447441; 3049323471; 3921009573; 961987163; 1508970993;
   2453635748; 2870763221; 3624381080; 310598401; 607225278; 1426881987;
   1925078388; 2162078206; 2614888103; 3248222580; 3835390401; 4022224774;
   264347078; 604807628; 770255983; 1249150122; 1555081692; 1996064986;
   2554220882; 2821834349; 2952996808; 3210313671; 3336571891; 3584528711;
   113926993; 338241895; 666307205; 773529912; 1294757372; 1396182291;
   1695183700; 1986661051; 2177026350; 2456956037; 2730485921; 2820302411;
   3259730800; 3345764771; 3516065817; 3600352804; 4094571909; 275423344;
   430227734; 506948616; 659060556; 883997877; 958139571; 1322822218;
   1537002063; 1747873779; 1955562222; 2024104815; 2227730452; 2361852424;
   2428436474; 2756734187; 3204031479; 3329325298].

Record regs : Type := Regs { ra : Z; rb : Z; rc : Z; rd : Z; re : Z; rf : Z; rg : Z; rh : Z }.

Definition H0 : regs :=
  Regs 1779033703 3144134277 1013904242 2773480762
       1359893119 2600822924 528734635 1541459225.

(** Padding: a one bit, zeros up to 56 modulo 64, the bit length on 8 bytes. *)
Definition pad (msg : list Z) : list Z :=
  let len := Z.of_nat (length msg) in
  let zeros := Z.to_nat ((55 - len) mod 64) in
  let bits := 8 * len in
  msg ++ [128] ++ repeat 0 zeros
      ++ map (fun i => Z.shiftr bits (8 * (7 - Z.of_nat i)) mod 256) (seq 0 8).

(** Big-endian 32-bit words of a byte sequence. *)
Fixpoint words (bs : list Z) : list Z :=
  match bs with
  | a :: b :: c :: d :: rest =>
      (((a * 256 + b) * 256 + c) * 256 + d) :: words rest
  | _ => []
  end.

(** The message schedule, most recent word first. *)
Fixpoint extend (n : nat) (rev_w : list Z) : list Z :=
  match n with
  | O => rev_w
  | S n' =>
      let w := add32 (add32 (sigma1 (nth 1 rev_w 0)) (nth 6 rev_w 0))
                     (add32 (sigma0 (nth 14 rev_w 0)) (nth 15 rev_w 0)) in
      extend n' (w :: rev_w)
  end.

Definition schedule (block : list Z) : list Z := rev (extend 48 (rev block)).

Definition round (s : regs) (kw : Z * Z) : regs :=
  let t1 := add32 (add32 (add32 (rh s) (Sigma1 (re s))) (Ch (re s) (rf s) (rg s)))
                  (add32 (fst kw) (snd kw)) in
  let t2 := add32 (Sigma0 (ra s)) (Maj (ra s) (rb s) (rc s)) in
  Regs (add32 t1 t2) (ra s) (rb s) (rc s) (add32 (rd s) t1) (re s) (rf s) (rg s).

Definition compress (h : regs) (block : list Z) : regs :=
  let s := fold_left round (combine K (schedule block)) h in
  Regs (add32 (ra h) (ra s)) (add32 (rb h) (rb s)) (add32 (rc h) (rc s))
       (add32 (rd h) (rd s)) (add32 (re h) (re s)) (add32 (rf h) (rf s))
       (add32 (rg h) (rg s)) (add32 (rh h) (rh s)).

Fixpoint blocks (n : nat) (ws : list Z) (h : regs) : regs :=
  match n with
  | O => h
  | S n' => blocks n' (skipn 16 ws) (compress h (firstn 16 ws))
  end.

Definition hex_digit (n : Z) : ascii :=
  match String.get (Z.to_nat n) "0123456789abcdef" with
  | Some c => c
  | None => "?"%char
  end.

Definition hex_word (w : Z) : string :=
  string_of_list_ascii
    (map (fun i => hex_digit (Z.shiftr w (4 * (7 - Z.of_nat i)) mod 16)) (seq 0 8)).

Definition digest (msg : list Z) : regs :=
  let ws := words (pad msg) in
  blocks (length ws / 16)%nat ws H0.

(** [createHash('sha256').update(s).digest('hex')] *)
Definition hex (s : string) : string :=
  let bytes := map (fun b => Z.of_N (Byte.to_N b)) (list_byte_of_string s) in
  let r := digest bytes in
  hex_word (ra r) +:+ hex_word (rb r) +:+ hex_word (rc r) +:+ hex_word (rd r)
    +:+ hex_word (re r) +:+ hex_word (rf r) +:+ hex_word (rg r) +:+ hex_word (rh r).

End Sha256.

Arguments Sha256.hex : simpl never.

(** ** [codec.interface.ts], [reliable-udp-socket.types.ts] *)

(** [enum CompressionCodecType { NONE, GZIP, SNAPPY, LZ4, ZSTD }], a
    numeric enum: the members are the numbers 0 to 4. *)
Inductive CompressionCodecType : Type := NONE | GZIP | SNAPPY | LZ4 | ZSTD.

Definition CompressionCodecType_value (c : CompressionCodecType) : Z :=
  match c with NONE => 0 | GZIP => 1 | SNAPPY => 2 | LZ4 => 3 | ZSTD => 4 end.

Definition CompressionCodecType_of_value (n : Z) : option CompressionCodecType :=
  match n with
  | 0 => Some NONE | 1 => Some GZIP | 2 => Some SNAPPY
  | 3 => Some LZ4 | 4 => Some ZSTD | _ => None
  end.

#[global] Instance CompressionCodecType_eq_dec : EqDecision CompressionCodecType.
Proof. solve_decision. Defined.

#[global] Instance CompressionCodecType_countable : Countable CompressionCodecType.
Proof.
  refine (inj_countable' CompressionCodecType_value
            (fun n => default NONE (CompressionCodecType_of_value n)) _).
  intros []; reflexivity.
Defined.

(** A codec value in a boolean position: [NONE] is the number 0. *)
Definition codec_truthy (c : option CompressionCodecType) : bool :=
  match c with
  | Some NONE | None => false
  | Some _ => true
  end.

(** [enum MessageType { REQ = 0b00, ACK = 0b01, RES = 0b10 }] *)
Inductive MessageType : Type := REQ | ACK | RES.

Definition MessageType_value (t : MessageType) : Z :=
  match t with REQ => 0 | ACK => 1 | RES => 2 end.

(** [enum CodecIndex] *)
Module CodecIndex.
Definition NONE : Z := 0.
Definition GZIP : Z := 1.
Definition SNAPPY : Z := 2.
Definition LZ4 : Z := 3.
Definition ZSTD : Z := 4.
End CodecIndex.

(** [enum FlagBits] *)
Module FlagBits.
Definition CODEC_MASK : Z := 7.
Definition COMPRESSED : Z := 8.
Definition CHUNKED : Z := 16.
Definition TYPE_MASK : Z := 96.
Definition TYPE_SHIFT : Z := 5.
End FlagBits.

(** [type MessageEnvelope]; the number fields hold integer-valued numbers. *)
Module MessageEnvelope.
Record t : Type := {
  id : string;
  body : Js.Value;
  checksum : option string;
  flags : option Z;
  type : option Z;
  ci : option Z;
  ct : option Z;
  os : option Z;
  cs : option Z
}.
End MessageEnvelope.

(** [type DecodedFlags]; [type] is the two-bit number read from the byte. *)
Module DecodedFlags.
Record t : Type := {
  type : Z;
  codec : CompressionCodecType;
  isCompressed : bool;
  isChunked : bool
}.
End DecodedFlags.

(** The [codec] argument of [encodeFlags]: [CompressionCodecType | 'none'],
    a number or a string. *)
Inductive CodecArg : Type :=
| CodecEnum (c : CompressionCodecType)
| CodecName (s : string).

(** [type MessageEnvelopOptions] *)
Module MessageEnvelopOptions.
Record t : Type := {
  checksum : option string;
  codec : option CodecArg;
  isCompressed : option bool;
  isChunked : option bool;
  chunkIndex : option Z;
  chunkTotal : option Z;
  originalSize : option Z;
  compressedSize : option Z
}.

(** [{}] *)
Definition empty : t :=
  {| checksum := None; codec := None; isCompressed := None;
     isChunked := None; chunkIndex := None; chunkTotal := None;
     originalSize := None; compressedSize := None |}.
End MessageEnvelopOptions.

(** [type CompressionResult] *)
Module CompressionResult.
Record t : Type := {
  data : string;
  codec : CompressionCodecType;
  originalSize : Z;
  compressedSize : Z
}.
End CompressionResult.

(** [dgram.RemoteInfo] *)
Module RemoteInfo.
Record t : Type := {
  address : string;
  family : string;
  port : Z;
  size : Z
}.
End RemoteInfo.

(** A string in a boolean position: the empty string is falsy. *)
Definition string_truthy (s : option string) : bool :=
  match s with
  | None | Some EmptyString => false
  | Some _ => true
  end.

(** ** [message-envelope.handler.ts] *)

Module MessageEnvelopeHandler.

(** [CODEC_TO_INDEX[codec] || CodecIndex.NONE]; a key outside the table
    contributes no bit to the flags. *)
Definition CODEC_TO_INDEX (s : string) : Z :=
  if String.eqb s "none" then CodecIndex.NONE
  else if String.eqb s "gzip" then CodecIndex.GZIP
  else if String.eqb s "snappy" then CodecIndex.SNAPPY
  else if String.eqb s "lz4" then CodecIndex.LZ4
  else if String.eqb s "zstd" then CodecIndex.ZSTD
  else CodecIndex.NONE.

(** [INDEX_TO_CODEC[codecIndex] || CompressionCodecType.NONE] *)
Definition INDEX_TO_CODEC (i : Z) : CompressionCodecType :=
  default NONE (CompressionCodecType_of_value i).

Definition encodeFlags (type : Z) (codec : CodecArg)
    (isCompressed isChunked : bool) : Z :=
  let flags := 0 in
  let codecIndex :=
    match codec with
    | CodecEnum c => CompressionCodecType_value c
    | CodecName s => CODEC_TO_INDEX s
    end in
  let flags := Js.bitor flags codecIndex in
  let flags := if isCompressed then Js.bitor flags FlagBits.COMPRESSED else flags in
  let flags := if isChunked then Js.bitor flags FlagBits.CHUNKED else flags in
  let flags := Js.bitor flags (Js.shl type FlagBits.TYPE_SHIFT) in
  flags.

Definition decodeFlags (flags : option Z) : option DecodedFlags.t :=
  match flags with
  | None => None
  | Some flags =>
      let codecIndex := Js.bitand flags FlagBits.CODEC_MASK in
      let codec := INDEX_TO_CODEC codecIndex in
      let isCompressed := negb (Js.bitand flags FlagBits.COMPRESSED =? 0) in
      let isChunked := negb (Js.bitand flags FlagBits.CHUNKED =? 0) in
      let type := Js.sar (Js.bitand flags FlagBits.TYPE_MASK) FlagBits.TYPE_SHIFT in
      Some {| DecodedFlags.type := type; DecodedFlags.codec := codec;
              DecodedFlags.isCompressed := isCompressed;
              DecodedFlags.isChunked := isChunked |}
  end.

Definition createEnvelope (id : string) (type : MessageType) (body : Js.Value)
    (options : MessageEnvelopOptions.t) : MessageEnvelope.t :=
  let checksum := MessageEnvelopOptions.checksum options in
  let codec := default (CodecEnum NONE) (MessageEnvelopOptions.codec options) in
  let isCompressed := default false (MessageEnvelopOptions.isCompressed options) in
  let isChunked := default false (MessageEnvelopOptions.isChunked options) in
  let chunkIndex := MessageEnvelopOptions.chunkIndex options in
  let chunkTotal := MessageEnvelopOptions.chunkTotal options in
  let originalSize := MessageEnvelopOptions.originalSize options in
  let compressedSize := MessageEnvelopOptions.compressedSize options in
  let chunked_fields :=
    isChunked && bool_decide (is_Some chunkIndex) && bool_decide (is_Some chunkTotal) in
  {| MessageEnvelope.id := id;
     MessageEnvelope.body := body;
     MessageEnvelope.flags :=
       Some (encodeFlags (MessageType_value type) codec isCompressed isChunked);
     MessageEnvelope.type := None;
     MessageEnvelope.checksum := if string_truthy checksum then checksum else None;
     MessageEnvelope.os := if isCompressed then originalSize else None;
     MessageEnvelope.cs := if isCompressed then compressedSize else None;
     MessageEnvelope.ci := if chunked_fields then chunkIndex else None;
     MessageEnvelope.ct := if chunked_fields then chunkTotal else None |}.

Definition isValidEnvelope (obj : Js.Value) : bool :=
  if negb (Js.typeof_object obj) || Js.is_null obj
     || negb (Js.typeof_string (Js.get obj "id"))
  then false
  else Js.typeof_number (Js.get obj "flags").

(** A parsed object read at the type [MessageEnvelope] that [parse] gives
    it.  [None]: a property holds a value of another type than the one
    declared for it; what the engine does with such an object is not
    described here. *)
Definition typed (obj : Js.Value) : option MessageEnvelope.t :=
  let number (k : string) : option (option Z) :=
    match Js.get obj k with
    | Js.JsUndefined => Some None
    | Js.JsNumber n => Some (Some n)
    | _ => None
    end in
  let text (k : string) : option (option string) :=
    match Js.get obj k with
    | Js.JsUndefined => Some None
    | Js.JsString s => Some (Some s)
    | _ => None
    end in
  match Js.get obj "id", text "checksum", number "flags", number "type",
        number "ci", number "ct", number "os", number "cs" with
  | Js.JsString id, Some checksum, Some flags, Some type,
    Some ci, Some ct, Some os, Some cs =>
      Some {| MessageEnvelope.id := id;
              MessageEnvelope.body := Js.get obj "body";
              MessageEnvelope.checksum := checksum;
              MessageEnvelope.flags := flags;
              MessageEnvelope.type := type;
              MessageEnvelope.ci := ci; MessageEnvelope.ct := ct;
              MessageEnvelope.os := os; MessageEnvelope.cs := cs |}
  | _, _, _, _, _, _, _, _ => None
  end.

Section Wire.
Context `{Js.Builtins}.

(** The object [JSON.stringify] sees: the properties in the order
    [createEnvelope] sets them, those holding [undefined] left out. *)
Definition envelope_object (e : MessageEnvelope.t) : Js.Value :=
  let number (k : string) (o : option Z) :=
    match o with Some n => [(k, Js.JsNumber n)] | None => [] end in
  Js.JsObject
    ([("id", Js.JsString (MessageEnvelope.id e))]
     ++ match MessageEnvelope.body e with
        | Js.JsUndefined => []
        | b => [("body", b)]
        end
     ++ number "flags" (MessageEnvelope.flags e)
     ++ match MessageEnvelope.checksum e with
        | Some c => [("checksum", Js.JsString c)]
        | None => []
        end
     ++ number "os" (MessageEnvelope.os e) ++ number "cs" (MessageEnvelope.cs e)
     ++ number "ci" (MessageEnvelope.ci e) ++ number "ct" (MessageEnvelope.ct e)
     ++ number "type" (MessageEnvelope.type e)).

Definition serialize (e : MessageEnvelope.t) : string :=
  Js.JSON_stringify_defined (envelope_object e).

(** [parse]: the parsed object when it is an envelope, [null] otherwise
    and when [JSON.parse] throws. *)
Definition parse (jsonString : string) : option Js.Value :=
  match Js.JSON_parse jsonString with
  | None => None
  | Some parsed => if isValidEnvelope parsed then Some parsed else None
  end.

End Wire.

End MessageEnvelopeHandler.

(** ** [reliable-udp-socket.constants.ts] *)

Module Constants.
Definition DEFAULT_MAX_MESSAGE_SIZE : Z := 1400.
Definition MIN_MESSAGE_SIZE : Z := 100.
Definition MAX_MESSAGE_SIZE : Z := 65000.
Definition DEFAULT_CHUNK_SIZE : Z := 1200.
Definition DEFAULT_MAX_RETRIES : Z := 5.
Definition DEFAULT_RETRY_INTERVAL : Z := 500.
Definition DEFAULT_REQUEST_TIMEOUT : Z := 5000.
Definition DEFAULT_REASSEMBLY_TIMEOUT : Z := 30000.
Definition REQUEST_CLEANUP_AGE : Z := 60000.
Definition CLEANUP_INTERVAL : Z := 10000.
Definition DEFAULT_ENABLE_CHECKSUM : bool := true.
Definition DEFAULT_COMPRESSION_CODEC : CompressionCodecType := NONE.
Definition DEFAULT_COMPRESSION_LEVEL : Z := 6.
Definition DEFAULT_COMPRESSION_MIN_SIZE : Z := 256.
Definition DEFAULT_COMPRESSION_MIN_REDUCTION : float := 10%float.
Definition COMPRESSION_REDUCTION_MULTIPLIER : float := 100%float.
Definition SNOWFLAKE_WORKER_ID_BITS : Z := 10.
Definition SNOWFLAKE_SEQUENCE_BITS : Z := 12.
Definition SNOWFLAKE_MAX_WORKER_ID : Z := Z.shiftl 1 SNOWFLAKE_WORKER_ID_BITS - 1.
Definition SNOWFLAKE_MAX_SEQUENCE : Z := Z.shiftl 1 SNOWFLAKE_SEQUENCE_BITS - 1.
Definition SNOWFLAKE_WORKER_ID_SHIFT : Z := SNOWFLAKE_SEQUENCE_BITS.
Definition SNOWFLAKE_TIMESTAMP_SHIFT : Z :=
  SNOWFLAKE_WORKER_ID_BITS + SNOWFLAKE_SEQUENCE_BITS.
Definition SNOWFLAKE_DEFAULT_EPOCH : Z := 1704067200000.
End Constants.

(** ** [chunking.handler.ts] *)

Module ChunkingHandler.

Record ChunkingHandlerConfig : Type := {
  chunkSize : Z;
  reassemblyTimeout : Z
}.

(** [type ChunkedMessageAssembly]; a slot holds [null] until a chunk is
    stored in it. *)
Record ChunkedMessageAssembly : Type := {
  chunks : list Js.Value;
  totalChunks : Z;
  receivedCount : Z;
  acksReceived : list Z;
  timestamp : Z;
  remoteInfo : option RemoteInfo.t;
  compressionCodec : option CompressionCodecType
}.

Record t : Type := {
  _config : ChunkingHandlerConfig;
  _assemblies : gmap string ChunkedMessageAssembly
}.

Definition new (chunkSize reassemblyTimeout : option Z) : t :=
  {| _config :=
       {| chunkSize := default Constants.DEFAULT_CHUNK_SIZE chunkSize;
          reassemblyTimeout :=
            default Constants.DEFAULT_REASSEMBLY_TIMEOUT reassemblyTimeout |};
     _assemblies := ∅ |}.

(** [Math.ceil(a / b)] for a length [a] and an integer [b]: a number,
    [Infinity] when a positive length is divided by zero, [NaN] for 0/0. *)
Inductive Count : Type :=
| Finite (n : Z)
| Infinite
| NotANumber.

Definition Math_ceil_div (a b : Z) : Count :=
  if b =? 0 then (if a =? 0 then NotANumber else Infinite)
  else Finite (- ((- a) / b)).

(** [data: string | Buffer] *)
Inductive ChunkSource : Type :=
| OfString (s : string)
| OfBuffer (b : list byte).

(** [createChunks]; [None] when the loop bound is [Infinity] and the call
    does not return. *)
Definition createChunks (h : t) (data : ChunkSource) : option (list string) :=
  let buffer :=
    match data with OfString s => Js.Buffer_from_utf8 s | OfBuffer b => b end in
  let len := Z.of_nat (length buffer) in
  match Math_ceil_div len (chunkSize (_config h)) with
  | Infinite => None
  | NotANumber => Some []
  | Finite totalChunks =>
      Some (map (fun i : nat =>
                   let start := Z.of_nat i * chunkSize (_config h) in
                   let stop := Z.min (start + chunkSize (_config h)) len in
                   Js.base64_encode (Js.subarray buffer start stop))
                (seq 0 (Z.to_nat totalChunks)))
  end.

(** [initAssembly]; [now] is the reading of [Date.now()].  [None] is the
    [RangeError] of [new Array(totalChunks)] on an invalid length. *)
Definition initAssembly (h : t) (now : Z) (messageId : string) (totalChunks : Z)
    (remoteInfo : option RemoteInfo.t)
    (compressionCodec : option CompressionCodecType) : option t :=
  if (totalChunks <? 0) || (4294967295 <? totalChunks) then None
  else
    Some {| _config := _config h;
            _assemblies :=
              <[messageId :=
                  {| chunks := repeat Js.JsNull (Z.to_nat totalChunks);
                     totalChunks := totalChunks;
                     receivedCount := 0;
                     acksReceived := [];
                     timestamp := now;
                     remoteInfo := remoteInfo;
                     compressionCodec := compressionCodec |}]>
                (_assemblies h) |}.

(** [array[i]] for a number [i]: [undefined] outside the array. *)
Definition array_get (l : list Js.Value) (i : Z) : Js.Value :=
  if i <? 0 then Js.JsUndefined
  else default Js.JsUndefined (l !! Z.to_nat i).

(** [addChunk]: the handler afterwards and the boolean returned. *)
Definition addChunk (h : t) (messageId : string) (chunkIndex : Z)
    (chunkData : Js.Value) : t * bool :=
  match _assemblies h !! messageId with
  | None => (h, false)
  | Some assembly =>
      if Js.is_null (array_get (chunks assembly) chunkIndex) then
        let assembly' :=
          {| chunks := <[Z.to_nat chunkIndex := chunkData]> (chunks assembly);
             totalChunks := totalChunks assembly;
             receivedCount := receivedCount assembly + 1;
             acksReceived := acksReceived assembly;
             timestamp := timestamp assembly;
             remoteInfo := remoteInfo assembly;
             compressionCodec := compressionCodec assembly |} in
        ({| _config := _config h;
            _assemblies := <[messageId := assembly']> (_assemblies h) |},
         receivedCount assembly' =? totalChunks assembly')
      else (h, receivedCount assembly =? totalChunks assembly)
  end.

Definition getAssembly (h : t) (messageId : string)
    : option ChunkedMessageAssembly :=
  _assemblies h !! messageId.

Definition removeAssembly (h : t) (messageId : string) : t * bool :=
  ({| _config := _config h; _assemblies := delete messageId (_assemblies h) |},
   bool_decide (is_Some (_assemblies h !! messageId))).

Definition stale (h : t) (now : Z) (a : ChunkedMessageAssembly) : Prop :=
  reassemblyTimeout (_config h) < now - timestamp a.

#[global] Instance stale_dec h now a : Decision (stale h now a).
Proof. unfold stale. apply _. Defined.

(** [cleanupStaleAssemblies]; [now] is the reading of [Date.now()]. *)
Definition cleanupStaleAssemblies (h : t) (now : Z) : t * Z :=
  let kept := filter (fun kv => ¬ stale h now (snd kv)) (_assemblies h) in
  ({| _config := _config h; _assemblies := kept |},
   Z.of_nat (size (_assemblies h)) - Z.of_nat (size kept)).

Definition clear (h : t) : t :=
  {| _config := _config h; _assemblies := ∅ |}.

Section Reassembly.
Context `{Js.Builtins}.

(** [getAssembledData]: the buffer and the codec of the assembly, or
    [null].  A [Buffer.from] that throws is caught and gives [null]. *)
Definition getAssembledData (h : t) (messageId : string)
    : option (list byte * option CompressionCodecType) :=
  match _assemblies h !! messageId with
  | None => None
  | Some assembly =>
      if negb (receivedCount assembly =? totalChunks assembly) then None
      else if existsb Js.is_null (chunks assembly) then None
      else
        match mapM Js.Buffer_from_base64 (chunks assembly) with
        | None => None
        | Some buffers => Some (concat buffers, compressionCodec assembly)
        end
  end.

End Reassembly.

End ChunkingHandler.

(** ** [snowflake-id.generator.ts] *)

Module SnowflakeIdGenerator.

Record SnowflakeConfig : Type := {
  workerId : Z;
  epoch : Z
}.

Record t : Type := {
  _config : SnowflakeConfig;
  _sequence : Z;
  _lastTimestamp : Z
}.

(** The constructor; [None] when it throws on the worker id. *)
Definition new (workerId : Z) (epoch : option Z) : option t :=
  if (workerId <? 0) || (Constants.SNOWFLAKE_MAX_WORKER_ID <? workerId) then None
  else
    Some {| _config :=
              {| workerId := workerId;
                 epoch := default Constants.SNOWFLAKE_DEFAULT_EPOCH epoch |};
            _sequence := 0;
            _lastTimestamp := -1 |}.

(** [_waitNextMillis]; [clock] lists the coming readings of [Date.now()].
    [None]: the readings given end before the clock has advanced. *)
Fixpoint _waitNextMillis (lastTimestamp : Z) (clock : list Z)
    : option (Z * list Z) :=
  match clock with
  | [] => None
  | timestamp :: rest =>
      if timestamp <=? lastTimestamp then _waitNextMillis lastTimestamp rest
      else Some (timestamp, rest)
  end.

(** The identifier composed at the end of [generate]. *)
Definition compose (g : t) (timestamp sequence : Z) : Z :=
  let workerId := workerId (_config g) in
  Z.lor
    (Z.lor (Z.shiftl (timestamp - epoch (_config g))
                     Constants.SNOWFLAKE_TIMESTAMP_SHIFT)
           (Z.shiftl workerId Constants.SNOWFLAKE_WORKER_ID_SHIFT))
    sequence.

Inductive Generated : Type :=
| Id (id : string) (g : t) (clock : list Z)
| ClockBackwards (g : t) (clock : list Z)
| Waiting.

(** [generate]: the readings of [Date.now()] are taken from [clock]. *)
Definition generate (g : t) (clock : list Z) : Generated :=
  match clock with
  | [] => Waiting
  | now :: clock =>
      let step :=
        if now =? _lastTimestamp g then
          let sequence := Z.land (_sequence g + 1) Constants.SNOWFLAKE_MAX_SEQUENCE in
          if sequence =? 0 then
            match _waitNextMillis (_lastTimestamp g) clock with
            | Some (timestamp, clock) => Some (timestamp, sequence, clock)
            | None => None
            end
          else Some (now, sequence, clock)
        else Some (now, 0, clock) in
      match step with
      | None => Waiting
      | Some (timestamp, sequence, clock) =>
          if timestamp <? _lastTimestamp g then
            ClockBackwards
              {| _config := _config g; _sequence := sequence;
                 _lastTimestamp := _lastTimestamp g |} clock
          else
            Id (Js.BigInt_toString (compose g timestamp sequence))
               {| _config := _config g; _sequence := sequence;
                  _lastTimestamp := timestamp |} clock
      end
  end.

Record Parsed : Type := {
  timestamp : Z;
  p_workerId : Z;
  sequence : Z
}.

(** [parse]; [None] is the [SyntaxError] of [BigInt(id)]. *)
Definition parse (g : t) (id : string) : option Parsed :=
  match Js.BigInt_of_string id with
  | None => None
  | Some snowflakeId =>
      Some {| sequence :=
                Js.Number_of_BigInt
                  (Z.land snowflakeId Constants.SNOWFLAKE_MAX_SEQUENCE);
              p_workerId :=
                Js.Number_of_BigInt
                  (Z.land (Z.shiftr snowflakeId Constants.SNOWFLAKE_WORKER_ID_SHIFT)
                          Constants.SNOWFLAKE_MAX_WORKER_ID);
              timestamp :=
                Js.Number_of_BigInt
                  (Z.shiftr snowflakeId Constants.SNOWFLAKE_TIMESTAMP_SHIFT
                   + epoch (_config g)) |}
  end.

End SnowflakeIdGenerator.

(** ** [compression/]: the codec interface, the codecs, the factory *)

(** [interface CompressionCodec]; a rejected promise is [None]. *)
Module CompressionCodec.
Record t : Type := {
  name : CompressionCodecType;
  compress : list byte -> option (list byte);
  decompress : list byte -> option (list byte);
  isAvailable : bool
}.
End CompressionCodec.

(** The third-party packages behind the codecs.  [zlib] is part of the
    platform; the other three are optional ([None]: [require] failed). *)
Module Libraries.
Record Package : Type := {
  pkg_compress : Z -> list byte -> option (list byte);
  pkg_decompress : list byte -> option (list byte)
}.
Record t : Type := {
  zlib : Package;
  snappy : option Package;
  lz4 : option Package;
  zstd : option Package
}.
End Libraries.

Module Codecs.

(** A codec over an optional package: both methods throw
    [CodecNotAvailableException] when the package is missing. *)
Definition optional (name : CompressionCodecType) (level : Z)
    (pkg : option Libraries.Package) : CompressionCodec.t :=
  {| CompressionCodec.name := name;
     CompressionCodec.compress :=
       fun buffer =>
         match pkg with
         | Some p => Libraries.pkg_compress p level buffer
         | None => None
         end;
     CompressionCodec.decompress :=
       fun buffer =>
         match pkg with
         | Some p => Libraries.pkg_decompress p buffer
         | None => None
         end;
     CompressionCodec.isAvailable := bool_decide (is_Some pkg) |}.

(** [new GzipCodec(level)]; [None] when the constructor throws. *)
Definition GzipCodec (libs : Libraries.t) (level : Z)
    : option CompressionCodec.t :=
  if (level <? 1) || (9 <? level) then None
  else
    Some {| CompressionCodec.name := GZIP;
            CompressionCodec.compress :=
              Libraries.pkg_compress (Libraries.zlib libs) level;
            CompressionCodec.decompress :=
              Libraries.pkg_decompress (Libraries.zlib libs);
            CompressionCodec.isAvailable := true |}.

Definition SnappyCodec (libs : Libraries.t) : CompressionCodec.t :=
  optional SNAPPY 0 (Libraries.snappy libs).

Definition Lz4Codec (libs : Libraries.t) : CompressionCodec.t :=
  optional LZ4 0 (Libraries.lz4 libs).

(** [new ZstdCodec(level)]; [None] when the constructor throws. *)
Definition ZstdCodec (libs : Libraries.t) (level : Z)
    : option CompressionCodec.t :=
  if (level <? 1) || (22 <? level) then None
  else Some (optional ZSTD level (Libraries.zstd libs)).

End Codecs.

(** [compression.factory.ts] *)
Module CompressionFactory.

Definition register (codecs : gmap CompressionCodecType CompressionCodec.t)
    (codec : CompressionCodec.t) : gmap CompressionCodecType CompressionCodec.t :=
  if CompressionCodec.isAvailable codec
  then <[CompressionCodec.name codec := codec]> codecs
  else codecs.

Definition get (codecs : gmap CompressionCodecType CompressionCodec.t)
    (name : CompressionCodecType) : option CompressionCodec.t :=
  codecs !! name.

End CompressionFactory.

(** ** [compression.handler.ts] *)

Module CompressionHandler.

Record CompressionHandlerConfig : Type := {
  enabled : bool;
  codec : CompressionCodecType;
  level : Z;
  minSize : Z;
  minReduction : float
}.

Record t : Type := {
  _config : CompressionHandlerConfig;
  _factory : gmap CompressionCodecType CompressionCodec.t
}.

(** The constructor with [_registerCodecs]; [None] when a codec
    constructor throws on the level. *)
Definition new (libs : Libraries.t) (config : CompressionHandlerConfig)
    : option t :=
  match Codecs.GzipCodec libs (level config), Codecs.ZstdCodec libs (level config) with
  | Some gzip, Some zstd =>
      let f := CompressionFactory.register ∅ gzip in
      let f := CompressionFactory.register f (Codecs.SnappyCodec libs) in
      let f := CompressionFactory.register f (Codecs.Lz4Codec libs) in
      let f := CompressionFactory.register f zstd in
      Some {| _config := config; _factory := f |}
  | _, _ => None
  end.

Definition shouldCompress (h : t) (size : Z) : bool :=
  enabled (_config h) && (minSize (_config h) <=? size).

(** [(1 - compressedSize / originalSize) * COMPRESSION_REDUCTION_MULTIPLIER],
    evaluated on binary64 numbers as the source does. *)
Definition reduction (originalSize compressedSize : Z) : float :=
  ((1 - Js.Number_of_size compressedSize / Js.Number_of_size originalSize)
   * Constants.COMPRESSION_REDUCTION_MULTIPLIER)%float.

Definition tryCompress (h : t) (jsonString : string)
    : option CompressionResult.t :=
  if negb (enabled (_config h)) then None
  else
    let originalSize := Js.byteLength jsonString in
    if originalSize <? minSize (_config h) then None
    else
      match CompressionFactory.get (_factory h) (codec (_config h)) with
      | None => None
      | Some codec =>
          let buffer := Js.Buffer_from_utf8 jsonString in
          match CompressionCodec.compress codec buffer with
          | None => None
          | Some compressed =>
              let compressedSize := Z.of_nat (length compressed) in
              let reduction := reduction originalSize compressedSize in
              if PrimFloat.leb (minReduction (_config h)) reduction then
                Some {| CompressionResult.data := Js.base64_encode compressed;
                        CompressionResult.codec := CompressionCodec.name codec;
                        CompressionResult.originalSize := originalSize;
                        CompressionResult.compressedSize := compressedSize |}
              else None
          end
      end.

Section Decompress.
Context `{Js.Builtins}.

(** [tryDecompress]; the result is [null] on every failure. *)
Definition tryDecompress (h : t) (data : Js.Value)
    (codecName : CompressionCodecType) : Js.Value :=
  match CompressionFactory.get (_factory h) codecName with
  | None => Js.JsNull
  | Some codec =>
      match Js.Buffer_from_base64 data with
      | None => Js.JsNull
      | Some compressedBuffer =>
          match CompressionCodec.decompress codec compressedBuffer with
          | None => Js.JsNull
          | Some decompressed =>
              default Js.JsNull
                (Js.JSON_parse (Js.Buffer_toString_utf8 decompressed))
          end
      end
  end.

End Decompress.

End CompressionHandler.

(** ** Timers and log lines *)

(** [setTimeout] and [clearTimeout]: the timers that are armed. *)
Module Timers.
Record t : Type := {
  next : nat;
  armed : gset nat
}.

Definition setTimeout (tm : t) : t * nat :=
  ({| next := S (next tm); armed := {[next tm]} ∪ armed tm |}, next tm).

Definition clearTimeout (tm : t) (timer : nat) : t :=
  {| next := next tm; armed := armed tm ∖ {[timer]} |}.

(** A timer that fires is armed no longer. *)
Definition fire (tm : t) (timer : nat) : t :=
  {| next := next tm; armed := armed tm ∖ {[timer]} |}.
End Timers.

Inductive LogLevel : Type := LogError | LogWarn.

(** ** [request-tracker.ts] *)

Module RequestTracker.

(** [type ResponseHandler], over the type of the callbacks it holds. *)
Record ResponseHandler (C : Type) : Type := {
  timeoutId : option nat;
  callback : C;
  ackReceived : bool;
  retryCount : Z;
  retryTimer : option nat;
  timestamp : Z
}.
Arguments timeoutId {C} _.
Arguments callback {C} _.
Arguments ackReceived {C} _.
Arguments retryCount {C} _.
Arguments retryTimer {C} _.
Arguments timestamp {C} _.

(** What application code called back by the tracker can read of it
    through [get]: every handler, its callback left out. *)
Abbreviation View := (gmap string (ResponseHandler unit)).

Definition visible {C} (h : ResponseHandler C) : ResponseHandler unit :=
  {| timeoutId := timeoutId h; callback := tt; ackReceived := ackReceived h;
     retryCount := retryCount h; retryTimer := retryTimer h;
     timestamp := timestamp h |}.

(** How a call of application code ends.  [Threw message]: it threw a
    value other than [null] and [undefined], whose property [message]
    reads as the text [message] in a template literal (an [Error] with
    that message; the text is [undefined] for a value without the
    property).  [ThrewNullish]: it threw [null] or [undefined], a value
    on which reading [message] throws a [TypeError]. *)
Inductive Outcome : Type :=
| Returned
| Threw (message : string)
| ThrewNullish.

(** What a run of a tracker method did that its state does not show: the
    calls of application code, each with the response passed, the view of
    the tracker and the timers armed at the moment of the call, and the
    lines logged. *)
Inductive Event : Type :=
| Called (messageId : string) (response : Js.Value) (seen : View)
         (armed : gset nat)
| TimedOut (messageId : string) (seen : View)
| Logged (level : LogLevel) (text : string).

Section Tracker.
(** The callbacks are closures of the caller; [run] is their behaviour as
    far as the tracker can tell. *)
Context {C : Type} (run : C -> Js.Value -> View -> Outcome).

Record t : Type := {
  requestTimeout : Z;
  _handlers : gmap string (ResponseHandler C)
}.

Definition new (requestTimeout : option Z) : t :=
  {| requestTimeout := default Constants.DEFAULT_REQUEST_TIMEOUT requestTimeout;
     _handlers := ∅ |}.

Definition view (tr : t) : View := visible <$> _handlers tr.

Definition with_handlers (tr : t) (m : gmap string (ResponseHandler C)) : t :=
  {| requestTimeout := requestTimeout tr; _handlers := m |}.

(** [register]; [now] is the reading of [Date.now()].  The timer armed
    runs [timeoutExpired] when it fires. *)
Definition register (tr : t) (tm : Timers.t) (now : Z) (messageId : string)
    (callback : C) : t * Timers.t :=
  let '(tm, timer) := Timers.setTimeout tm in
  (with_handlers tr
     (<[messageId :=
          {| callback := callback; ackReceived := false; retryCount := 0;
             timestamp := now; timeoutId := Some timer; retryTimer := None |}]>
        (_handlers tr)),
   tm).

Definition setRetryTimer (tr : t) (tm : Timers.t) (messageId : string)
    (timer : nat) : t * Timers.t * bool :=
  match _handlers tr !! messageId with
  | None => (tr, tm, false)
  | Some handler =>
      let tm :=
        match retryTimer handler with
        | Some old => Timers.clearTimeout tm old
        | None => tm
        end in
      (with_handlers tr
         (<[messageId :=
              {| callback := callback handler; ackReceived := ackReceived handler;
                 retryCount := retryCount handler; timestamp := timestamp handler;
                 timeoutId := timeoutId handler; retryTimer := Some timer |}]>
            (_handlers tr)),
       tm, true)
  end.

Definition clearRetryTimer (tr : t) (tm : Timers.t) (messageId : string)
    : t * Timers.t :=
  match _handlers tr !! messageId with
  | Some handler =>
      match retryTimer handler with
      | Some timer =>
          (with_handlers tr
             (<[messageId :=
                  {| callback := callback handler;
                     ackReceived := ackReceived handler;
                     retryCount := retryCount handler;
                     timestamp := timestamp handler;
                     timeoutId := timeoutId handler; retryTimer := None |}]>
                (_handlers tr)),
           Timers.clearTimeout tm timer)
      | None => (tr, tm)
      end
  | None => (tr, tm)
  end.

Definition incrementRetry (tr : t) (messageId : string) : t * Z :=
  match _handlers tr !! messageId with
  | None => (tr, 0)
  | Some handler =>
      (with_handlers tr
         (<[messageId :=
              {| callback := callback handler; ackReceived := ackReceived handler;
                 retryCount := retryCount handler + 1;
                 timestamp := timestamp handler;
                 timeoutId := timeoutId handler;
                 retryTimer := retryTimer handler |}]>
            (_handlers tr)),
       retryCount handler + 1)
  end.

Definition get (tr : t) (messageId : string) : option (ResponseHandler C) :=
  _handlers tr !! messageId.

(** [invokeAndRemove]: the statements in the order of the source.  The
    boolean returned is [None] when the call throws: the [catch] reads
    [error.message], which throws a [TypeError] when the callback threw
    [null] or [undefined]; the line is then not logged and the statement
    after the [try], the removal of the entry, is not reached. *)
Definition invokeAndRemove (tr : t) (tm : Timers.t) (messageId : string)
    (response : Js.Value) : t * Timers.t * list Event * option bool :=
  match _handlers tr !! messageId with
  | None => (tr, tm, [], Some false)
  | Some handler =>
      let '(tr, tm) := clearRetryTimer tr tm messageId in
      let tm :=
        match timeoutId handler with
        | Some timer => Timers.clearTimeout tm timer
        | None => tm
        end in
      let called := Called messageId response (view tr) (Timers.armed tm) in
      match run (callback handler) response (view tr) with
      | Returned =>
          (with_handlers tr (delete messageId (_handlers tr)), tm, [called],
           Some true)
      | Threw message =>
          (with_handlers tr (delete messageId (_handlers tr)), tm,
           [called;
            Logged LogError
              ("Callback error for " +:+ messageId +:+ ": " +:+ message)],
           Some true)
      | ThrewNullish => (tr, tm, [called], None)
      end
  end.

Definition remove (tr : t) (tm : Timers.t) (messageId : string)
    : t * Timers.t * bool :=
  match _handlers tr !! messageId with
  | None => (tr, tm, false)
  | Some handler =>
      let '(tr, tm) := clearRetryTimer tr tm messageId in
      let tm :=
        match timeoutId handler with
        | Some timer => Timers.clearTimeout tm timer
        | None => tm
        end in
      (with_handlers tr (delete messageId (_handlers tr)), tm, true)
  end.

(** The closure [register] hands to [setTimeout], run when the timer
    fires; [onTimeout] tells whether the caller gave a timeout callback. *)
Definition timeoutExpired (tr : t) (tm : Timers.t) (messageId : string)
    (onTimeout : bool) : t * Timers.t * list Event :=
  match _handlers tr !! messageId with
  | Some _ =>
      let '(tr, tm, _) := remove tr tm messageId in
      (tr, tm,
       Logged LogWarn
         ("Request " +:+ messageId +:+ " timed out after "
            +:+ Js.BigInt_toString (requestTimeout tr) +:+ "ms")
         :: (if onTimeout then [TimedOut messageId (view tr)] else []))
  | None => (tr, tm, [])
  end.

(** [cleanupOldRequests]; [now] is the reading of [Date.now()].  The loop
    visits the entries the map holds when it starts; the count of the
    removals is returned.  No callback is called. *)
Definition cleanupOldRequests (tr : t) (tm : Timers.t) (now maxAge : Z)
    : t * Timers.t * Z :=
  foldl (fun (acc : t * Timers.t * Z) (entry : string * ResponseHandler C) =>
           let '(tr, tm, cleanedCount) := acc in
           if maxAge <? now - timestamp (snd entry) then
             let '(tr, tm, _) := remove tr tm (fst entry) in
             (tr, tm, cleanedCount + 1)
           else (tr, tm, cleanedCount))
        (tr, tm, 0) (map_to_list (_handlers tr)).

(** [clear]: every key of the map is removed, with its timers. *)
Definition clear (tr : t) (tm : Timers.t) : t * Timers.t :=
  foldl (fun (acc : t * Timers.t) (messageId : string) =>
           let '(tr, tm, _) := remove (fst acc) (snd acc) messageId in (tr, tm))
        (tr, tm) (fst <$> map_to_list (_handlers tr)).

End Tracker.

Arguments t C : clear implicits.

End RequestTracker.

(** ** [udp-socket.ts], [json-udp-socket.ts] *)

(** The base class of the sockets. *)
Module UdpSocket.

Record t : Type := {
  isClosed : bool
}.

(** The listeners the constructor registers on the events of the
    datagram socket. *)
Inductive SocketEvent : Type := LISTENING | CLOSE | ERROR.

Definition listener (s : t) (e : SocketEvent) : t :=
  match e with
  | LISTENING => {| isClosed := false |}
  | CLOSE | ERROR => {| isClosed := true |}
  end.

(** How a call of [emitMessage] ends: the event [data] is emitted with
    the message, or [InvalidJSONFormatException] is thrown. *)
Inductive Emitted : Type :=
| Data (message : Js.Value) (info : RemoteInfo.t)
| InvalidJSONFormat (data : option string).

Section Emit.
Context `{Js.Builtins}.

(** [emitMessage(data, info)]; [data] is [undefined] when the caller
    passes the result of [JSON.stringify] on [undefined], which
    [JSON.parse] refuses. *)
Definition emitMessage (data : option string) (info : RemoteInfo.t) : Emitted :=
  match data with
  | None => InvalidJSONFormat None
  | Some text =>
      match Js.JSON_parse text with
      | None => InvalidJSONFormat data
      | Some message =>
          Data (if Js.truthy message then message else Js.JsObject []) info
      end
  end.

End Emit.

End UdpSocket.

Module JsonUdpSocket.

Definition MAX_UDP_PAYLOAD_SIZE : Z := 65507.

(** The errors of the send path. *)
Inductive Failure : Type :=
| MaxPacketLengthExceeded (length : Z)
| TypeError
| SocketClosed
| SendFailed (message : string).

(** What a call does: a call of [socket.send] with its arguments (the
    address, when one is given, and whether the caller's callback is
    passed on), a call of the caller's callback with an error, the event
    [data] or the event [error] emitted on the socket. *)
Inductive Action : Type :=
| Send (datagram : string) (address : option (Z * string)) (callback : bool)
| Callback (error : Failure)
| EmitData (message : Js.Value) (info : RemoteInfo.t)
| EmitError (data : option string).

Section Socket.
Context `{Js.Builtins}.
(** [socket.send] of the platform: whether the call throws. *)
Context (socket_send : string -> option (Z * string) -> option string).

(** [handleSend]; [callback] tells whether the caller gave a callback. *)
Definition handleSend (message : Js.Value) (host : option string)
    (port : option Z) (callback : bool) : list Action :=
  let caught (error : Failure) : list Action :=
    if callback then [Callback error] else [] in
  match Js.JSON_stringify message with
  | None => caught TypeError
  | Some jsonString =>
      let messageSize := Js.byteLength jsonString in
      if MAX_UDP_PAYLOAD_SIZE <? messageSize
      then caught (MaxPacketLengthExceeded MAX_UDP_PAYLOAD_SIZE)
      else
        let address :=
          match host, port with
          | Some h, Some p =>
              if string_truthy host && negb (p =? 0) then Some (p, h) else None
          | _, _ => None
          end in
        Send jsonString address callback
          :: match socket_send jsonString address with
             | Some e => caught (SendFailed e)
             | None => []
             end
  end.

(** [sendMessage] of the base class, with this [handleSend]. *)
Definition sendMessage (s : UdpSocket.t) (message : Js.Value)
    (host : option string) (port : option Z) (callback : bool) : list Action :=
  if UdpSocket.isClosed s
  then (if callback then [Callback SocketClosed] else [])
  else handleSend message host port callback.

(** [handleData]: the message is emitted, or the event [error], which the
    listener of the base class answers by marking the socket closed. *)
Definition handleData (s : UdpSocket.t) (data : string) (rinfo : RemoteInfo.t)
    : UdpSocket.t * list Action :=
  match UdpSocket.emitMessage (Some data) rinfo with
  | UdpSocket.Data message info => (s, [EmitData message info])
  | UdpSocket.InvalidJSONFormat d =>
      (UdpSocket.listener s UdpSocket.ERROR, [EmitError d])
  end.

End Socket.

End JsonUdpSocket.

(** [type CompressionConfig] and [type ReliableUdpSocketOptions]: every
    property may be missing. *)
Module CompressionConfig.
Record t : Type := {
  enabled : option bool;
  codec : option CompressionCodecType;
  level : option Z;
  minSize : option Z;
  minReduction : option float
}.
End CompressionConfig.

Module ReliableUdpSocketOptions.
Record MessageIdOptions : Type := {
  workerId : option Z;
  epoch : option Z
}.
Record t : Type := {
  maxMessageSize : option Z;
  chunkSize : option Z;
  maxRetries : option Z;
  retryInterval : option Z;
  enableChecksum : option bool;
  requestTimeout : option Z;
  reassemblyTimeout : option Z;
  compression : option CompressionConfig.t;
  messageIdOptions : option MessageIdOptions
}.

(** [{}] *)
Definition empty : t :=
  {| maxMessageSize := None; chunkSize := None; maxRetries := None;
     retryInterval := None; enableChecksum := None; requestTimeout := None;
     reassemblyTimeout := None; compression := None;
     messageIdOptions := None |}.
End ReliableUdpSocketOptions.

(** ** [reliable-udp-socket.ts] *)

Module ReliableUdpSocket.

Record SocketConfig : Type := {
  maxMessageSize : Z;
  maxRetries : Z;
  retryInterval : Z;
  enableChecksum : bool
}.

(** The closures [_sendSingleMessage] and [_sendChunkedMessage] register
    with the tracker, named by what they capture. *)
Inductive SendCallback : Type :=
| SingleAcked (messageId : string)
| ChunkAcked (messageId : string) (index total : Z).

(** The state of a socket: its fields and the timers it has armed. *)
Record t : Type := {
  _config : SocketConfig;
  _idGenerator : SnowflakeIdGenerator.t;
  _compressionHandler : CompressionHandler.t;
  _chunkingHandler : ChunkingHandler.t;
  _requestTracker : RequestTracker.t SendCallback;
  timers : Timers.t
}.

(** The actions of a run, in program order: datagrams handed to
    [socket.send], messages handed to [emitMessage], calls into the
    reassembler and the decompressor, calls of the caller's completion
    callback, and the error lines logged. *)
Inductive Event : Type :=
| Send (datagram : string) (port : Z) (host : string)
| Emit (message : option string) (rinfo : RemoteInfo.t)
| InitAssembly (baseId : string) (total : Z)
| AddChunk (baseId : string) (chunkIndex : Z)
| Decompress (codec : CompressionCodecType)
| Completion (error : option string)
| Log (level : LogLevel) (text : string).

(** A run of the receive path: the socket afterwards, the actions, and
    the exception it ended with, if any. *)
Definition Received : Type := t * list Event * option string.

(** A run of the send path: the socket, the clock readings left, the
    actions and the exception; [None] when the run does not return (a
    busy wait the readings given do not end, a loop without bound). *)
Definition Sent : Type := option (t * list Z * list Event * option string).

Definition with_idGenerator (s : t) (g : SnowflakeIdGenerator.t) : t :=
  {| _config := _config s; _idGenerator := g;
     _compressionHandler := _compressionHandler s;
     _chunkingHandler := _chunkingHandler s;
     _requestTracker := _requestTracker s; timers := timers s |}.

Definition with_chunkingHandler (s : t) (h : ChunkingHandler.t) : t :=
  {| _config := _config s; _idGenerator := _idGenerator s;
     _compressionHandler := _compressionHandler s;
     _chunkingHandler := h;
     _requestTracker := _requestTracker s; timers := timers s |}.

Definition with_requestTracker (s : t)
    (tr : RequestTracker.t SendCallback * Timers.t) : t :=
  {| _config := _config s; _idGenerator := _idGenerator s;
     _compressionHandler := _compressionHandler s;
     _chunkingHandler := _chunkingHandler s;
     _requestTracker := fst tr; timers := snd tr |}.

(** The constructor: the default configuration and fresh handlers.
    [None] when a handler constructor throws. *)
Definition new (libs : Libraries.t) : option t :=
  match SnowflakeIdGenerator.new 0 (Some Constants.SNOWFLAKE_DEFAULT_EPOCH),
        CompressionHandler.new libs
          {| CompressionHandler.enabled := false;
             CompressionHandler.codec := Constants.DEFAULT_COMPRESSION_CODEC;
             CompressionHandler.level := Constants.DEFAULT_COMPRESSION_LEVEL;
             CompressionHandler.minSize := Constants.DEFAULT_COMPRESSION_MIN_SIZE;
             CompressionHandler.minReduction :=
               Constants.DEFAULT_COMPRESSION_MIN_REDUCTION |} with
  | Some idGenerator, Some compressionHandler =>
      Some {| _config :=
                {| maxMessageSize := Constants.DEFAULT_MAX_MESSAGE_SIZE;
                   maxRetries := Constants.DEFAULT_MAX_RETRIES;
                   retryInterval := Constants.DEFAULT_RETRY_INTERVAL;
                   enableChecksum := Constants.DEFAULT_ENABLE_CHECKSUM |};
              _idGenerator := idGenerator;
              _compressionHandler := compressionHandler;
              _chunkingHandler :=
                ChunkingHandler.new (Some Constants.DEFAULT_CHUNK_SIZE)
                  (Some Constants.DEFAULT_REASSEMBLY_TIMEOUT);
              _requestTracker :=
                RequestTracker.new (Some Constants.DEFAULT_REQUEST_TIMEOUT);
              timers := {| Timers.next := 0; Timers.armed := ∅ |} |}
  | _, _ => None
  end.

(** [configure] with [options.compression] alone: a new compression
    handler; [None] when its constructor throws. *)
Definition configure_compression (libs : Libraries.t) (s : t)
    (compression : CompressionHandler.CompressionHandlerConfig) : option t :=
  match CompressionHandler.new libs compression with
  | Some compressionHandler =>
      Some {| _config := _config s; _idGenerator := _idGenerator s;
              _compressionHandler := compressionHandler;
              _chunkingHandler := _chunkingHandler s;
              _requestTracker := _requestTracker s; timers := timers s |}
  | None => None
  end.

(** [id.split('-chunk-')[0]] *)
Fixpoint before_separator (separator s : string) : string :=
  match s with
  | EmptyString => EmptyString
  | String c rest =>
      if String.prefix separator s then EmptyString
      else String c (before_separator separator rest)
  end.

(** [compressionResult?.codec || CompressionCodecType.NONE] *)
Definition codec_of (compressionResult : option CompressionResult.t)
    : CompressionCodecType :=
  match compressionResult with
  | Some r => CompressionResult.codec r
  | None => NONE
  end.

(** The variables the closures of one chunked send share:
    [completedChunks] and [hasError]. *)
Record ChunkedSend : Type := {
  completedChunks : Z;
  hasError : bool
}.

(** The closure [_sendChunkedMessage] registers with the tracker as the
    callback of a chunk, of [total]; [callback] tells whether the caller
    gave a completion callback. *)
Definition chunkAcked (total : Z) (callback : bool) (v : ChunkedSend)
    : ChunkedSend * list Event :=
  let completed := completedChunks v + 1 in
  ({| completedChunks := completed; hasError := hasError v |},
   if (completed =? total) && callback && negb (hasError v)
   then [Completion None] else []).

(** The closure it registers as [onTimeout] of the chunk at index [i]. *)
Definition chunkTimedOut (i : Z) (callback : bool) (v : ChunkedSend)
    : ChunkedSend * list Event :=
  if hasError v then (v, [])
  else
    ({| completedChunks := completedChunks v; hasError := true |},
     if callback
     then [Completion (Some ("Chunk " +:+ Js.BigInt_toString i +:+ " timeout"))]
     else []).

(** The two closures [_sendSingleMessage] registers. *)
Definition singleAcked (callback : bool) : list Event :=
  if callback then [Completion None] else [].

Definition singleTimedOut (messageId : string) (callback : bool) : list Event :=
  if callback then [Completion (Some ("Timeout for " +:+ messageId))] else [].

(** The steps of a run of the receive path on a datagram: the actions of
    the engine, the calls the tracker makes, and the messages emitted to
    the application with the event [data]. *)
Inductive Step : Type :=
| Engine (e : Event)
| Tracker (e : RequestTracker.Event)
| Data (message : Js.Value) (info : RemoteInfo.t).

(** A run of [_processIncomingMessage]: the socket afterwards, the steps
    and the exception the promise is rejected with, if any.  [IllTyped]:
    the datagram is an envelope one of whose properties holds a value of
    another type than [MessageEnvelope] declares; the run is not
    described. *)
Inductive Processed : Type :=
| Ran (s : t) (steps : list Step) (error : option string)
| IllTyped.

Definition with_config (s : t) (config : SocketConfig) : t :=
  {| _config := config; _idGenerator := _idGenerator s;
     _compressionHandler := _compressionHandler s;
     _chunkingHandler := _chunkingHandler s;
     _requestTracker := _requestTracker s; timers := timers s |}.

Definition with_compressionHandler (s : t) (h : CompressionHandler.t) : t :=
  {| _config := _config s; _idGenerator := _idGenerator s;
     _compressionHandler := h;
     _chunkingHandler := _chunkingHandler s;
     _requestTracker := _requestTracker s; timers := timers s |}.

(** [_validateOptions]: the message of the error thrown, if any. *)
Definition _validateOptions (config : SocketConfig) : option string :=
  if (maxMessageSize config <? Constants.MIN_MESSAGE_SIZE)
     || (Constants.MAX_MESSAGE_SIZE <? maxMessageSize config)
  then Some ("Invalid maxMessageSize: "
               +:+ Js.BigInt_toString (maxMessageSize config))
  else None.

(** [configure]: the socket afterwards and the exception thrown, if any.
    The statements run in the order of the source, so what precedes a
    [throw] has taken effect. *)
Definition configure (libs : Libraries.t) (s : t)
    (options : ReliableUdpSocketOptions.t) : t * option string :=
  let config :=
    {| maxMessageSize :=
         default (maxMessageSize (_config s))
                 (ReliableUdpSocketOptions.maxMessageSize options);
       maxRetries :=
         default (maxRetries (_config s))
                 (ReliableUdpSocketOptions.maxRetries options);
       retryInterval :=
         default (retryInterval (_config s))
                 (ReliableUdpSocketOptions.retryInterval options);
       enableChecksum :=
         default (enableChecksum (_config s))
                 (ReliableUdpSocketOptions.enableChecksum options) |} in
  let s := with_config s config in
  match _validateOptions config with
  | Some error => (s, Some error)
  | None =>
      let idGenerator :=
        match ReliableUdpSocketOptions.messageIdOptions options with
        | Some o =>
            SnowflakeIdGenerator.new
              (default 0 (ReliableUdpSocketOptions.workerId o))
              (Some (default Constants.SNOWFLAKE_DEFAULT_EPOCH
                             (ReliableUdpSocketOptions.epoch o)))
        | None => Some (_idGenerator s)
        end in
      match idGenerator with
      | None => (s, Some "Worker ID must be between 0 and 1023")
      | Some g =>
          let s := with_idGenerator s g in
          let compressionHandler :=
            match ReliableUdpSocketOptions.compression options with
            | Some c =>
                CompressionHandler.new libs
                  {| CompressionHandler.enabled :=
                       default false (CompressionConfig.enabled c);
                     CompressionHandler.codec :=
                       default Constants.DEFAULT_COMPRESSION_CODEC
                               (CompressionConfig.codec c);
                     CompressionHandler.level :=
                       default Constants.DEFAULT_COMPRESSION_LEVEL
                               (CompressionConfig.level c);
                     CompressionHandler.minSize :=
                       default Constants.DEFAULT_COMPRESSION_MIN_SIZE
                               (CompressionConfig.minSize c);
                     CompressionHandler.minReduction :=
                       default Constants.DEFAULT_COMPRESSION_MIN_REDUCTION
                               (CompressionConfig.minReduction c) |}
            | None => Some (_compressionHandler s)
            end in
          match compressionHandler with
          | None =>
              (s,
               Some ("Invalid gzip level: "
                       +:+ Js.BigInt_toString
                             (default Constants.DEFAULT_COMPRESSION_LEVEL
                                (ReliableUdpSocketOptions.compression options
                                   ≫= CompressionConfig.level))
                       +:+ " (must be 1-9)"))
          | Some h =>
              let s := with_compressionHandler s h in
              let s :=
                if bool_decide (is_Some (ReliableUdpSocketOptions.chunkSize options))
                   || bool_decide
                        (is_Some (ReliableUdpSocketOptions.reassemblyTimeout options))
                then
                  with_chunkingHandler s
                    (ChunkingHandler.new
                       (Some (default Constants.DEFAULT_CHUNK_SIZE
                                (ReliableUdpSocketOptions.chunkSize options)))
                       (Some (default Constants.DEFAULT_REASSEMBLY_TIMEOUT
                                (ReliableUdpSocketOptions.reassemblyTimeout options))))
                else s in
              let s :=
                match ReliableUdpSocketOptions.requestTimeout options with
                | Some requestTimeout =>
                    with_requestTracker s
                      (RequestTracker.new (Some requestTimeout), timers s)
                | None => s
                end in
              (s, None)
          end
      end
  end.

(** The closure [_startCleanupTimer] arms with [setInterval]; [now1] and
    [now2] are the readings of [Date.now()] in the two cleanups. *)
Definition cleanupTick (s : t) (now1 now2 : Z) : t :=
  let s :=
    with_chunkingHandler s
      (fst (ChunkingHandler.cleanupStaleAssemblies (_chunkingHandler s) now1)) in
  let '(tr, tm, _) :=
    RequestTracker.cleanupOldRequests (_requestTracker s) (timers s) now2
      Constants.REQUEST_CLEANUP_AGE in
  with_requestTracker s (tr, tm).

(** [close], with [_stopCleanupTimer]; [cleanupTimer] is the field
    [_cleanupTimer]. *)
Definition close (s : t) (cleanupTimer : option nat) : t * option nat :=
  let tm :=
    match cleanupTimer with
    | Some timer => Timers.clearTimeout (timers s) timer
    | None => timers s
    end in
  let s := with_requestTracker s (RequestTracker.clear (_requestTracker s) tm) in
  (with_chunkingHandler s (ChunkingHandler.clear (_chunkingHandler s)), None).

Section Engine.
Context `{Js.Builtins}.

(** [typeof data === 'string' ? data : JSON.stringify(data)] *)
Definition text_of (data : Js.Value) : option string :=
  match data with
  | Js.JsString s => Some s
  | _ => Js.JSON_stringify data
  end.

(** [_calculateChecksum]; [None] when [update] throws on [undefined]. *)
Definition _calculateChecksum (data : Js.Value) : option string :=
  match text_of data with
  | Some jsonString => Some (Sha256.hex jsonString)
  | None => None
  end.

(** The synchronous part of [_sendRequestWithRetry]: one datagram.  The
    retry timer is armed later, when the send completes. *)
Definition _sendRequestWithRetry (envelope : MessageEnvelope.t) (host : string)
    (port : Z) : list Event :=
  [Send (MessageEnvelopeHandler.serialize envelope) port host].

(** The envelope [_sendSingleMessage] builds. *)
Definition singleEnvelope (messageId : string) (body : Js.Value)
    (checksum : option string)
    (compressionResult : option CompressionResult.t) : MessageEnvelope.t :=
  let codec := codec_of compressionResult in
  let isCompressed := bool_decide (is_Some compressionResult) in
  MessageEnvelopeHandler.createEnvelope messageId REQ body
    {| MessageEnvelopOptions.checksum := checksum;
       MessageEnvelopOptions.codec := Some (CodecEnum codec);
       MessageEnvelopOptions.isCompressed := Some isCompressed;
       MessageEnvelopOptions.isChunked := None;
       MessageEnvelopOptions.chunkIndex := None;
       MessageEnvelopOptions.chunkTotal := None;
       MessageEnvelopOptions.originalSize :=
         CompressionResult.originalSize <$> compressionResult;
       MessageEnvelopOptions.compressedSize :=
         CompressionResult.compressedSize <$> compressionResult |}.

Definition clock_backwards : string :=
  "Clock moved backwards. Refusing to generate ID.".

Definition _sendSingleMessage (s : t) (clock : list Z) (body : Js.Value)
    (host : string) (port : Z)
    (compressionResult : option CompressionResult.t) : Sent :=
  match SnowflakeIdGenerator.generate (_idGenerator s) clock with
  | SnowflakeIdGenerator.Waiting => None
  | SnowflakeIdGenerator.ClockBackwards g clock =>
      Some (with_idGenerator s g, clock, [], Some clock_backwards)
  | SnowflakeIdGenerator.Id messageId g clock =>
      let s := with_idGenerator s g in
      let checksum :=
        if enableChecksum (_config s) then
          match _calculateChecksum body with
          | Some c => Some (Some c)
          | None => None
          end
        else Some None in
      match checksum with
      | None => Some (s, clock, [], Some "TypeError")
      | Some checksum =>
          let envelope := singleEnvelope messageId body checksum compressionResult in
          match clock with
          | [] => None
          | now :: clock =>
              let s :=
                with_requestTracker s
                  (RequestTracker.register (_requestTracker s) (timers s) now
                     messageId (SingleAcked messageId)) in
              Some (s, clock, _sendRequestWithRetry envelope host port, None)
          end
      end
  end.

(** [`${messageId}-chunk-${i}`] *)
Definition chunkId (messageId : string) (i : nat) : string :=
  messageId +:+ "-chunk-" +:+ Js.BigInt_toString (Z.of_nat i).

(** The envelope the loop of [_sendChunkedMessage] builds for the chunk at
    index [i] of [total]. *)
Definition chunkEnvelope (config : SocketConfig) (messageId : string)
    (compressionResult : option CompressionResult.t) (total : nat) (i : nat)
    (chunk : string) : MessageEnvelope.t :=
  let codec := codec_of compressionResult in
  let isCompressed := bool_decide (is_Some compressionResult) in
  MessageEnvelopeHandler.createEnvelope (chunkId messageId i) REQ
    (Js.JsString chunk)
    {| MessageEnvelopOptions.checksum :=
         if enableChecksum config
         then _calculateChecksum (Js.JsString chunk) else None;
       MessageEnvelopOptions.codec := Some (CodecEnum codec);
       MessageEnvelopOptions.isCompressed := Some (isCompressed && (i =? 0)%nat);
       MessageEnvelopOptions.isChunked := Some true;
       MessageEnvelopOptions.chunkIndex := Some (Z.of_nat i);
       MessageEnvelopOptions.chunkTotal := Some (Z.of_nat total);
       MessageEnvelopOptions.originalSize :=
         if (i =? 0)%nat
         then CompressionResult.originalSize <$> compressionResult else None;
       MessageEnvelopOptions.compressedSize :=
         if (i =? 0)%nat
         then CompressionResult.compressedSize <$> compressionResult else None |}.

(** The loop of [_sendChunkedMessage] from index [i] on. *)
Fixpoint sendChunksFrom (s : t) (clock : list Z) (messageId : string)
    (compressionResult : option CompressionResult.t) (host : string) (port : Z)
    (total : nat) (i : nat) (chunks : list string) {struct chunks}
    : option (t * list Z * list Event) :=
  match chunks with
  | [] => Some (s, clock, [])
  | chunk :: rest =>
      let envelope :=
        chunkEnvelope (_config s) messageId compressionResult total i chunk in
      match clock with
      | [] => None
      | now :: clock =>
          let s :=
            with_requestTracker s
              (RequestTracker.register (_requestTracker s) (timers s) now
                 (chunkId messageId i)
                 (ChunkAcked messageId (Z.of_nat i) (Z.of_nat total))) in
          match sendChunksFrom s clock messageId compressionResult host port
                  total (S i) rest with
          | None => None
          | Some (s, clock, events) =>
              Some (s, clock, _sendRequestWithRetry envelope host port ++ events)
          end
      end
  end.

Definition _sendChunkedMessage (s : t) (clock : list Z) (body : Js.Value)
    (host : string) (port : Z)
    (compressionResult : option CompressionResult.t) : Sent :=
  match SnowflakeIdGenerator.generate (_idGenerator s) clock with
  | SnowflakeIdGenerator.Waiting => None
  | SnowflakeIdGenerator.ClockBackwards g clock =>
      Some (with_idGenerator s g, clock, [], Some clock_backwards)
  | SnowflakeIdGenerator.Id messageId g clock =>
      let s := with_idGenerator s g in
      match text_of body with
      | None => Some (s, clock, [], Some "TypeError")
      | Some dataString =>
          match ChunkingHandler.createChunks (_chunkingHandler s)
                  (ChunkingHandler.OfString dataString) with
          | None => None
          | Some chunks =>
              match sendChunksFrom s clock messageId compressionResult host port
                      (length chunks) 0 chunks with
              | None => None
              | Some (s, clock, events) => Some (s, clock, events, None)
              end
          end
      end
  end.

(** [_sendMessageAsync] up to its decision: the body to send, the
    compression result and the final size.  [None] is the [TypeError] of
    [Buffer.byteLength] on [undefined]. *)
Definition prepare (s : t) (message : Js.Value)
    : option (Js.Value * option CompressionResult.t * Z) :=
  match Js.JSON_stringify message with
  | None => None
  | Some jsonString =>
      let originalSize := Js.byteLength jsonString in
      let compressionResult :=
        if CompressionHandler.shouldCompress (_compressionHandler s) originalSize
        then CompressionHandler.tryCompress (_compressionHandler s) jsonString
        else None in
      let bodyToSend :=
        match compressionResult with
        | Some r => Js.JsString (CompressionResult.data r)
        | None => message
        end in
      match text_of bodyToSend with
      | None => None
      | Some finalString =>
          Some (bodyToSend, compressionResult, Js.byteLength finalString)
      end
  end.

(** The [catch] of [_sendMessageAsync]: the exception goes to the
    caller's callback, if there is one. *)
Definition caught (callback : bool) (r : Sent) : Sent :=
  match r with
  | Some (s, clock, events, Some error) =>
      Some (s, clock,
            events ++ (if callback then [Completion (Some error)] else []),
            None)
  | _ => r
  end.

(** [_sendMessageAsync]; [callback] tells whether the caller gave a
    completion callback. *)
Definition _sendMessageAsync (s : t) (clock : list Z) (message : Js.Value)
    (host : string) (port : Z) (callback : bool) : Sent :=
  match prepare s message with
  | None => caught callback (Some (s, clock, [], Some "TypeError"))
  | Some (bodyToSend, compressionResult, finalSize) =>
      if finalSize <=? maxMessageSize (_config s) then
        caught callback
          (_sendSingleMessage s clock bodyToSend host port compressionResult)
      else
        caught callback
          (_sendChunkedMessage s clock bodyToSend host port compressionResult)
  end.

(** [_sendAcknowledgement] *)
Definition _sendAcknowledgement (id : string) (rinfo : RemoteInfo.t)
    : list Event :=
  let ackEnvelope :=
    MessageEnvelopeHandler.createEnvelope id ACK Js.JsNull
      MessageEnvelopOptions.empty in
  [Send (MessageEnvelopeHandler.serialize ackEnvelope)
        (RemoteInfo.port rinfo) (RemoteInfo.address rinfo)].

Definition _handleSingleRequest (s : t) (req : MessageEnvelope.t)
    (rinfo : RemoteInfo.t) : Received :=
  let flags := MessageEnvelopeHandler.decodeFlags (MessageEnvelope.flags req) in
  let '(finalBody, work) :=
    match flags with
    | Some f =>
        match DecodedFlags.codec f with
        | NONE => (MessageEnvelope.body req, [])
        | codec =>
            (CompressionHandler.tryDecompress (_compressionHandler s)
               (MessageEnvelope.body req) codec,
             [Decompress codec])
        end
    | None => (MessageEnvelope.body req, [])
    end in
  let messageString := Js.JSON_stringify finalBody in
  (s, work ++ [Emit messageString rinfo], None).

(** [_handleChunkedRequest], called with [req.ci] and [req.ct] defined;
    [now] is the reading of [Date.now()] in [initAssembly]. *)
Definition _handleChunkedRequest (s : t) (now : Z) (req : MessageEnvelope.t)
    (ci ct : Z) (rinfo : RemoteInfo.t) : Received :=
  let baseId := before_separator "-chunk-" (MessageEnvelope.id req) in
  let flags := MessageEnvelopeHandler.decodeFlags (MessageEnvelope.flags req) in
  let init :=
    match ChunkingHandler.getAssembly (_chunkingHandler s) baseId with
    | Some _ => Some (_chunkingHandler s, [])
    | None =>
        match ChunkingHandler.initAssembly (_chunkingHandler s) now baseId ct
                (Some rinfo) (DecodedFlags.codec <$> flags) with
        | Some h => Some (h, [InitAssembly baseId ct])
        | None => None
        end
    end in
  match init with
  | None => (s, [InitAssembly baseId ct], Some "RangeError: Invalid array length")
  | Some (h, e1) =>
      let '(h, isComplete) :=
        ChunkingHandler.addChunk h baseId ci (MessageEnvelope.body req) in
      let e2 := e1 ++ [AddChunk baseId ci] in
      if isComplete then
        match ChunkingHandler.getAssembledData h baseId with
        | None =>
            (with_chunkingHandler s h,
             e2 ++ [Log LogError ("Failed to assemble message " +:+ baseId)],
             None)
        | Some (data, compressionCodec) =>
            let h := fst (ChunkingHandler.removeAssembly h baseId) in
            let finalData := Js.Buffer_toString_utf8 data in
            if codec_truthy compressionCodec then
              let codec := default NONE compressionCodec in
              let decompressed :=
                CompressionHandler.tryDecompress (_compressionHandler s)
                  (Js.JsString finalData) codec in
              (with_chunkingHandler s h,
               e2 ++ [Decompress codec;
                      Emit (Js.JSON_stringify decompressed) rinfo],
               None)
            else
              (with_chunkingHandler s h, e2 ++ [Emit (Some finalData) rinfo], None)
        end
      else (with_chunkingHandler s h, e2, None)
  end.

(** [_handleRequest]; the actions of the handlers it awaits follow its
    own. *)
Definition _handleRequest (s : t) (now : Z) (req : MessageEnvelope.t)
    (rinfo : RemoteInfo.t) : Received :=
  let verdict :=
    if enableChecksum (_config s) && string_truthy (MessageEnvelope.checksum req)
    then
      match _calculateChecksum (MessageEnvelope.body req) with
      | None => Some (Some "TypeError")
      | Some calculated =>
          if bool_decide (Some calculated = MessageEnvelope.checksum req)
          then None
          else Some None
      end
    else None in
  match verdict with
  | Some (Some error) => (s, [], Some error)
  | Some None =>
      (s, [Log LogError ("Checksum failure for " +:+ MessageEnvelope.id req)], None)
  | None =>
      let ack := _sendAcknowledgement (MessageEnvelope.id req) rinfo in
      let '(s, events, error) :=
        match MessageEnvelope.ci req, MessageEnvelope.ct req with
        | Some ci, Some ct => _handleChunkedRequest s now req ci ct rinfo
        | _, _ => _handleSingleRequest s req rinfo
        end in
      (s, ack ++ events, error)
  end.

(** [handleData] with [_processIncomingMessage] on a datagram that parsed
    to a request: a rejection is logged. *)
Definition handleData_request (s : t) (now : Z) (req : MessageEnvelope.t)
    (rinfo : RemoteInfo.t) : t * list Event :=
  let '(s, events, error) := _handleRequest s now req rinfo in
  (s,
   events ++ match error with
             | Some e => [Log LogError ("Error processing message: " +:+ e)]
             | None => []
             end).

(** [JSON.stringify({ ...envelope, retryCount })]: the text of a
    retransmission. *)
Definition serialize_retry (envelope : MessageEnvelope.t) (retryCount : Z)
    : string :=
  match MessageEnvelopeHandler.envelope_object envelope with
  | Js.JsObject fields =>
      Js.JSON_stringify_defined
        (Js.JsObject (fields ++ [("retryCount", Js.JsNumber retryCount)]))
  | v => Js.JSON_stringify_defined v
  end.

(** The callback [_sendRequestWithRetry] hands to [socket.send], run when
    the send has completed, with the error if it failed: the retry timer
    it arms, if it arms one. *)
Definition sendCompleted (s : t) (envelopeId : string) (err : option string)
    : t * list Event * option nat :=
  match err with
  | Some message =>
      (s, [Log LogError ("Send failed " +:+ envelopeId +:+ ": " +:+ message)],
       None)
  | None =>
      match RequestTracker.get (_requestTracker s) envelopeId with
      | None => (s, [], None)
      | Some handler =>
          if RequestTracker.ackReceived handler
             || (maxRetries (_config s) <=? RequestTracker.retryCount handler)
          then (s, [], None)
          else
            let '(tm, retryTimer) := Timers.setTimeout (timers s) in
            let '(tr, tm, _) :=
              RequestTracker.setRetryTimer (_requestTracker s) tm envelopeId
                retryTimer in
            (with_requestTracker s (tr, tm), [], Some retryTimer)
      end
  end.

(** The closure armed as retry timer, run when the timer [timer] fires:
    the retry count goes up and the envelope is sent again, unless the
    request is gone or has used up its retries. *)
Definition retryFired (s : t) (envelope : MessageEnvelope.t) (host : string)
    (port : Z) (timer : nat) : t * list Event :=
  let s := with_requestTracker s (_requestTracker s, Timers.fire (timers s) timer) in
  match RequestTracker.get (_requestTracker s) (MessageEnvelope.id envelope) with
  | None => (s, [])
  | Some currentHandler =>
      if RequestTracker.ackReceived currentHandler
         || (maxRetries (_config s) <=? RequestTracker.retryCount currentHandler)
      then (s, [])
      else
        let '(tr, newRetryCount) :=
          RequestTracker.incrementRetry (_requestTracker s)
            (MessageEnvelope.id envelope) in
        (with_requestTracker s (tr, timers s),
         [Log LogWarn
            ("↻ Retry " +:+ MessageEnvelope.id envelope +:+ " ("
               +:+ Js.BigInt_toString newRetryCount +:+ "/"
               +:+ Js.BigInt_toString (maxRetries (_config s)) +:+ ")");
          Send (serialize_retry envelope newRetryCount) port host])
  end.

(** What [emitMessage] makes of the messages handed to it; it is the last
    statement of the handlers that call it, so the exception it throws
    ends their run. *)
Definition emitted (events : list Event) : list Step * option string :=
  fold_right
    (fun e rest =>
       match e with
       | Emit data rinfo =>
           match UdpSocket.emitMessage data rinfo with
           | UdpSocket.Data message info =>
               (Engine e :: Data message info :: fst rest, snd rest)
           | UdpSocket.InvalidJSONFormat _ =>
               ([Engine e], Some "InvalidJSONFormatException")
           end
       | _ => (Engine e :: fst rest, snd rest)
       end)
    ([], None) events.

Section Incoming.
(** The closures registered with the tracker are run by it; [run] is what
    the tracker sees of a run. *)
Context (run : SendCallback -> Js.Value -> RequestTracker.View
               -> RequestTracker.Outcome).

(** What a caller of [invokeAndRemove] sees of its result: the exception,
    if it threw. *)
Definition escaped (result : option bool) : option string :=
  match result with
  | Some _ => None
  | None => Some "TypeError"
  end.

Definition _handleAcknowledgement (s : t) (ack : MessageEnvelope.t)
    : t * list Step * option string :=
  let '(tr, tm, events, result) :=
    RequestTracker.invokeAndRemove run (_requestTracker s) (timers s)
      (MessageEnvelope.id ack) Js.JsNull in
  (with_requestTracker s (tr, tm), Tracker <$> events, escaped result).

Definition _handleResponse (s : t) (res : MessageEnvelope.t)
    : t * list Step * option string :=
  let verdict :=
    if enableChecksum (_config s) && string_truthy (MessageEnvelope.checksum res)
    then
      match _calculateChecksum (MessageEnvelope.body res) with
      | None => Some (Some "TypeError")
      | Some calculated =>
          if bool_decide (Some calculated = MessageEnvelope.checksum res)
          then None
          else Some None
      end
    else None in
  match verdict with
  | Some (Some error) => (s, [], Some error)
  | Some None =>
      (s,
       [Engine (Log LogError
                  ("Checksum failure for RES " +:+ MessageEnvelope.id res))],
       None)
  | None =>
      let '(tr, tm, events, result) :=
        RequestTracker.invokeAndRemove run (_requestTracker s) (timers s)
          (MessageEnvelope.id res) (MessageEnvelope.body res) in
      (with_requestTracker s (tr, tm), Tracker <$> events, escaped result)
  end.

(** [_processIncomingMessage] from the envelope [parse] returned on: the
    switch on the message type. *)
Definition dispatch (s : t) (now : Z) (dataString : string)
    (envelope : MessageEnvelope.t) (rinfo : RemoteInfo.t)
    : t * list Step * option string :=
  let flags := MessageEnvelopeHandler.decodeFlags (MessageEnvelope.flags envelope) in
  let messageType :=
    match flags with
    | Some f => Some (DecodedFlags.type f)
    | None => MessageEnvelope.type envelope
    end in
  match messageType with
  | Some 0 =>
      let '(s, events, error) := _handleRequest s now envelope rinfo in
      let '(steps, thrown) := emitted events in
      (s, steps, match thrown with Some e => Some e | None => error end)
  | Some 1 => _handleAcknowledgement s envelope
  | Some 2 => _handleResponse s envelope
  | _ =>
      let '(steps, thrown) := emitted [Emit (Some dataString) rinfo] in
      (s, steps, thrown)
  end.

Definition _processIncomingMessage (s : t) (now : Z) (dataString : string)
    (rinfo : RemoteInfo.t) : Processed :=
  match MessageEnvelopeHandler.parse dataString with
  | None =>
      let '(steps, thrown) := emitted [Emit (Some dataString) rinfo] in
      Ran s steps thrown
  | Some parsed =>
      match MessageEnvelopeHandler.typed parsed with
      | None => IllTyped
      | Some envelope =>
          let '(s, steps, error) := dispatch s now dataString envelope rinfo in
          Ran s steps error
      end
  end.

(** [handleData]: a rejection is logged; the socket is not closed and no
    event [error] is emitted. *)
Definition handleData (s : t) (now : Z) (data : string) (rinfo : RemoteInfo.t)
    : option (t * list Step) :=
  match _processIncomingMessage s now data rinfo with
  | IllTyped => None
  | Ran s steps error =>
      Some (s,
            steps
              ++ match error with
                 | Some e =>
                     [Engine (Log LogError ("Error processing message: " +:+ e))]
                 | None => []
                 end)
  end.

End Incoming.

End Engine.

End ReliableUdpSocket.

(** ** Concrete built-ins and a concrete codec, to run the model

    [Node.builtins] gives the abstract built-ins on the inputs the
    examples use: [JSON.stringify] on values without lone surrogates,
    [JSON.parse] on a literal ([null], a boolean, an integer, a string
    without escapes), [Buffer.from] on base64 text, on an array of
    numbers and on the JSON form of a buffer.  The theorems below hold
    for every instance; the examples are evaluated on this one. *)

Module Node.

Definition quote : string := String "034"%char EmptyString.
Definition backslash : ascii := "092"%char.

Definition join (separator : string) (l : list string) : string :=
  match l with
  | [] => EmptyString
  | x :: rest => fold_left (fun acc y => acc +:+ separator +:+ y) rest x
  end.

Definition escape_char (c : ascii) : string :=
  if Ascii.eqb c "034"%char then String backslash quote
  else if Ascii.eqb c backslash then String backslash (String backslash EmptyString)
  else if Ascii.eqb c "010"%char then String backslash "n"
  else if Ascii.eqb c "013"%char then String backslash "r"
  else if Ascii.eqb c "009"%char then String backslash "t"
  else if Ascii.eqb c "008"%char then String backslash "b"
  else if Ascii.eqb c "012"%char then String backslash "f"
  else if (nat_of_ascii c <? 32)%nat then
    String backslash "u00"
      +:+ String (Sha256.hex_digit (Z.of_nat (nat_of_ascii c) / 16))
            (String (Sha256.hex_digit (Z.of_nat (nat_of_ascii c) mod 16)) EmptyString)
  else String c EmptyString.

Fixpoint escape (s : string) : string :=
  match s with
  | EmptyString => EmptyString
  | String c rest => escape_char c +:+ escape rest
  end.

Fixpoint stringify (v : Js.Value) : string :=
  match v with
  | Js.JsUndefined | Js.JsNull => "null"
  | Js.JsBoolean b => if b then "true" else "false"
  | Js.JsNumber n => Js.BigInt_toString n
  | Js.JsString s => quote +:+ escape s +:+ quote
  | Js.JsArray items => "[" +:+ join "," (List.map stringify items) +:+ "]"
  | Js.JsObject fields =>
      let fix properties (l : list (string * Js.Value)) : list string :=
        match l with
        | [] => []
        | (_, Js.JsUndefined) :: rest => properties rest
        | (k, x) :: rest =>
            (quote +:+ escape k +:+ quote +:+ ":" +:+ stringify x)
              :: properties rest
        end in
      "{" +:+ join "," (properties fields) +:+ "}"
  end.

Fixpoint plain (s : string) : bool :=
  match s with
  | EmptyString => true
  | String c rest =>
      negb (Ascii.eqb c "034"%char) && negb (Ascii.eqb c backslash)
        && (32 <=? nat_of_ascii c)%nat && plain rest
  end.

Definition parse (s : string) : option Js.Value :=
  if String.eqb s "null" then Some Js.JsNull
  else if String.eqb s "true" then Some (Js.JsBoolean true)
  else if String.eqb s "false" then Some (Js.JsBoolean false)
  else
    match s with
    | EmptyString => None
    | String c rest =>
        if Ascii.eqb c "034"%char then
          let inner := String.substring 0 (String.length rest - 1) rest in
          if String.eqb rest (inner +:+ quote) && plain inner
          then Some (Js.JsString inner) else None
        else
          match Js.BigInt_of_string s with
          | Some n =>
              if String.eqb (Js.BigInt_toString n) s
              then Some (Js.JsNumber n) else None
          | None => None
          end
    end.

Definition sextet (c : ascii) : option N :=
  if Ascii.eqb c "-"%char then Some 62%N
  else if Ascii.eqb c "_"%char then Some 63%N
  else
    match String.index 0 (String c EmptyString) Js.base64_alphabet with
    | Some i => Some (N.of_nat i)
    | None => None
    end.

Fixpoint sextets (s : string) : list N :=
  match s with
  | EmptyString => []
  | String c rest =>
      if Ascii.eqb c "="%char then []
      else
        match sextet c with
        | Some v => v :: sextets rest
        | None => sextets rest
        end
  end.

Definition octet (n : N) : byte := default x00 (Byte.of_N (n mod 256)%N).

Fixpoint octets (l : list N) : list byte :=
  match l with
  | a :: b :: c :: d :: rest =>
      octet (a * 4 + b / 16) :: octet (b * 16 + c / 4) :: octet (c * 64 + d)
        :: octets rest
  | [a; b; c] => [octet (a * 4 + b / 16); octet (b * 16 + c / 4)]
  | [a; b] => [octet (a * 4 + b / 16)]
  | _ => []
  end%N.

Definition base64_decode (s : string) : list byte := octets (sextets s).

Definition byte_of_value (v : Js.Value) : byte :=
  match v with
  | Js.JsNumber n => octet (Z.to_N (n mod 256))
  | Js.JsBoolean true => x01
  | _ => x00
  end.

Definition field (k : string) (fields : list (string * Js.Value))
    : option Js.Value :=
  snd <$> List.find (fun kv => String.eqb (fst kv) k) (rev fields).

Definition Buffer_from_object (v : Js.Value) : option (list byte) :=
  match v with
  | Js.JsArray items => Some (List.map byte_of_value items)
  | Js.JsObject fields =>
      match field "type" fields, field "data" fields with
      | Some (Js.JsString "Buffer"), Some (Js.JsArray items) =>
          Some (List.map byte_of_value items)
      | _, _ => None
      end
  | _ => None
  end.

Definition builtins : Js.Builtins :=
  {| Js.JSON_stringify_defined := stringify;
     Js.JSON_parse := parse;
     Js.base64_decode := base64_decode;
     Js.Buffer_from_object := Buffer_from_object |}.

End Node.

(** A run-length codec standing for a compression package: a run of up
    to 255 equal bytes becomes its length and the byte. *)
Module RunLength.

Fixpoint encode_run (count : N) (b : byte) (l : list byte) : list byte :=
  match l with
  | [] => [Node.octet count; b]
  | c :: rest =>
      if Byte.eqb c b && (count <? 255)%N then encode_run (count + 1)%N b rest
      else Node.octet count :: b :: encode_run 1%N c rest
  end.

Definition encode (l : list byte) : list byte :=
  match l with
  | [] => []
  | b :: rest => encode_run 1%N b rest
  end.

Fixpoint decode (l : list byte) : list byte :=
  match l with
  | n :: b :: rest => repeat b (N.to_nat (Byte.to_N n)) ++ decode rest
  | _ => []
  end.

Definition package : Libraries.Package :=
  {| Libraries.pkg_compress := fun _ buffer => Some (encode buffer);
     Libraries.pkg_decompress := fun buffer => Some (decode buffer) |}.

(** The platform with this codec in the place of [zlib] and no optional
    package installed. *)
Definition libraries : Libraries.t :=
  {| Libraries.zlib := package;
     Libraries.snappy := None;
     Libraries.lz4 := None;
     Libraries.zstd := None |}.

End RunLength.

(** * The vocabulary of the properties *)

(** The predicates and the derived values the statements below are written
    with. *)

Section SlotsTerms.
Import ChunkingHandler.

(** An assembly has as many slots as its total. *)
Definition sized (a : ChunkedMessageAssembly) : Prop :=
  Z.of_nat (length (chunks a)) = totalChunks a.

End SlotsTerms.

Section ReassemblerTerms.
Import ChunkingHandler.

#[global] Instance not_null_dec (v : Js.Value) : Decision (v <> Js.JsNull).
Proof.
  destruct v; try (left; discriminate).
  right. intros Hn. apply Hn. reflexivity.
Defined.

(** The number of slots that do not read as [null]. *)
Definition filled (a : ChunkedMessageAssembly) : nat :=
  length (filter (fun v => v <> Js.JsNull) (chunks a)).

(** [receivedCount] counts the slots that are filled. *)
Definition counted (a : ChunkedMessageAssembly) : Prop :=
  receivedCount a = Z.of_nat (filled a).

(** A sequence of calls of [addChunk] for one message, each an index and
    the chunk data. *)
Definition addChunks (h : t) (messageId : string) (calls : list (Z * Js.Value))
    : t :=
  fold_left (fun h call => fst (addChunk h messageId (fst call) (snd call)))
            calls h.

End ReassemblerTerms.

Section CompressionTerms.

(** The reduction percentage as the rational number the formula denotes. *)
Definition exact_reduction (originalSize compressedSize : Z) : Q :=
  ((1 - inject_Z compressedSize / inject_Z originalSize) * 100)%Q.

End CompressionTerms.

Section TrackerTerms.
Import RequestTracker.
Context {C : Type}.

(** A handler with its retry timer cleared. *)
Definition without_retryTimer (h : ResponseHandler C) : ResponseHandler C :=
  {| callback := callback h; ackReceived := ackReceived h;
     retryCount := retryCount h; timestamp := timestamp h;
     timeoutId := timeoutId h; retryTimer := None |}.

(** The timers a handler holds. *)
Definition timers_of (h : ResponseHandler C) : gset nat :=
  (match retryTimer h with Some timer => {[timer]} | None => ∅ end)
  ∪ (match timeoutId h with Some timer => {[timer]} | None => ∅ end).

End TrackerTerms.

Section ReceiveTerms.
Import ReliableUdpSocket.
Context `{Js.Builtins}.

(** Checksums are enabled and the request carries a non-empty checksum
    that is not the SHA-256 recomputed over its body. *)
Definition checksum_mismatch (s : t) (req : MessageEnvelope.t) : Prop :=
  enableChecksum (_config s) = true
  /\ exists c,
       MessageEnvelope.checksum req = Some c
       /\ c <> EmptyString
       /\ _calculateChecksum (MessageEnvelope.body req) <> Some c.

(** The acknowledgement of a request: the datagram of an ACK envelope
    with the id of the request, sent to where the request came from. *)
Definition acknowledgement (req : MessageEnvelope.t) (rinfo : RemoteInfo.t)
    : Event :=
  Send (MessageEnvelopeHandler.serialize
          (MessageEnvelopeHandler.createEnvelope (MessageEnvelope.id req)
             ACK Js.JsNull MessageEnvelopOptions.empty))
       (RemoteInfo.port rinfo) (RemoteInfo.address rinfo).

Definition is_log (e : Event) : Prop := exists level text, e = Log level text.

End ReceiveTerms.

Section ChunksTerms.
Import ChunkingHandler.

(** [n] is the ceiling of [a / b]. *)
Definition ceiling (a b n : Z) : Prop := (n - 1) * b < a <= n * b.

End ChunksTerms.

Section SendTerms.
Import ReliableUdpSocket.
Context `{Js.Builtins}.

(** The datagram of an envelope on its way to [host]. *)
Definition datagram (host : string) (port : Z) (e : MessageEnvelope.t) : Event :=
  Send (MessageEnvelopeHandler.serialize e) port host.

(** The envelopes of the chunks of a message, from index [i] on. *)
Definition chunkEnvelopes (config : SocketConfig) (messageId : string)
    (compressionResult : option CompressionResult.t) (total i : nat)
    (chunks : list string) : list MessageEnvelope.t :=
  imap (fun j chunk =>
          chunkEnvelope config messageId compressionResult total (i + j) chunk)
       chunks.

(** The chunked flag read from the flags of an envelope. *)
Definition isChunked_of (e : MessageEnvelope.t) : option bool :=
  DecodedFlags.isChunked
    <$> MessageEnvelopeHandler.decodeFlags (MessageEnvelope.flags e).

End SendTerms.

Section SnowflakeTerms.
Import SnowflakeIdGenerator.

(** [n] calls of [generate] in a row, none of which throws: the
    identifiers in the order they are returned. *)
Fixpoint generateMany (g : t) (clock : list Z) (n : nat)
    : option (list string * t * list Z) :=
  match n with
  | O => Some ([], g, clock)
  | S n =>
      match generate g clock with
      | Id id g clock =>
          match generateMany g clock n with
          | Some (ids, g, clock) => Some (id :: ids, g, clock)
          | None => None
          end
      | _ => None
      end
  end.

(** The packed value of the state of a generator: the identifier it
    returned last. *)
Definition lastId (g : t) : Z := compose g (_lastTimestamp g) (_sequence g).

End SnowflakeTerms.

Section ArrivalTerms.
Import ChunkingHandler.

(** The slots of the assembly of a message cut in the chunks [texts], when
    the chunks at the indices in [seen] have arrived. *)
Definition slots (seen : gset nat) (texts : list string) : list Js.Value :=
  imap (fun j text => if decide (j ∈ seen) then Js.JsString text else Js.JsNull)
       texts.

(** A call of [addChunk] that brings one of the chunks [texts], at its
    index. *)
Definition arrival (texts : list string) (call : Z * Js.Value) : Prop :=
  exists (i : nat) (text : string),
    texts !! i = Some text /\ call = (Z.of_nat i, Js.JsString text).

(** The indices a sequence of calls of [addChunk] names. *)
Definition arrived (calls : list (Z * Js.Value)) : gset nat :=
  list_to_set ((fun call => Z.to_nat (fst call)) <$> calls).

End ArrivalTerms.

Section CodecTerms.
Import CompressionHandler.

(** The handler [receiver] has every codec the handler [sender] holds,
    under the same name, and it undoes what the sender's codec does. *)
Definition inverts (receiver sender : t) : Prop :=
  forall name c buffer compressed,
    CompressionFactory.get (_factory sender) name = Some c ->
    CompressionCodec.compress c buffer = Some compressed ->
    exists c',
      CompressionFactory.get (_factory receiver) (CompressionCodec.name c)
      = Some c'
      /\ CompressionCodec.decompress c' compressed = Some buffer.

End CodecTerms.

Section TrackerSetTerms.
Import RequestTracker.
Context {C : Type}.

(** The timers the handlers of a map hold. *)
Definition held (m : gmap string (ResponseHandler C)) : gset nat :=
  ⋃ ((fun entry => timers_of (snd entry)) <$> map_to_list m).

(** A request registered more than [maxAge] milliseconds before [now]. *)
Definition aged (now maxAge : Z) (h : ResponseHandler C) : bool :=
  maxAge <? now - timestamp h.

(** The aged requests among the entries of a map. *)
Definition aged_entries (now maxAge : Z) (m : gmap string (ResponseHandler C))
    : list (string * ResponseHandler C) :=
  List.filter (fun entry => aged now maxAge (snd entry)) (map_to_list m).

End TrackerSetTerms.

Section IncomingTerms.
Import ReliableUdpSocket.

(** The message type read from the flags of an envelope. *)
Definition messageType (e : MessageEnvelope.t) : option Z :=
  DecodedFlags.type
    <$> MessageEnvelopeHandler.decodeFlags (MessageEnvelope.flags e).



End IncomingTerms.

Section RetryTerms.
Import ReliableUdpSocket.
Context `{Js.Builtins}.

(** A request left to its retries for [n] rounds: each time, the send
    completes without error and the retry timer it arms, if it arms one,
    fires.  The rounds end when no timer is armed or the timer sends
    nothing. *)
Fixpoint retryRounds (n : nat) (s : t) (envelope : MessageEnvelope.t)
    (host : string) (port : Z) : t * list Event :=
  match n with
  | O => (s, [])
  | S n =>
      match sendCompleted s (MessageEnvelope.id envelope) None with
      | (s, _, None) => (s, [])
      | (s, _, Some timer) =>
          match retryFired s envelope host port timer with
          | (s, []) => (s, [])
          | (s, events) =>
              let '(s, later) := retryRounds n s envelope host port in
              (s, events ++ later)
          end
      end
  end.

(** The datagrams among the actions of a run. *)
Definition datagrams (events : list Event) : list string :=
  omap (fun e => match e with Send d _ _ => Some d | _ => None end) events.

End RetryTerms.

Section CompletionTerms.
Import ReliableUdpSocket.

(** How the request of one chunk ends: with its acknowledgement or with
    its timeout. *)
Inductive Settlement : Type :=
| Acknowledged (i : nat)
| Expired (i : nat).

Definition index_of (x : Settlement) : nat :=
  match x with Acknowledged i | Expired i => i end.

(** The closure the tracker runs for a settlement. *)
Definition settle (total : nat) (callback : bool) (v : ChunkedSend)
    (x : Settlement) : ChunkedSend * list Event :=
  match x with
  | Acknowledged _ => chunkAcked (Z.of_nat total) callback v
  | Expired i => chunkTimedOut (Z.of_nat i) callback v
  end.

(** The closures run for a sequence of settlements, on the variables they
    share. *)
Fixpoint settleAll (total : nat) (callback : bool) (v : ChunkedSend)
    (xs : list Settlement) : ChunkedSend * list Event :=
  match xs with
  | [] => (v, [])
  | x :: xs =>
      let '(v, now) := settle total callback v x in
      let '(v, later) := settleAll total callback v xs in
      (v, now ++ later)
  end.

(** The chunk whose timeout comes first. *)
Definition first_expired (xs : list Settlement) : option nat :=
  head (omap (fun x => match x with Expired i => Some i | _ => None end) xs).

End CompletionTerms.

Section DeliveryTerms.
Import ReliableUdpSocket.
Context `{Js.Builtins}.

(** [JSON.parse] reads back the value from the text [JSON.stringify]
    writes for it. *)
Definition reads_back (v : Js.Value) : Prop :=
  Js.JSON_parse (Js.JSON_stringify_defined v) = Some v.

(** What [emitMessage] hands the application for a message. *)
Definition delivered (message : Js.Value) : Js.Value :=
  if Js.truthy message then message else Js.JsObject [].


(** The acknowledgement envelope of a request. *)
Definition ackEnvelope (id : string) : MessageEnvelope.t :=
  MessageEnvelopeHandler.createEnvelope id ACK Js.JsNull
    MessageEnvelopOptions.empty.

End DeliveryTerms.

Section ChunkedDeliveryTerms.
Import ReliableUdpSocket.
Context `{Js.Builtins}.
Context (run : SendCallback -> Js.Value -> RequestTracker.View
               -> RequestTracker.Outcome).

(** The assembly of a message cut in the chunks [texts], begun at [now],
    when the chunks at the indices in [seen] have arrived. *)
Definition assemblyOf (texts : list string) (now : Z)
    (remote : option RemoteInfo.t) (codec : option CompressionCodecType)
    (seen : gset nat) : ChunkingHandler.ChunkedMessageAssembly :=
  {| ChunkingHandler.chunks := slots seen texts;
     ChunkingHandler.totalChunks := Z.of_nat (length texts);
     ChunkingHandler.receivedCount := Z.of_nat (size seen);
     ChunkingHandler.acksReceived := [];
     ChunkingHandler.timestamp := now;
     ChunkingHandler.remoteInfo := remote;
     ChunkingHandler.compressionCodec := codec |}.

(** The socket [r] with the assembly [a] under way for [messageId]. *)
Definition assembling (r : t) (messageId : string)
    (a : ChunkingHandler.ChunkedMessageAssembly) : t :=
  with_chunkingHandler r
    {| ChunkingHandler._config := ChunkingHandler._config (_chunkingHandler r);
       ChunkingHandler._assemblies :=
         <[messageId := a]> (ChunkingHandler._assemblies (_chunkingHandler r)) |}.

(** The receiver [r0] while the chunks of a message at the indices in
    [seen] have arrived; [pieces] are the slices of the message. *)
Definition underway (r0 : t) (messageId : string)
    (cr : option CompressionResult.t) (pieces : list (list byte)) (now : Z)
    (rinfo : RemoteInfo.t) (seen : gset nat) : t :=
  if decide (seen = ∅) then r0
  else
    assembling r0 messageId
      (assemblyOf (Js.base64_encode <$> pieces) now (Some rinfo)
         (Some (codec_of cr)) seen).

(** The datagrams of a list handled one after the other, all read at
    [now] and from the same source. *)
Fixpoint receiveAll (r : t) (now : Z) (datagrams : list string)
    (rinfo : RemoteInfo.t) : option (t * list Step) :=
  match datagrams with
  | [] => Some (r, [])
  | d :: rest =>
      match handleData run r now d rinfo with
      | Some (r, steps) =>
          match receiveAll r now rest rinfo with
          | Some (r, later) => Some (r, steps ++ later)
          | None => None
          end
      | None => None
      end
  end.

(** What the receiver does on the chunks at the indices [order], as long
    as the message is not complete: each is acknowledged and stored, the
    assembly is begun on the first. *)
Fixpoint arrivalSteps (messageId : string) (total : nat) (rinfo : RemoteInfo.t)
    (first : bool) (order : list nat) : list Step :=
  match order with
  | [] => []
  | i :: rest =>
      [Engine (Send (MessageEnvelopeHandler.serialize
                       (ackEnvelope (chunkId messageId i)))
                    (RemoteInfo.port rinfo) (RemoteInfo.address rinfo))]
        ++ (if first then [Engine (InitAssembly messageId (Z.of_nat total))]
            else [])
        ++ [Engine (AddChunk messageId (Z.of_nat i))]
        ++ arrivalSteps messageId total rinfo false rest
  end.

(** The items of a list at the indices [order]. *)
Definition pick {A : Type} (l : list A) (order : list nat) : list A :=
  omap (fun i => l !! i) order.

End ChunkedDeliveryTerms.

(** * Values to run the model on *)

(** The handlers, sockets, requests and messages of the examples. *)

Section ReassemblerValues.
Import ChunkingHandler.

(** A three-slot assembly with its first chunk stored. *)
Definition three_slots : t :=
  let h := default (new None None)
             (initAssembly (new None None) 0 "msg-123" 3 None None) in
  fst (addChunk h "msg-123" 0 (Js.JsString "Y2h1bmstMA==")).

Definition three_slots_assembly : ChunkedMessageAssembly :=
  {| chunks := [Js.JsString "Y2h1bmstMA=="; Js.JsNull; Js.JsNull];
     totalChunks := 3; receivedCount := 1; acksReceived := [];
     timestamp := 0; remoteInfo := None; compressionCodec := None |}.

End ReassemblerValues.

Section ReassemblyValues.
Import ChunkingHandler.
#[local] Existing Instance Node.builtins.

(** A one-slot assembly whose chunk is the number 5, as a chunk envelope
    with [body: 5] leaves it. *)
Definition number_slot : t :=
  let h := default (new None None)
             (initAssembly (new None None) 0 "msg-123" 1 None None) in
  fst (addChunk h "msg-123" 0 (Js.JsNumber 5)).

End ReassemblyValues.

Section SnowflakeValues.
Import SnowflakeIdGenerator.

Definition worker42 : t :=
  {| _config := {| workerId := 42; epoch := Constants.SNOWFLAKE_DEFAULT_EPOCH |};
     _sequence := 0; _lastTimestamp := -1 |}.

End SnowflakeValues.

Section CompressionValues.
Import CompressionHandler.

(** The default thresholds, compression enabled with gzip. *)
Definition gzip_config : CompressionHandlerConfig :=
  {| enabled := true; codec := GZIP;
     level := Constants.DEFAULT_COMPRESSION_LEVEL;
     minSize := Constants.DEFAULT_COMPRESSION_MIN_SIZE;
     minReduction := Constants.DEFAULT_COMPRESSION_MIN_REDUCTION |}.

Definition gzip_handler : t :=
  default {| _config := gzip_config; _factory := ∅ |}
    (new RunLength.libraries gzip_config).

(** A payload of 1000 bytes in 450 runs, which the codec at hand
    compresses to 900 bytes. *)
Definition payload_1000 : string :=
  string_of_list_byte
    (concat (map (fun i : nat =>
                    if Nat.even i then ["a"%byte; "a"%byte]
                    else ["b"%byte; "b"%byte])
                 (seq 0 449))
     ++ repeat "x"%byte 102).

End CompressionValues.

Section TrackerValues.
Import RequestTracker.


(** A callback that throws [null]. *)
Definition throws_null (_ : string) (_ : Js.Value) (_ : View) : Outcome :=
  ThrewNullish.

(** A tracker with one request, its timeout timer and a retry timer. *)
Definition one_request : t string * Timers.t :=
  let '(tr, tm) :=
    register (new None) {| Timers.next := 0; Timers.armed := ∅ |} 0
      "msg-123" "msg-123" in
  let '(tm, retry) := Timers.setTimeout tm in
  fst (setRetryTimer tr tm "msg-123" retry).

Definition one_request_handler : ResponseHandler string :=
  {| timeoutId := Some 0%nat; callback := "msg-123"; ackReceived := false;
     retryCount := 0; retryTimer := Some 1%nat; timestamp := 0 |}.

End TrackerValues.

Section ReceiveValues.
Import ReliableUdpSocket.
#[local] Existing Instance Node.builtins.

(** The socket as its constructor leaves it. *)
Definition default_socket : t :=
  default
    {| _config := {| maxMessageSize := 0; maxRetries := 0; retryInterval := 0;
                     enableChecksum := false |};
       _idGenerator :=
         {| SnowflakeIdGenerator._config :=
              {| SnowflakeIdGenerator.workerId := 0;
                 SnowflakeIdGenerator.epoch := 0 |};
            SnowflakeIdGenerator._sequence := 0;
            SnowflakeIdGenerator._lastTimestamp := -1 |};
       _compressionHandler :=
         {| CompressionHandler._config := gzip_config;
            CompressionHandler._factory := ∅ |};
       _chunkingHandler := ChunkingHandler.new None None;
       _requestTracker := RequestTracker.new None;
       timers := {| Timers.next := 0; Timers.armed := ∅ |} |}
    (new RunLength.libraries).

Definition localhost : RemoteInfo.t :=
  {| RemoteInfo.address := "127.0.0.1"; RemoteInfo.family := "IPv4";
     RemoteInfo.port := 41234; RemoteInfo.size := 64 |}.

(** A single request with the body ["hi"] and the checksum given. *)
Definition request (checksum : option string) : MessageEnvelope.t :=
  {| MessageEnvelope.id := "req-1";
     MessageEnvelope.body := Js.JsString "hi";
     MessageEnvelope.checksum := checksum;
     MessageEnvelope.flags := Some 0;
     MessageEnvelope.type := None;
     MessageEnvelope.ci := None; MessageEnvelope.ct := None;
     MessageEnvelope.os := None; MessageEnvelope.cs := None |}.

(** The chunk at index [i] of 2 of the message ["hello world"], cut at 6
    bytes: ["hello "] and ["world"]. *)
Definition chunk_request (i : Z) (data : string) : MessageEnvelope.t :=
  {| MessageEnvelope.id := "77-chunk-" +:+ Js.BigInt_toString i;
     MessageEnvelope.body := Js.JsString data;
     MessageEnvelope.checksum := None;
     MessageEnvelope.flags := Some 16;
     MessageEnvelope.type := None;
     MessageEnvelope.ci := Some i; MessageEnvelope.ct := Some 2;
     MessageEnvelope.os := None; MessageEnvelope.cs := None |}.

End ReceiveValues.

Section SendValues.
Import ReliableUdpSocket.
#[local] Existing Instance Node.builtins.

Definition at_noon : Z := 1793664000000.

(** The generator of [default_socket] after its first identifier. *)
Definition after_first_id : SnowflakeIdGenerator.t :=
  {| SnowflakeIdGenerator._config :=
       SnowflakeIdGenerator._config (_idGenerator default_socket);
     SnowflakeIdGenerator._sequence := 0;
     SnowflakeIdGenerator._lastTimestamp := at_noon |}.

Definition hello : Js.Value := Js.JsString "hello".

(** A message of [maxMessageSize + 1] bytes. *)
Definition one_byte_over : Js.Value :=
  Js.JsString (string_of_list_byte (repeat "x"%byte 1401)).

(** The socket with compression enabled (gzip, the default thresholds). *)
Definition gzip_socket : t :=
  default default_socket
    (configure_compression RunLength.libraries default_socket gzip_config).

(** A message of 4000 bytes in 1500 runs: its JSON text compresses to
    3004 bytes, whose base64 text is over [maxMessageSize]. *)
Definition runs_4000 : Js.Value :=
  Js.JsString
    (string_of_list_byte
       (concat (repeat ["a"%byte; "a"%byte; "b"%byte; "b"%byte] 500)
        ++ concat (repeat (repeat "c"%byte 4 ++ repeat "d"%byte 4) 250))).

Definition runs_4000_compressed : CompressionResult.t :=
  default
    {| CompressionResult.data := EmptyString; CompressionResult.codec := NONE;
       CompressionResult.originalSize := 0; CompressionResult.compressedSize := 0 |}
    (CompressionHandler.tryCompress (_compressionHandler gzip_socket)
       (Node.stringify runs_4000)).

Definition runs_4000_chunks : list string :=
  default []
    (ChunkingHandler.createChunks (_chunkingHandler gzip_socket)
       (ChunkingHandler.OfString (CompressionResult.data runs_4000_compressed))).

Definition five_readings : list Z := repeat at_noon 5.

End SendValues.

Section ArrivalValues.
Import ChunkingHandler.

(** A handler that cuts at 10 bytes, a message of 22 bytes, its three
    chunks, and their arrival out of order, one of them twice. *)
Definition cut_at_10 : t := new (Some 10) None.

Definition test_message : string := "This is a test message".

Definition test_message_chunks : list string :=
  default [] (createChunks cut_at_10 (OfString test_message)).

Definition out_of_order : list (Z * Js.Value) :=
  [(Z.of_nat 2, Js.JsString "Z2U=");
   (Z.of_nat 0, Js.JsString "VGhpcyBpcyBhIA==");
   (Z.of_nat 2, Js.JsString "Z2U=");
   (Z.of_nat 1, Js.JsString "dGVzdCBtZXNzYQ==")].

Definition test_message_assembly : t :=
  default cut_at_10 (initAssembly cut_at_10 0 "msg-123" 3 None (Some GZIP)).

End ArrivalValues.

Section CodecValues.
Import CompressionHandler.
#[local] Existing Instance Node.builtins.

(** The JSON text of a string of 300 letters, and what the handler at hand
    compresses it to. *)
Definition letters_300 : Js.Value :=
  Js.JsString (string_of_list_byte (repeat "x"%byte 300)).

Definition letters_300_compressed : CompressionResult.t :=
  default
    {| CompressionResult.data := EmptyString; CompressionResult.codec := NONE;
       CompressionResult.originalSize := 0; CompressionResult.compressedSize := 0 |}
    (tryCompress gzip_handler (Node.stringify letters_300)).

End CodecValues.

Section IncomingValues.
Import ReliableUdpSocket.
#[local] Existing Instance Node.builtins.

(** Closures of the sender that return. *)
Definition returns (_ : SendCallback) (_ : Js.Value) (_ : RequestTracker.View)
    : RequestTracker.Outcome :=
  RequestTracker.Returned.

(** The socket with checksums on after it has sent [hello], and the id it
    gave the message. *)
Definition hello_sent : t :=
  match _sendMessageAsync default_socket [at_noon; at_noon] hello
          "127.0.0.1" 41234 true with
  | Some (s, _, _, _) => s
  | None => default_socket
  end.

Definition hello_id : string := "375796216627200000".

(** The acknowledgement of that message, and a response to it. *)
Definition hello_ack : MessageEnvelope.t :=
  MessageEnvelopeHandler.createEnvelope hello_id ACK Js.JsNull
    MessageEnvelopOptions.empty.


End IncomingValues.

Section RetryValues.
Import ReliableUdpSocket.
#[local] Existing Instance Node.builtins.

(** The envelope of [hello] as the default socket sends it. *)
Definition hello_envelope : MessageEnvelope.t :=
  singleEnvelope hello_id hello
    (Some "2cf24dba5fb0a30e26e83b2ac5b9e29e1b161e5c1fa7425e73043362938b9824")
    None.

End RetryValues.

(** A reader of JSON texts standing for [JSON.parse] on the texts
    [Node.stringify] writes: literals, integers, strings with the short
    escapes, arrays and objects, without blanks.  [fuel] bounds the number
    of nested calls. *)
Module JsonText.

Definition is_digit (c : ascii) : bool :=
  (48 <=? nat_of_ascii c)%nat && (nat_of_ascii c <=? 57)%nat.

Definition unescape (c : ascii) : option ascii :=
  if Ascii.eqb c "034"%char then Some "034"%char
  else if Ascii.eqb c Node.backslash then Some Node.backslash
  else if Ascii.eqb c "/"%char then Some "/"%char
  else if Ascii.eqb c "n"%char then Some "010"%char
  else if Ascii.eqb c "r"%char then Some "013"%char
  else if Ascii.eqb c "t"%char then Some "009"%char
  else if Ascii.eqb c "b"%char then Some "008"%char
  else if Ascii.eqb c "f"%char then Some "012"%char
  else None.

(** The characters of a string, after its opening quote, and the text
    after its closing quote. *)
Fixpoint read_string (s : string) : option (string * string) :=
  match s with
  | EmptyString => None
  | String c rest =>
      if Ascii.eqb c "034"%char then Some (EmptyString, rest)
      else if Ascii.eqb c Node.backslash then
        match rest with
        | EmptyString => None
        | String e rest =>
            match unescape e, read_string rest with
            | Some c, Some (text, rest) => Some (String c text, rest)
            | _, _ => None
            end
        end
      else if (nat_of_ascii c <? 32)%nat then None
      else
        match read_string rest with
        | Some (text, rest) => Some (String c text, rest)
        | None => None
        end
  end.

Fixpoint read_digits (s : string) : string * string :=
  match s with
  | EmptyString => (EmptyString, EmptyString)
  | String c rest =>
      if is_digit c then
        let '(digits, rest) := read_digits rest in (String c digits, rest)
      else (EmptyString, s)
  end.

Definition read_number (s : string) : option (Js.Value * string) :=
  let '(sign, s) :=
    match s with
    | String "-" rest => ("-", rest)
    | _ => (EmptyString, s)
    end in
  match read_digits s with
  | (EmptyString, _) => None
  | (digits, rest) =>
      match Js.BigInt_of_string (sign +:+ digits) with
      | Some n =>
          if String.eqb (Js.BigInt_toString n) (sign +:+ digits)
          then Some (Js.JsNumber n, rest) else None
      | None => None
      end
  end.

Definition after (word s : string) : option string :=
  if String.prefix word s
  then Some (String.substring (String.length word)
               (String.length s - String.length word) s)
  else None.

Fixpoint read_value (fuel : nat) (s : string) {struct fuel}
    : option (Js.Value * string) :=
  match fuel with
  | O => None
  | S fuel =>
      match s with
      | String "034" rest =>
          match read_string rest with
          | Some (text, rest) => Some (Js.JsString text, rest)
          | None => None
          end
      | String "[" (String "]" rest) => Some (Js.JsArray [], rest)
      | String "[" rest =>
          match read_items fuel rest with
          | Some (items, rest) => Some (Js.JsArray items, rest)
          | None => None
          end
      | String "{" (String "}" rest) => Some (Js.JsObject [], rest)
      | String "{" rest =>
          match read_fields fuel rest with
          | Some (fields, rest) => Some (Js.JsObject fields, rest)
          | None => None
          end
      | _ =>
          match after "null" s, after "true" s, after "false" s with
          | Some rest, _, _ => Some (Js.JsNull, rest)
          | _, Some rest, _ => Some (Js.JsBoolean true, rest)
          | _, _, Some rest => Some (Js.JsBoolean false, rest)
          | _, _, _ => read_number s
          end
      end
  end
with read_items (fuel : nat) (s : string) {struct fuel}
    : option (list Js.Value * string) :=
  match fuel with
  | O => None
  | S fuel =>
      match read_value fuel s with
      | Some (v, String "," rest) =>
          match read_items fuel rest with
          | Some (items, rest) => Some (v :: items, rest)
          | None => None
          end
      | Some (v, String "]" rest) => Some ([v], rest)
      | _ => None
      end
  end
with read_fields (fuel : nat) (s : string) {struct fuel}
    : option (list (string * Js.Value) * string) :=
  match fuel with
  | O => None
  | S fuel =>
      match s with
      | String "034" rest =>
          match read_string rest with
          | Some (k, String ":" rest) =>
              match read_value fuel rest with
              | Some (v, String "," rest) =>
                  match read_fields fuel rest with
                  | Some (fields, rest) => Some ((k, v) :: fields, rest)
                  | None => None
                  end
              | Some (v, String "}" rest) => Some ([(k, v)], rest)
              | _ => None
              end
          | _ => None
          end
      | _ => None
      end
  end.

Definition parse (s : string) : option Js.Value :=
  match read_value (2 * String.length s + 2) s with
  | Some (v, EmptyString) => Some v
  | _ => None
  end.

(** [Node.builtins] with this reader as [JSON.parse]. *)
Definition builtins : Js.Builtins :=
  {| Js.JSON_stringify_defined := Node.stringify;
     Js.JSON_parse := parse;
     Js.base64_decode := Node.base64_decode;
     Js.Buffer_from_object := Node.Buffer_from_object |}.

End JsonText.

(** * Properties *)

#[local] Set Warnings "-clear-no-such-hyp".

(** Closed comparisons and equations between numbers, by evaluation. *)
Ltac evaluate :=
  vm_compute; repeat split; solve [discriminate | reflexivity].

(** ** The flag byte *)

Section FlagByte.
Import MessageEnvelopeHandler.

(** Every two-bit type, every codec and both booleans are read back from
    the byte [encodeFlags] packs them in. *)
Lemma decodeFlags_encodeFlags (type : Z) (c : CompressionCodecType)
    (compressed chunked : bool) :
  0 <= type <= 3 ->
  decodeFlags (Some (encodeFlags type (CodecEnum c) compressed chunked))
  = Some {| DecodedFlags.type := type; DecodedFlags.codec := c;
            DecodedFlags.isCompressed := compressed;
            DecodedFlags.isChunked := chunked |}.
Proof.
  intros Htype.
  assert (Hcases : type = 0 \/ type = 1 \/ type = 2 \/ type = 3) by lia.
  destruct Hcases as [-> | [-> | [-> | ->]]];
    destruct c, compressed, chunked; reflexivity.
Qed.

(** The three low bits of the byte are the number of the codec. *)
Lemma encodeFlags_codec_bits (t : MessageType) (c : CompressionCodecType)
    (compressed chunked : bool) :
  Js.bitand (encodeFlags (MessageType_value t) (CodecEnum c) compressed chunked)
            FlagBits.CODEC_MASK
  = CompressionCodecType_value c.
Proof. destruct t, c, compressed, chunked; reflexivity. Qed.

(** A codec given by its lower-case name packs like the enum member. *)
Lemma encodeFlags_codec_name (type : Z) (compressed chunked : bool) :
  encodeFlags type (CodecName "gzip") compressed chunked
  = encodeFlags type (CodecEnum GZIP) compressed chunked.
Proof. reflexivity. Qed.

(** The examples of [reliable-udp-socket.types.ts]. *)
Example encodeFlags_req_gzip :
  encodeFlags (MessageType_value REQ) (CodecEnum GZIP) true false = 9.
Proof. reflexivity. Qed.

Example encodeFlags_ack :
  encodeFlags (MessageType_value ACK) (CodecEnum NONE) false false = 32.
Proof. reflexivity. Qed.

Example encodeFlags_req_snappy_chunked :
  encodeFlags (MessageType_value REQ) (CodecEnum SNAPPY) true true = 26.
Proof. reflexivity. Qed.

(** C2. For every message type REQ, ACK, RES, every codec NONE, GZIP,
    SNAPPY, LZ4, ZSTD and every pair of booleans, [decodeFlags] applied to
    [encodeFlags type codec compressed chunked] returns exactly
    the type, the codec and the two booleans. *)
Theorem flags_round_trip (t : MessageType) (c : CompressionCodecType)
    (compressed chunked : bool) :
  decodeFlags
    (Some (encodeFlags (MessageType_value t) (CodecEnum c) compressed chunked))
  = Some {| DecodedFlags.type := MessageType_value t;
            DecodedFlags.codec := c;
            DecodedFlags.isCompressed := compressed;
            DecodedFlags.isChunked := chunked |}.
Proof.
  apply decodeFlags_encodeFlags. destruct t; simpl; lia.
Qed.

End FlagByte.

(** ** The reassembler *)

Section Slots.
Import ChunkingHandler.

Lemma array_get_outside (l : list Js.Value) (i : Z) :
  i < 0 \/ Z.of_nat (length l) <= i -> array_get l i = Js.JsUndefined.
Proof.
  intros Hi. unfold array_get.
  destruct (i <? 0) eqn:Hneg; [reflexivity |].
  apply Z.ltb_ge in Hneg.
  rewrite lookup_ge_None_2; [reflexivity | lia].
Qed.

Lemma array_get_inside (l : list Js.Value) (i : nat) (v : Js.Value) :
  l !! i = Some v -> array_get l (Z.of_nat i) = v.
Proof.
  intros Hl. unfold array_get.
  destruct (Z.of_nat i <? 0) eqn:Hneg; [apply Z.ltb_lt in Hneg; lia |].
  rewrite Nat2Z.id, Hl. reflexivity.
Qed.

(** A call on an index whose slot does not read as [null] changes
    nothing. *)
Lemma addChunk_not_null (h : t) (messageId : string)
    (a : ChunkedMessageAssembly) (i : Z) (d : Js.Value) :
  _assemblies h !! messageId = Some a ->
  Js.is_null (array_get (chunks a) i) = false ->
  addChunk h messageId i d = (h, receivedCount a =? totalChunks a).
Proof.
  intros Ha Hslot. unfold addChunk. rewrite Ha, Hslot. reflexivity.
Qed.

(** A call on a slot that holds a value other than [null] changes
    nothing: a chunk stored once is kept. *)
Lemma addChunk_duplicate (h : t) (messageId : string)
    (a : ChunkedMessageAssembly) (i : nat) (v d : Js.Value) :
  _assemblies h !! messageId = Some a ->
  chunks a !! i = Some v -> v <> Js.JsNull ->
  addChunk h messageId (Z.of_nat i) d = (h, receivedCount a =? totalChunks a).
Proof.
  intros Ha Hv Hnull. apply addChunk_not_null; [assumption |].
  rewrite (array_get_inside _ _ _ Hv). destruct v; try reflexivity.
  contradiction.
Qed.

(** [initAssembly] makes an assembly of [totalChunks] empty slots. *)
Lemma initAssembly_lookup (h h' : t) (now : Z) (messageId : string) (total : Z)
    (remote : option RemoteInfo.t) (c : option CompressionCodecType) :
  initAssembly h now messageId total remote c = Some h' ->
  exists a, _assemblies h' !! messageId = Some a /\ sized a
            /\ receivedCount a = 0 /\ totalChunks a = total
            /\ compressionCodec a = c
            /\ Forall (fun v => v = Js.JsNull) (chunks a).
Proof.
  unfold initAssembly.
  destruct ((total <? 0) || (4294967295 <? total)) eqn:Hrange; [discriminate |].
  intros [= <-]. apply orb_false_iff in Hrange as [Hlo _].
  apply Z.ltb_ge in Hlo.
  eexists. simpl. rewrite lookup_insert_eq. split; [reflexivity |].
  unfold sized. simpl. rewrite repeat_length.
  repeat split; [lia |].
  apply Forall_forall. intros v Hv. apply list_elem_of_In in Hv.
  exact (repeat_spec _ _ _ Hv).
Qed.

(** [addChunk] keeps the number of slots. *)
Lemma addChunk_sized (h h' : t) (messageId : string) (i : Z) (d : Js.Value)
    (complete : bool) :
  map_Forall (fun _ a => sized a) (_assemblies h) ->
  addChunk h messageId i d = (h', complete) ->
  map_Forall (fun _ a => sized a) (_assemblies h').
Proof.
  intros Hall. unfold addChunk.
  destruct (_assemblies h !! messageId) as [a |] eqn:Ha; [| intros [= <- _]; exact Hall].
  destruct (Js.is_null (array_get (chunks a) i)); [| intros [= <- _]; exact Hall].
  intros [= <- _]. simpl. apply map_Forall_insert_2; [| exact Hall].
  unfold sized. simpl. rewrite length_insert. exact (Hall _ _ Ha).
Qed.

(** C10. For every existing assembly with [total] slots, every index
    outside [0, total) and any chunk data, [addChunk] raises no error,
    leaves the slots and [receivedCount] unchanged (the handler is the
    same afterwards) and returns whether [receivedCount] already equals
    the total. *)
Theorem addChunk_out_of_range (h : t) (messageId : string)
    (a : ChunkedMessageAssembly) (i : Z) (d : Js.Value) :
  _assemblies h !! messageId = Some a ->
  sized a ->
  i < 0 \/ totalChunks a <= i ->
  addChunk h messageId i d = (h, receivedCount a =? totalChunks a).
Proof.
  intros Ha Hsized Hi. apply addChunk_not_null; [assumption |].
  rewrite array_get_outside; [reflexivity |].
  unfold sized in Hsized. lia.
Qed.

End Slots.

Section Reassembler.
Import ChunkingHandler.

(** On the three-slot assembly: the index 3 and the index -1. *)
Lemma addChunk_out_of_range_witness :
  addChunk three_slots "msg-123" 3 (Js.JsString "b3V0") = (three_slots, false)
  /\ addChunk three_slots "msg-123" (-1) (Js.JsString "b3V0") = (three_slots, false).
Proof.
  split.
  - apply (addChunk_out_of_range three_slots "msg-123" three_slots_assembly 3
             (Js.JsString "b3V0")).
    + vm_compute. reflexivity.
    + reflexivity.
    + right. simpl. lia.
  - apply (addChunk_out_of_range three_slots "msg-123" three_slots_assembly (-1)
             (Js.JsString "b3V0")).
    + vm_compute. reflexivity.
    + reflexivity.
    + left. lia.
Defined.

Lemma is_null_true (v : Js.Value) : Js.is_null v = true <-> v = Js.JsNull.
Proof. destruct v; simpl; split; congruence. Qed.

Lemma is_null_false (v : Js.Value) : Js.is_null v = false <-> v <> Js.JsNull.
Proof. destruct v; simpl; split; congruence. Qed.

Lemma array_get_null (l : list Js.Value) (i : Z) :
  Js.is_null (array_get l i) = true ->
  0 <= i /\ l !! Z.to_nat i = Some Js.JsNull.
Proof.
  unfold array_get. destruct (i <? 0) eqn:Hneg; [discriminate |].
  apply Z.ltb_ge in Hneg.
  destruct (l !! Z.to_nat i) as [v |]; simpl; [| discriminate].
  intros Hv. apply is_null_true in Hv. subst v. split; [lia | reflexivity].
Qed.

Lemma filled_insert (l : list Js.Value) (i : nat) (d : Js.Value) :
  l !! i = Some Js.JsNull -> d <> Js.JsNull ->
  length (filter (fun v => v <> Js.JsNull) (<[i := d]> l))
  = S (length (filter (fun v => v <> Js.JsNull) l)).
Proof.
  revert i. induction l as [| v l IH]; intros [| i] Hl Hd; simpl in *;
    try discriminate.
  - injection Hl as ->. rewrite !filter_cons.
    destruct (decide (d <> Js.JsNull)) as [_ | Hn]; [| contradiction].
    destruct (decide (Js.JsNull <> Js.JsNull)) as [Hn | _]; [contradiction |].
    reflexivity.
  - rewrite !filter_cons. destruct (decide (v <> Js.JsNull)); simpl;
      rewrite (IH i Hl Hd); reflexivity.
Qed.

(** Where no chunk data is [null], a slot is written once and
    [receivedCount] counts the filled slots, so it stays within the
    total. *)
Lemma addChunk_counted (h h' : t) (messageId : string) (i : Z) (d : Js.Value)
    (complete : bool) :
  d <> Js.JsNull ->
  map_Forall (fun _ a => sized a /\ counted a) (_assemblies h) ->
  addChunk h messageId i d = (h', complete) ->
  map_Forall (fun _ a => sized a /\ counted a /\ receivedCount a <= totalChunks a)
             (_assemblies h').
Proof.
  intros Hd Hall.
  assert (Hbound : forall a, sized a /\ counted a ->
            sized a /\ counted a /\ receivedCount a <= totalChunks a).
  { intros a [Hs Hc]. repeat split; try assumption.
    unfold sized in Hs. unfold counted, filled in Hc.
    pose proof (length_filter (fun v => v <> Js.JsNull) (chunks a)). lia. }
  unfold addChunk.
  destruct (_assemblies h !! messageId) as [a |] eqn:Ha.
  2: { intros [= <- _]. intros k a Hk. apply Hbound, (Hall k a Hk). }
  destruct (Js.is_null (array_get (chunks a) i)) eqn:Hslot.
  2: { intros [= <- _]. intros k b Hk. apply Hbound, (Hall k b Hk). }
  intros [= <- _]. simpl. apply map_Forall_insert_2.
  - apply Hbound. destruct (Hall _ _ Ha) as [Hs Hc].
    apply array_get_null in Hslot as [Hi Hnull]. split.
    + unfold sized in *. simpl. rewrite length_insert. exact Hs.
    + unfold counted, filled in *. simpl.
      rewrite (filled_insert _ _ _ Hnull Hd). lia.
  - intros k b Hk. apply Hbound, (Hall k b Hk).
Qed.

(** After any sequence of calls whose chunk data is never [null], on an
    assembly made by [initAssembly], [receivedCount] is the number of
    filled slots and at most the total. *)
Lemma addChunks_counted (h h0 : t) (now : Z) (messageId : string) (total : Z)
    (remote : option RemoteInfo.t) (c : option CompressionCodecType)
    (calls : list (Z * Js.Value)) :
  initAssembly h0 now messageId total remote c = Some h ->
  Forall (fun call => snd call <> Js.JsNull) calls ->
  exists a,
    _assemblies (addChunks h messageId calls) !! messageId = Some a
    /\ sized a /\ counted a /\ receivedCount a <= totalChunks a
    /\ totalChunks a = total.
Proof.
  intros Hinit Hcalls.
  destruct (initAssembly_lookup _ _ _ _ _ _ _ Hinit)
    as (a0 & Ha0 & Hsized & Hzero & Htotal & _ & Hempty).
  assert (Hstart : exists a,
            _assemblies h !! messageId = Some a
            /\ sized a /\ counted a /\ totalChunks a = total).
  { exists a0. repeat split; try assumption.
    unfold counted, filled. rewrite Hzero.
    replace (filter (fun v => v <> Js.JsNull) (chunks a0)) with (@nil Js.Value);
      [reflexivity |].
    clear - Hempty. induction Hempty as [| v l -> _ IH]; [reflexivity |].
    rewrite filter_cons.
    destruct (decide (Js.JsNull <> Js.JsNull)); [contradiction | exact IH]. }
  clear Hinit Ha0 Hsized Hzero Htotal Hempty a0.
  revert h Hstart. induction Hcalls as [| [i d] calls Hd _ IH]; intros h Hstart.
  - destruct Hstart as (a & Ha & Hsized & Hcounted & Htotal).
    exists a. repeat split; try assumption.
    unfold sized in Hsized. unfold counted, filled in Hcounted.
    pose proof (length_filter (fun v => v <> Js.JsNull) (chunks a)). lia.
  - simpl. apply IH. simpl in Hd.
    destruct Hstart as (a & Ha & Hsized & Hcounted & Htotal).
    unfold addChunk. rewrite Ha.
    destruct (Js.is_null (array_get (chunks a) i)) eqn:Hslot; simpl.
    + apply array_get_null in Hslot as [_ Hnull].
      eexists. rewrite lookup_insert_eq. split; [reflexivity |].
      unfold sized, counted, filled in *. simpl.
      rewrite length_insert, (filled_insert _ _ _ Hnull Hd).
      repeat split; [assumption | lia | assumption].
    + exists a. auto.
Qed.

(** C5, at the input where the code departs from it.  [null] is both the
    mark of an empty slot and a value [chunkData] can take (the body of a
    chunk envelope whose JSON says [null]).  Stored in slot 0 of a
    one-slot assembly it leaves the slot reading as empty, so the next
    chunk for index 0 is stored and counted again: the slots change on
    the second call and [receivedCount] is 2 for a total of 1. *)
Theorem addChunk_null_chunk_counted_twice :
  let h1 := default (new None None)
              (initAssembly (new None None) 0 "msg-123" 1 None None) in
  let first := addChunk h1 "msg-123" 0 Js.JsNull in
  let second := addChunk (fst first) "msg-123" 0 (Js.JsString "aGk=") in
  snd first = true
  /\ chunks <$> (_assemblies (fst first) !! "msg-123") = Some [Js.JsNull]
  /\ receivedCount <$> (_assemblies (fst first) !! "msg-123") = Some 1
  /\ snd second = false
  /\ chunks <$> (_assemblies (fst second) !! "msg-123")
     = Some [Js.JsString "aGk="]
  /\ receivedCount <$> (_assemblies (fst second) !! "msg-123") = Some 2
  /\ totalChunks <$> (_assemblies (fst second) !! "msg-123") = Some 1.
Proof. vm_compute. repeat split; reflexivity. Qed.

End Reassembler.

Section Reassembly.
Import ChunkingHandler.
Context `{Js.Builtins}.

Lemma existsb_is_null (l : list Js.Value) :
  existsb Js.is_null l = false <-> Forall (fun v => v <> Js.JsNull) l.
Proof.
  induction l as [| v l IH]; simpl.
  - split; [constructor | reflexivity].
  - rewrite orb_false_iff, IH, Forall_cons, is_null_false. reflexivity.
Qed.

(** What [getAssembledData] returns when it returns: the decoded slots,
    concatenated in the order of their indices, and the codec. *)
Lemma getAssembledData_Some (h : t) (messageId : string) (data : list byte)
    (c : option CompressionCodecType) :
  getAssembledData h messageId = Some (data, c) ->
  exists a buffers,
    _assemblies h !! messageId = Some a
    /\ receivedCount a = totalChunks a
    /\ Forall (fun v => v <> Js.JsNull) (chunks a)
    /\ Forall2 (fun v b => Js.Buffer_from_base64 v = Some b) (chunks a) buffers
    /\ data = concat buffers
    /\ c = compressionCodec a.
Proof.
  unfold getAssembledData.
  destruct (_assemblies h !! messageId) as [a |]; [| discriminate].
  destruct (receivedCount a =? totalChunks a) eqn:Hcount; [| discriminate].
  destruct (existsb Js.is_null (chunks a)) eqn:Hnull; [discriminate |].
  destruct (mapM Js.Buffer_from_base64 (chunks a)) as [buffers |] eqn:Hmap;
    [| discriminate].
  simpl. intros [= <- <-]. exists a, buffers.
  apply Z.eqb_eq in Hcount. apply existsb_is_null in Hnull.
  apply mapM_Some in Hmap. auto 10.
Qed.

(** C6, as the code has it.  [getAssembledData] returns a result if and only if
    [receivedCount] equals the total, every slot is non-empty and
    [Buffer.from] accepts the content of every slot (it does for every
    string; a [TypeError] is caught and gives [null]); the result is the
    concatenation, in the order of the chunk indices, of the decoded
    slots, with the codec recorded on the assembly.  Where every slot
    holds [null] or a string the third condition always holds. *)
Theorem getAssembledData_complete_and_decodable (h : t) (messageId : string) :
  (is_Some (getAssembledData h messageId) <->
   exists a,
     _assemblies h !! messageId = Some a
     /\ receivedCount a = totalChunks a
     /\ Forall (fun v => v <> Js.JsNull) (chunks a)
     /\ Forall (fun v => is_Some (Js.Buffer_from_base64 v)) (chunks a))
  /\ (forall data c,
        getAssembledData h messageId = Some (data, c) ->
        exists a buffers,
          _assemblies h !! messageId = Some a
          /\ Forall2 (fun v b => Js.Buffer_from_base64 v = Some b)
                     (chunks a) buffers
          /\ data = concat buffers
          /\ c = compressionCodec a)
  /\ (forall a,
        _assemblies h !! messageId = Some a ->
        Forall (fun v => v = Js.JsNull \/ exists s, v = Js.JsString s) (chunks a) ->
        (is_Some (getAssembledData h messageId) <->
         receivedCount a = totalChunks a
         /\ Forall (fun v => v <> Js.JsNull) (chunks a))).
Proof.
  assert (Hiff : is_Some (getAssembledData h messageId) <->
     exists a,
       _assemblies h !! messageId = Some a
       /\ receivedCount a = totalChunks a
       /\ Forall (fun v => v <> Js.JsNull) (chunks a)
       /\ Forall (fun v => is_Some (Js.Buffer_from_base64 v)) (chunks a)).
  { split.
    - intros [[data c] Hsome].
      destruct (getAssembledData_Some _ _ _ _ Hsome)
        as (a & buffers & Ha & Hcount & Hnull & Hdec & _).
      exists a. repeat split; try assumption.
      apply mapM_is_Some. apply mapM_Some in Hdec. rewrite Hdec. eauto.
    - intros (a & Ha & Hcount & Hnull & Hdec).
      unfold getAssembledData. rewrite Ha.
      apply Z.eqb_eq in Hcount. rewrite Hcount. simpl.
      apply existsb_is_null in Hnull. rewrite Hnull.
      apply mapM_is_Some in Hdec as [buffers ->]. eauto. }
  split; [exact Hiff |]. split.
  - intros data c Hsome.
    destruct (getAssembledData_Some _ _ _ _ Hsome)
      as (a & buffers & Ha & _ & _ & Hdec & -> & ->).
    exists a, buffers. auto.
  - intros a Ha Hstrings. rewrite Hiff. split.
    + intros (a' & Ha' & Hcount & Hnull & _).
      rewrite Ha in Ha'. injection Ha' as <-. auto.
    + intros [Hcount Hnull]. exists a. repeat split; try assumption.
      apply Forall_forall. intros v Hv.
      rewrite Forall_forall in Hstrings. rewrite Forall_forall in Hnull.
      destruct (Hstrings v Hv) as [-> | [s ->]].
      * exfalso. exact (Hnull _ Hv eq_refl).
      * simpl. eauto.
Qed.

End Reassembly.

Section ReassemblyExamples.
Import ChunkingHandler.
#[local] Existing Instance Node.builtins.

(** C6 as stated fails on a slot that holds a number: the assembly is
    complete and no slot is empty, and [getAssembledData] returns
    [null]. *)
Lemma getAssembledData_number_slot :
  (exists a,
     _assemblies number_slot !! "msg-123" = Some a
     /\ receivedCount a = totalChunks a
     /\ Forall (fun v => v <> Js.JsNull) (chunks a))
  /\ getAssembledData number_slot "msg-123" = None.
Proof.
  split.
  - eexists. split; [vm_compute; reflexivity |]. split; [reflexivity |].
    repeat constructor; discriminate.
  - vm_compute. reflexivity.
Qed.

(** The test [should reassemble chunks into original data], on the
    run [createChunks] then [addChunk] in reverse order. *)
Example reassemble_out_of_order :
  let h0 := new (Some 10) None in
  let chunks := default [] (createChunks h0 (OfString "This is a test message")) in
  let h1 := default h0 (initAssembly h0 0 "msg-123" 3 None (Some GZIP)) in
  let h2 := fst (addChunk h1 "msg-123" 2 (Js.JsString (default EmptyString (chunks !! 2%nat)))) in
  let h3 := fst (addChunk h2 "msg-123" 0 (Js.JsString (default EmptyString (chunks !! 0%nat)))) in
  let h4 := fst (addChunk h3 "msg-123" 1 (Js.JsString (default EmptyString (chunks !! 1%nat)))) in
  length chunks = 3%nat
  /\ getAssembledData h3 "msg-123" = None
  /\ getAssembledData h4 "msg-123"
     = Some (list_byte_of_string "This is a test message", Some GZIP).
Proof. vm_compute. repeat split; reflexivity. Qed.

End ReassemblyExamples.

(** ** The identifier generator *)

Section Snowflake.
Import SnowflakeIdGenerator.

(** [BigInt(z.toString())] is [z]. *)
Lemma BigInt_of_string_toString (z : Z) :
  Js.BigInt_of_string (Js.BigInt_toString z) = Some z.
Proof.
  unfold Js.BigInt_of_string, Js.BigInt_toString.
  assert (Hparse : NilZero.int_of_string (NilZero.string_of_int (Z.to_int z))
                   = Some (Z.to_int z)).
  { apply NilZero.isi; destruct z as [| p | p]; simpl; try discriminate;
      intros [= Hnil]; exact (DecimalPos.Unsigned.to_uint_nonnil p Hnil). }
  destruct (NilZero.string_of_int (Z.to_int z)) as [| c s] eqn:Hs.
  - simpl in Hparse. discriminate.
  - rewrite Hparse. simpl. rewrite DecimalZ.of_to. reflexivity.
Qed.

(** [Number(b)] is exact on the safe integers. *)
Lemma Number_of_BigInt_safe (z : Z) :
  Z.abs z <= 9007199254740992 -> Js.Number_of_BigInt z = z.
Proof.
  intros Hz. unfold Js.Number_of_BigInt.
  destruct (Z.abs z <=? 9007199254740992) eqn:Hle; [reflexivity |].
  apply Z.leb_gt in Hle. lia.
Qed.

(** Bits below a shift do not meet the bits shifted: the [|] of the
    generator is an addition. *)
Lemma lor_shiftl_low (a b n : Z) :
  0 <= n -> 0 <= b < 2 ^ n -> Z.lor (Z.shiftl a n) b = a * 2 ^ n + b.
Proof.
  intros Hn Hb.
  assert (Hdisjoint : Z.land (Z.shiftl a n) b = 0).
  { apply Z.bits_inj'. intros m Hm. rewrite Z.land_spec, Z.bits_0.
    destruct (Z.lt_ge_cases m n) as [Hlow | Hhigh].
    - rewrite Z.shiftl_spec_low by assumption. reflexivity.
    - rewrite <- (Z.mod_small b (2 ^ n)) by assumption.
      rewrite Z.mod_pow2_bits_high by lia. apply andb_false_r. }
  rewrite <- Z.lxor_lor by assumption.
  rewrite <- Z.add_nocarry_lxor by assumption.
  rewrite Z.shiftl_mul_pow2 by assumption. reflexivity.
Qed.

(** The identifier as a sum of its three fields. *)
Lemma compose_sum (g : t) (ts seq : Z) :
  0 <= workerId (_config g) <= 1023 -> 0 <= seq <= 4095 ->
  compose g ts seq
  = (ts - epoch (_config g)) * 4194304 + workerId (_config g) * 4096 + seq.
Proof.
  intros Hw Hs. unfold compose.
  change Constants.SNOWFLAKE_TIMESTAMP_SHIFT with (10 + 12).
  change Constants.SNOWFLAKE_WORKER_ID_SHIFT with 12.
  rewrite <- Z.shiftl_shiftl by lia.
  rewrite <- Z.shiftl_lor.
  rewrite (lor_shiftl_low _ (workerId (_config g)) 10) by lia.
  rewrite lor_shiftl_low by lia.
  change (2 ^ 10) with 1024. change (2 ^ 12) with 4096. lia.
Qed.

(** The fields of a sum of three fields. *)
Lemma fields_of_sum (t' w q : Z) :
  0 <= w <= 1023 -> 0 <= q <= 4095 ->
  let n := t' * 4194304 + w * 4096 + q in
  Z.land n Constants.SNOWFLAKE_MAX_SEQUENCE = q
  /\ Z.land (Z.shiftr n Constants.SNOWFLAKE_WORKER_ID_SHIFT)
            Constants.SNOWFLAKE_MAX_WORKER_ID = w
  /\ Z.shiftr n Constants.SNOWFLAKE_TIMESTAMP_SHIFT = t'.
Proof.
  intros Hw Hq n.
  change Constants.SNOWFLAKE_MAX_SEQUENCE with (Z.ones 12).
  change Constants.SNOWFLAKE_MAX_WORKER_ID with (Z.ones 10).
  change Constants.SNOWFLAKE_WORKER_ID_SHIFT with 12.
  change Constants.SNOWFLAKE_TIMESTAMP_SHIFT with 22.
  rewrite !Z.land_ones, !Z.shiftr_div_pow2 by lia.
  change (2 ^ 12) with 4096. change (2 ^ 10) with 1024.
  change (2 ^ 22) with 4194304.
  assert (Hlow : n mod 4096 = q).
  { unfold n. symmetry. apply (Z.mod_unique _ _ (t' * 1024 + w)); lia. }
  assert (Hmid : n / 4096 = t' * 1024 + w).
  { unfold n. symmetry. apply (Z.div_unique _ _ _ q); lia. }
  repeat split.
  - exact Hlow.
  - rewrite Hmid. symmetry. apply (Z.mod_unique _ _ t'); lia.
  - unfold n. symmetry. apply (Z.div_unique _ _ _ (w * 4096 + q)); lia.
Qed.

(** C8. For every timestamp [ts] (a time value of the platform: at most
    8.64e15 in absolute value) with [0 <= ts - epoch < 2^41], every worker
    id in [0, 1023] and every sequence in [0, 4095], [parse] applied to the
    decimal string of the identifier packed by the generator returns
    exactly the timestamp, the worker id and the sequence. *)
Theorem parse_compose (g : t) (ts seq : Z) :
  0 <= ts - epoch (_config g) < 2 ^ 41 ->
  Z.abs ts <= 8640000000000000 ->
  0 <= workerId (_config g) <= 1023 ->
  0 <= seq <= 4095 ->
  parse g (Js.BigInt_toString (compose g ts seq))
  = Some {| timestamp := ts;
            p_workerId := workerId (_config g);
            sequence := seq |}.
Proof.
  intros Hts Htime Hw Hs. unfold parse.
  rewrite BigInt_of_string_toString, compose_sum by assumption.
  destruct (fields_of_sum (ts - epoch (_config g)) _ _ Hw Hs)
    as (Hq & Hworker & Htimestamp).
  rewrite Hq, Hworker, Htimestamp.
  rewrite !Number_of_BigInt_safe by lia.
  f_equal. f_equal. lia.
Qed.

(** The identifier [generate] returns is the decimal string of the packed
    value of the timestamp and sequence it has moved to. *)
Lemma generate_Id (g g' : t) (clock clock' : list Z) (id : string) :
  generate g clock = Id id g' clock' ->
  id = Js.BigInt_toString (compose g (_lastTimestamp g') (_sequence g'))
  /\ _config g' = _config g
  /\ _lastTimestamp g <= _lastTimestamp g'
  /\ (_lastTimestamp g' = _lastTimestamp g -> _sequence g' <> 0).
Proof.
  unfold generate. destruct clock as [| now clock]; [discriminate |].
  set (step := if now =? _lastTimestamp g then _ else _).
  destruct step as [[[timestamp sequence] rest] |] eqn:Hstep; [| discriminate].
  destruct (timestamp <? _lastTimestamp g) eqn:Hback; [discriminate |].
  intros [= <- <- <-]. simpl. apply Z.ltb_ge in Hback.
  repeat split; [assumption |].
  intros Hsame. subst step.
  destruct (now =? _lastTimestamp g) eqn:Hnow.
  - destruct (Z.land (_sequence g + 1) Constants.SNOWFLAKE_MAX_SEQUENCE =? 0)
      eqn:Hwrap.
    + destruct (_waitNextMillis (_lastTimestamp g) clock) as [[t1 c1] |] eqn:Hwait;
        [| discriminate].
      injection Hstep as <- <- <-. exfalso. clear - Hwait Hsame.
      revert Hwait. induction clock as [| x clock IH]; simpl; [discriminate |].
      destruct (x <=? _lastTimestamp g) eqn:Hx; [exact IH |].
      intros [= -> _]. apply Z.leb_gt in Hx. lia.
    + injection Hstep as <- <- <-. apply Z.eqb_neq in Hwrap. exact Hwrap.
  - injection Hstep as <- <- <-. apply Z.eqb_neq in Hnow. congruence.
Qed.

End Snowflake.

Section SnowflakeExamples.
Import SnowflakeIdGenerator.

(** Worker 42, sequence 7, a timestamp of November 2026. *)
Lemma parse_compose_witness :
  parse worker42 (Js.BigInt_toString (compose worker42 1793664000000 7))
  = Some {| timestamp := 1793664000000; p_workerId := 42; sequence := 7 |}.
Proof.
  apply (parse_compose worker42 1793664000000 7); evaluate.
Defined.

(** Two identifiers in one millisecond, then the sequence exhausted and
    the busy wait for the next millisecond. *)
Example generate_twice :
  match generate worker42 [1793664000000; 1793664000000] with
  | Id id1 g1 clock1 =>
      id1 = "375796216627372032"
      /\ match generate g1 clock1 with
         | Id id2 g2 clock2 =>
             id2 = "375796216627372033" /\ clock2 = []
             /\ parse g2 id2
                = Some {| timestamp := 1793664000000; p_workerId := 42;
                          sequence := 1 |}
         | _ => False
         end
  | _ => False
  end.
Proof. vm_compute. repeat split; reflexivity. Qed.

Example generate_waits :
  let g := {| _config := _config worker42; _sequence := 4095;
              _lastTimestamp := 1793664000000 |} in
  generate g [1793664000000; 1793664000000; 1793664000001]
  = Id "375796216631566336"
       {| _config := _config worker42; _sequence := 0;
          _lastTimestamp := 1793664000001 |} []
  /\ generate g [1793664000000; 1793664000000] = Waiting
  /\ generate g [1793663999999]
     = ClockBackwards
         {| _config := _config worker42; _sequence := 0;
            _lastTimestamp := 1793664000000 |} [].
Proof. vm_compute. repeat split; reflexivity. Qed.

End SnowflakeExamples.

(** ** The compression pipeline *)

Section Compression.
Import CompressionHandler.

(** The factory holds only codecs that are available, under their names. *)
Lemma register_get (codecs : gmap CompressionCodecType CompressionCodec.t)
    (c : CompressionCodec.t) (name : CompressionCodecType) :
  CompressionFactory.get (CompressionFactory.register codecs c) name
  = if CompressionCodec.isAvailable c && bool_decide (CompressionCodec.name c = name)
    then Some c
    else CompressionFactory.get codecs name.
Proof.
  unfold CompressionFactory.get, CompressionFactory.register.
  destruct (CompressionCodec.isAvailable c); simpl; [| reflexivity].
  rewrite lookup_insert. destruct (decide (CompressionCodec.name c = name)) as [Heq | Hne].
  - rewrite bool_decide_true by assumption. reflexivity.
  - rewrite bool_decide_false by assumption. reflexivity.
Qed.

(** [NONE] names no codec of a handler: with it configured nothing is
    compressed. *)
Lemma new_get_NONE (libs : Libraries.t) (config : CompressionHandlerConfig)
    (h : t) :
  new libs config = Some h -> CompressionFactory.get (_factory h) NONE = None.
Proof.
  unfold new, Codecs.GzipCodec, Codecs.ZstdCodec.
  destruct ((level config <? 1) || (9 <? level config)); [discriminate |].
  destruct ((level config <? 1) || (22 <? level config)); [discriminate |].
  intros [= <-]. simpl. rewrite !register_get. simpl.
  rewrite !andb_false_r. reflexivity.
Qed.

(** C9, as the code has it.  [tryCompress] returns [null] exactly when compression
    is disabled, or the UTF-8 length of the payload is below [minSize], or
    the configured codec is not in the factory, or its [compress] fails,
    or the reduction, computed on binary64 numbers as
    [(1 - compressedSize / originalSize) * 100], is not at least
    [minReduction]; otherwise it returns the base64 text of the compressed
    bytes, the name of the codec and the two sizes.  [shouldCompress] is
    true exactly when compression is enabled and the size is at least
    [minSize]. *)
Theorem tryCompress_cases (h : t) (payload : string) :
  (tryCompress h payload = None <->
   enabled (_config h) = false
   \/ Js.byteLength payload < minSize (_config h)
   \/ CompressionFactory.get (_factory h) (codec (_config h)) = None
   \/ (exists c,
         CompressionFactory.get (_factory h) (codec (_config h)) = Some c
         /\ CompressionCodec.compress c (Js.Buffer_from_utf8 payload) = None)
   \/ (exists c compressed,
         CompressionFactory.get (_factory h) (codec (_config h)) = Some c
         /\ CompressionCodec.compress c (Js.Buffer_from_utf8 payload)
            = Some compressed
         /\ PrimFloat.leb (minReduction (_config h))
              (reduction (Js.byteLength payload) (Z.of_nat (length compressed)))
            = false))
  /\ (forall r,
        tryCompress h payload = Some r ->
        exists c compressed,
          CompressionFactory.get (_factory h) (codec (_config h)) = Some c
          /\ CompressionCodec.compress c (Js.Buffer_from_utf8 payload)
             = Some compressed
          /\ r = {| CompressionResult.data := Js.base64_encode compressed;
                    CompressionResult.codec := CompressionCodec.name c;
                    CompressionResult.originalSize := Js.byteLength payload;
                    CompressionResult.compressedSize :=
                      Z.of_nat (length compressed) |})
  /\ (forall size,
        shouldCompress h size = true <->
        enabled (_config h) = true /\ minSize (_config h) <= size).
Proof.
  unfold tryCompress, shouldCompress. split; [split |]; [| | split].
  - destruct (enabled (_config h)); simpl; [| auto].
    destruct (Js.byteLength payload <? minSize (_config h)) eqn:Hsize.
    { apply Z.ltb_lt in Hsize. auto. }
    destruct (CompressionFactory.get (_factory h) (codec (_config h)))
      as [c |]; [| auto].
    destruct (CompressionCodec.compress c (Js.Buffer_from_utf8 payload))
      as [compressed |] eqn:Hcompress; [| eauto 10].
    destruct (PrimFloat.leb _ _) eqn:Hreduction; [discriminate |].
    intros _. do 4 right. eauto.
  - intros Hcause.
    destruct (enabled (_config h)); simpl; [| reflexivity].
    destruct (Js.byteLength payload <? minSize (_config h)) eqn:Hsize;
      [reflexivity |].
    apply Z.ltb_ge in Hsize.
    destruct Hcause as [Hoff | [Hsmall | [Hcodec | [Hfail | Hlow]]]].
    + discriminate.
    + lia.
    + rewrite Hcodec. reflexivity.
    + destruct Hfail as (c & -> & ->). reflexivity.
    + destruct Hlow as (c & compressed & -> & -> & ->). reflexivity.
  - intros r.
    destruct (enabled (_config h)); simpl; [| discriminate].
    destruct (Js.byteLength payload <? minSize (_config h)); [discriminate |].
    destruct (CompressionFactory.get (_factory h) (codec (_config h)))
      as [c |]; [| discriminate].
    destruct (CompressionCodec.compress c (Js.Buffer_from_utf8 payload))
      as [compressed |] eqn:Hcompress; [| discriminate].
    destruct (PrimFloat.leb _ _); [| discriminate].
    intros [= <-]. exists c, compressed. auto.
  - intros size. rewrite andb_true_iff, Z.leb_le. reflexivity.
Qed.

End Compression.

Section CompressionExamples.
Import CompressionHandler.

(** C9 as stated fails where the reduction is exactly the threshold:
    1000 bytes compressed to 900 are a reduction of 10 percent, which is
    not below [minReduction = 10], no other cause applies, and
    [tryCompress] returns [null]: on binary64 numbers
    [(1 - 900 / 1000) * 100] is [9.999999999999998]. *)
Lemma tryCompress_at_the_threshold :
  enabled (_config gzip_handler) = true
  /\ minSize (_config gzip_handler) <= Js.byteLength payload_1000
  /\ (exists c compressed,
        CompressionFactory.get (_factory gzip_handler)
          (codec (_config gzip_handler)) = Some c
        /\ CompressionCodec.compress c (Js.Buffer_from_utf8 payload_1000)
           = Some compressed
        /\ Js.byteLength payload_1000 = 1000
        /\ Z.of_nat (length compressed) = 900)
  /\ minReduction (_config gzip_handler) = 10%float
  /\ ~ (exact_reduction 1000 900 < 10)%Q
  /\ reduction 1000 900 = 0x1.3ffffffffffffp+3%float
  /\ tryCompress gzip_handler payload_1000 = None.
Proof.
  split; [reflexivity |]. split; [evaluate |]. split.
  { exists (default (Codecs.SnappyCodec RunLength.libraries)
              (Codecs.GzipCodec RunLength.libraries 6)).
    exists (RunLength.encode (Js.Buffer_from_utf8 payload_1000)).
    repeat split; vm_compute; reflexivity. }
  split; [reflexivity |]. split; [vm_compute; discriminate |].
  split; vm_compute; reflexivity.
Qed.

(** A payload of one long run is compressed; the thresholds of
    [shouldCompress]. *)
Example tryCompress_run :
  let payload := string_of_list_byte (repeat "x"%byte 300) in
  tryCompress gzip_handler payload
  = Some {| CompressionResult.data := "/3gteA==";
            CompressionResult.codec := GZIP;
            CompressionResult.originalSize := 300;
            CompressionResult.compressedSize := 4 |}
  /\ shouldCompress gzip_handler 255 = false
  /\ shouldCompress gzip_handler 256 = true.
Proof. vm_compute. repeat split; reflexivity. Qed.

End CompressionExamples.

(** ** The request tracker *)

Section Tracker.
Import RequestTracker.
Context {C : Type} (run : C -> Js.Value -> View -> Outcome).

Lemma clearRetryTimer_tracked (tr : t C) (tm : Timers.t) (messageId : string)
    (h : ResponseHandler C) :
  _handlers tr !! messageId = Some h ->
  exists tr' tm',
    clearRetryTimer tr tm messageId = (tr', tm')
    /\ _handlers tr' !! messageId = Some (without_retryTimer h)
    /\ (forall k, k <> messageId -> _handlers tr' !! k = _handlers tr !! k)
    /\ Timers.armed tm'
       = Timers.armed tm
           ∖ (match retryTimer h with Some timer => {[timer]} | None => ∅ end).
Proof.
  intros Hh. unfold clearRetryTimer. rewrite Hh.
  destruct (retryTimer h) as [timer |] eqn:Hretry.
  - do 2 eexists. split; [reflexivity |]. simpl.
    rewrite lookup_insert_eq. split; [reflexivity |]. split; [| reflexivity].
    intros k Hk. rewrite lookup_insert_ne by congruence. reflexivity.
  - exists tr, tm. split; [reflexivity |]. split.
    + rewrite Hh. f_equal. destruct h. simpl in *. subst. reflexivity.
    + split; [reflexivity |]. set_solver.
Qed.

(** [invokeAndRemove] up to the call of the callback: the timers are
    cleared, and the callback is called once, with the response, while
    its entry is in the map. *)
Lemma invokeAndRemove_called (tr : t C) (tm : Timers.t) (messageId : string)
    (h : ResponseHandler C) (response : Js.Value) :
  _handlers tr !! messageId = Some h ->
  exists tr1 tm',
    let seen := view tr1 in
    let called := Called messageId response seen (Timers.armed tm') in
    invokeAndRemove run tr tm messageId response
    = match run (callback h) response seen with
      | Returned =>
          (with_handlers tr1 (delete messageId (_handlers tr1)), tm', [called],
           Some true)
      | Threw message =>
          (with_handlers tr1 (delete messageId (_handlers tr1)), tm',
           [called;
            Logged LogError
              ("Callback error for " +:+ messageId +:+ ": " +:+ message)],
           Some true)
      | ThrewNullish => (tr1, tm', [called], None)
      end
    /\ Timers.armed tm' = Timers.armed tm ∖ timers_of h
    /\ _handlers tr1 !! messageId = Some (without_retryTimer h)
    /\ (forall k, k <> messageId -> _handlers tr1 !! k = _handlers tr !! k).
Proof.
  intros Hh. unfold invokeAndRemove. rewrite Hh.
  destruct (clearRetryTimer_tracked tr tm messageId h Hh)
    as (tr1 & tm1 & -> & Hentry & Hothers & Harmed).
  exists tr1. eexists. cbv zeta. split; [reflexivity |]. split.
  { unfold timers_of.
    destruct (timeoutId h) as [timer |]; simpl; rewrite Harmed; set_solver. }
  split; [exact Hentry | exact Hothers].
Qed.


(** A callback that throws [null] or [undefined]: the [catch] throws in
    its turn.  Nothing is logged, the entry stays in the map, without
    its timers, and the call throws. *)
Lemma invokeAndRemove_nullish (tr : t C) (tm : Timers.t) (messageId : string)
    (h : ResponseHandler C) (response : Js.Value) :
  _handlers tr !! messageId = Some h ->
  exists tr' tm' seen armed,
    (run (callback h) response seen = ThrewNullish ->
     invokeAndRemove run tr tm messageId response
     = (tr', tm', [Called messageId response seen armed], None))
    /\ seen = view tr'
    /\ armed = Timers.armed tm ∖ timers_of h
    /\ Timers.armed tm' = armed
    /\ _handlers tr' !! messageId = Some (without_retryTimer h)
    /\ (forall k, k <> messageId -> _handlers tr' !! k = _handlers tr !! k).
Proof.
  intros Hh.
  destruct (invokeAndRemove_called tr tm messageId h response Hh)
    as (tr1 & tm' & Hrun & Harmed & Hentry & Hothers).
  cbv zeta in Hrun. exists tr1, tm', (view tr1), (Timers.armed tm').
  split; [intros Hout; rewrite Hrun, Hout; reflexivity |].
  split; [reflexivity |]. split; [exact Harmed |].
  split; [reflexivity |]. split; [exact Hentry | exact Hothers].
Qed.

(** An id that is not tracked: nothing happens. *)
Lemma invokeAndRemove_unknown (tr : t C) (tm : Timers.t) (messageId : string)
    (response : Js.Value) :
  _handlers tr !! messageId = None ->
  invokeAndRemove run tr tm messageId response = (tr, tm, [], Some false).
Proof. intros Hh. unfold invokeAndRemove. rewrite Hh. reflexivity. Qed.

(** The timeout path removes the entry before it calls [onTimeout]. *)
Lemma timeoutExpired_tracked (tr : t C) (tm : Timers.t) (messageId : string)
    (h : ResponseHandler C) :
  _handlers tr !! messageId = Some h ->
  exists tr' tm' text seen,
    timeoutExpired tr tm messageId true
    = (tr', tm', [Logged LogWarn text; TimedOut messageId seen])
    /\ seen !! messageId = None
    /\ _handlers tr' !! messageId = None.
Proof.
  intros Hh. unfold timeoutExpired, remove. rewrite Hh.
  destruct (clearRetryTimer_tracked tr tm messageId h Hh)
    as (tr1 & tm1 & -> & _ & _ & _).
  do 4 eexists. split; [reflexivity |]. simpl. split.
  - unfold view. simpl. rewrite lookup_fmap, lookup_delete_eq. reflexivity.
  - apply lookup_delete_eq.
Qed.

End Tracker.

Section TrackerExamples.
Import RequestTracker.



End TrackerExamples.

(** ** The receive path *)

Section Receive.
Import ReliableUdpSocket.
Context `{Js.Builtins}.

(** The ACK envelope carries the id it is given and the type ACK. *)
Lemma ack_envelope (id : string) :
  let e := MessageEnvelopeHandler.createEnvelope id ACK Js.JsNull
             MessageEnvelopOptions.empty in
  MessageEnvelope.id e = id
  /\ MessageEnvelopeHandler.decodeFlags (MessageEnvelope.flags e)
     = Some {| DecodedFlags.type := MessageType_value ACK;
               DecodedFlags.codec := NONE;
               DecodedFlags.isCompressed := false;
               DecodedFlags.isChunked := false |}
  /\ MessageEnvelope.checksum e = None
  /\ MessageEnvelope.ci e = None /\ MessageEnvelope.os e = None.
Proof. repeat split. Qed.

Lemma string_truthy_Some (c : string) :
  string_truthy (Some c) = true <-> c <> EmptyString.
Proof. destruct c; simpl; split; congruence. Qed.

(** A request rejected on its checksum: the run stops where it stands. *)
Lemma handleRequest_mismatch (s : t) (now : Z) (req : MessageEnvelope.t)
    (rinfo : RemoteInfo.t) :
  checksum_mismatch s req ->
  exists lines error,
    _handleRequest s now req rinfo = (s, lines, error)
    /\ Forall is_log lines.
Proof.
  unfold _handleRequest, checksum_mismatch.
  intros (Hon & c & Hc & Hnonempty & Hcalc). rewrite Hon, Hc.
  apply string_truthy_Some in Hnonempty. rewrite Hnonempty. cbn [andb].
  destruct (_calculateChecksum (MessageEnvelope.body req)) as [calculated |].
  - rewrite bool_decide_false by congruence.
    do 2 eexists. split; [reflexivity |].
    repeat constructor. unfold is_log. eauto.
  - do 2 eexists. split; [reflexivity | constructor].
Qed.

(** A request that passes: the acknowledgement, then the handler of
    the request from the socket as it was. *)
Lemma handleRequest_accepted (s : t) (now : Z) (req : MessageEnvelope.t)
    (rinfo : RemoteInfo.t) :
  ~ checksum_mismatch s req ->
  _handleRequest s now req rinfo
  = let '(s', events, error) :=
      match MessageEnvelope.ci req, MessageEnvelope.ct req with
      | Some ci, Some ct => _handleChunkedRequest s now req ci ct rinfo
      | _, _ => _handleSingleRequest s req rinfo
      end in
    (s', acknowledgement req rinfo :: events, error).
Proof.
  intros Hmatch. unfold _handleRequest.
  assert (Hverdict :
    (if enableChecksum (_config s)
        && string_truthy (MessageEnvelope.checksum req)
     then
       match _calculateChecksum (MessageEnvelope.body req) with
       | None => Some (Some "TypeError")
       | Some calculated =>
           if bool_decide (Some calculated = MessageEnvelope.checksum req)
           then None else Some None
       end
     else None) = @None (option string)).
  { destruct (enableChecksum (_config s)) eqn:Hon; [| reflexivity].
    destruct (MessageEnvelope.checksum req) as [c |] eqn:Hc; [| reflexivity].
    destruct (string_truthy (Some c)) eqn:Htruthy; [| reflexivity].
    apply string_truthy_Some in Htruthy. cbn [andb].
    destruct (_calculateChecksum (MessageEnvelope.body req))
      as [calculated |] eqn:Hcalc.
    - destruct (decide (Some calculated = Some c)) as [Heq | Hne].
      + rewrite bool_decide_true by assumption. reflexivity.
      + exfalso. apply Hmatch. split; [exact Hon |]. exists c.
        split; [exact Hc |]. split; [assumption | congruence].
    - exfalso. apply Hmatch. split; [exact Hon |]. exists c.
      split; [exact Hc |]. split; [assumption | congruence]. }
  rewrite Hverdict.
  destruct (match MessageEnvelope.ci req, MessageEnvelope.ct req with
            | Some ci, Some ct => _handleChunkedRequest s now req ci ct rinfo
            | _, _ => _handleSingleRequest s req rinfo
            end) as [[s' events] error].
  reflexivity.
Qed.

(** C1, as the code has it.  If checksums are enabled and the request carries a
    non-empty checksum that does not match the SHA-256 recomputed over
    its body, [_handleRequest] stops with at most an error line logged:
    no datagram is sent, nothing is emitted, the reassembler and the
    decompressor are not called, the socket is unchanged.  Otherwise (an
    empty checksum counts as none) the first action of the run is the
    acknowledgement, an ACK envelope with the id of the request sent to
    its source: every call into the reassembler or the decompressor and
    every delivery comes after it. *)
Theorem handleRequest_checksum_then_ack (s : t) (now : Z)
    (req : MessageEnvelope.t) (rinfo : RemoteInfo.t) :
  (checksum_mismatch s req ->
   exists lines error,
     _handleRequest s now req rinfo = (s, lines, error)
     /\ Forall is_log lines)
  /\ (~ checksum_mismatch s req ->
      exists s' rest error,
        _handleRequest s now req rinfo
        = (s', acknowledgement req rinfo :: rest, error)).
Proof.
  split.
  - apply handleRequest_mismatch.
  - intros Hmatch. rewrite (handleRequest_accepted s now req rinfo Hmatch).
    destruct (match MessageEnvelope.ci req, MessageEnvelope.ct req with
              | Some ci, Some ct => _handleChunkedRequest s now req ci ct rinfo
              | _, _ => _handleSingleRequest s req rinfo
              end) as [[s' events] error].
    exists s', events, error. reflexivity.
Qed.

(** A rejected request leaves no trace but log lines in [handleData]
    either. *)
Lemma handleData_request_mismatch (s : t) (now : Z) (req : MessageEnvelope.t)
    (rinfo : RemoteInfo.t) :
  checksum_mismatch s req ->
  exists lines, handleData_request s now req rinfo = (s, lines)
                /\ Forall is_log lines.
Proof.
  intros Hmismatch. unfold handleData_request.
  destruct (handleRequest_mismatch s now req rinfo Hmismatch)
    as (lines & error & -> & Hlines).
  eexists. split; [reflexivity |].
  apply Forall_app. split; [assumption |].
  destruct error; repeat constructor. unfold is_log. eauto.
Qed.

End Receive.

Section ReceiveExamples.
Import ReliableUdpSocket.
#[local] Existing Instance Node.builtins.

Example new_default_socket :
  new RunLength.libraries = Some default_socket
  /\ _config default_socket
     = {| maxMessageSize := 1400; maxRetries := 5; retryInterval := 500;
          enableChecksum := true |}.
Proof. split; reflexivity. Qed.

(** C1 as stated fails on a request whose checksum is the empty string:
    checksums are enabled, the envelope carries a checksum, it is not the
    SHA-256 of the body, and the request is acknowledged and delivered.
    The guard [req.checksum] treats the empty string as no checksum. *)
Lemma handleRequest_empty_checksum :
  enableChecksum (_config default_socket) = true
  /\ MessageEnvelope.checksum (request (Some EmptyString)) = Some EmptyString
  /\ _calculateChecksum (MessageEnvelope.body (request (Some EmptyString)))
     = Some "8f434346648f6b96df89dda901c5176b10a6d83961dd3c1ac88b59b2dc327aa4"
  /\ _handleRequest default_socket 0 (request (Some EmptyString)) localhost
     = (default_socket,
        [acknowledgement (request (Some EmptyString)) localhost;
         Emit (Js.JSON_stringify (Js.JsString "hi")) localhost],
        None).
Proof. repeat split; vm_compute; reflexivity. Qed.

(** The same request with a wrong checksum is dropped, with the right
    one or with none it is acknowledged and delivered. *)
Example handleRequest_single :
  _handleRequest default_socket 0
    (request (Some "0000000000000000000000000000000000000000000000000000000000000000"))
    localhost
  = (default_socket, [Log LogError "Checksum failure for req-1"], None)
  /\ _handleRequest default_socket 0
       (request (Some "8f434346648f6b96df89dda901c5176b10a6d83961dd3c1ac88b59b2dc327aa4"))
       localhost
     = (default_socket,
        [acknowledgement (request None) localhost;
         Emit (Js.JSON_stringify (Js.JsString "hi")) localhost],
        None)
  /\ _handleRequest default_socket 0 (request None) localhost
     = (default_socket,
        [acknowledgement (request None) localhost;
         Emit (Js.JSON_stringify (Js.JsString "hi")) localhost],
        None).
Proof. repeat split; vm_compute; reflexivity. Qed.

(** Two chunks out of order: each is acknowledged before it is stored,
    and the message is delivered once, after the second. *)
Example handleRequest_chunked :
  let '(s1, events1, _) :=
    _handleRequest default_socket 0 (chunk_request 1 "d29ybGQ=") localhost in
  let '(s2, events2, _) :=
    _handleRequest s1 1 (chunk_request 0 "aGVsbG8g") localhost in
  events1 = [acknowledgement (chunk_request 1 "d29ybGQ=") localhost;
             InitAssembly "77" 2; AddChunk "77" 1]
  /\ events2 = [acknowledgement (chunk_request 0 "aGVsbG8g") localhost;
                AddChunk "77" 0; Emit (Some "hello world") localhost]
  /\ ChunkingHandler.getAssembly (_chunkingHandler s2) "77" = None.
Proof. vm_compute. repeat split; reflexivity. Qed.

End ReceiveExamples.

(** ** The send path *)

Section Chunks.
Import ChunkingHandler.

Lemma length_list_byte_of_string (s : string) :
  length (list_byte_of_string s) = String.length s.
Proof.
  unfold list_byte_of_string. rewrite length_map.
  induction s as [| c s IH]; simpl; [reflexivity | rewrite IH; reflexivity].
Qed.

Lemma Math_ceil_div_ceiling (a b : Z) :
  0 < b -> exists n, Math_ceil_div a b = Finite n /\ ceiling a b n.
Proof.
  intros Hb. unfold Math_ceil_div, ceiling.
  destruct (b =? 0) eqn:Hzero; [apply Z.eqb_eq in Hzero; lia |].
  eexists. split; [reflexivity |].
  pose proof (Z.div_mod (- a) b ltac:(lia)) as Hdiv.
  pose proof (Z.mod_pos_bound (- a) b Hb) as Hmod.
  nia.
Qed.

(** With a positive chunk size [createChunks] returns, and the number of
    chunks is the ceiling of the length over the chunk size. *)
Lemma createChunks_ceiling (h : t) (data : string) :
  0 < chunkSize (_config h) ->
  exists chunks,
    createChunks h (OfString data) = Some chunks
    /\ ceiling (Js.byteLength data) (chunkSize (_config h))
               (Z.of_nat (length chunks)).
Proof.
  intros Hsize. unfold createChunks, Js.Buffer_from_utf8, Js.byteLength.
  rewrite length_list_byte_of_string.
  destruct (Math_ceil_div_ceiling (Z.of_nat (String.length data)) _ Hsize)
    as (n & -> & Hn).
  eexists. split; [reflexivity |].
  rewrite length_map, length_seq.
  assert (0 <= n) by (unfold ceiling in Hn; nia).
  rewrite Z2Nat.id by assumption. exact Hn.
Qed.

(** One byte over a limit that is at least the chunk size makes two
    chunks or more. *)
Lemma ceiling_over_limit (limit b n : Z) :
  0 < b <= limit -> ceiling (limit + 1) b n -> 2 <= n.
Proof. unfold ceiling. intros Hb Hn. nia. Qed.

End Chunks.

(** The pieces a buffer is cut in. *)

Section Pieces.
Import ChunkingHandler.

(** Consecutive slices of [c] items make up a prefix of the list. *)
Lemma concat_slices {A : Type} (c n : nat) (l : list A) :
  concat (map (fun i : nat => take c (drop (i * c) l)) (seq 0 n)) = take (n * c) l.
Proof.
  induction n as [| n IH]; [reflexivity |].
  rewrite seq_S, map_app, concat_app, IH. simpl.
  rewrite app_nil_r, take_take_drop. f_equal. lia.
Qed.

(** The slice [createChunks] takes for the chunk at index [i]. *)
Lemma subarray_slice (buffer : list byte) (size : Z) (i : nat) :
  0 < size ->
  Z.of_nat i * size < Z.of_nat (length buffer) ->
  Js.subarray buffer (Z.of_nat i * size)
    (Z.min (Z.of_nat i * size + size) (Z.of_nat (length buffer)))
  = take (Z.to_nat size) (drop (i * Z.to_nat size) buffer).
Proof.
  intros Hsize Hstart. unfold Js.subarray.
  replace (Z.to_nat (Z.of_nat i * size)) with (i * Z.to_nat size)%nat by lia.
  destruct (Z.min_spec (Z.of_nat i * size + size) (Z.of_nat (length buffer)))
    as [[_ ->] | [Hlast ->]].
  - f_equal. lia.
  - rewrite !firstn_all2; [reflexivity | |]; rewrite length_skipn; lia.
Qed.

(** The chunks are the base64 texts of slices of the buffer that make it
    up, each of [chunkSize] bytes but the last, which is not empty. *)
Lemma createChunks_slices (h : t) (data : ChunkSource) :
  0 < chunkSize (_config h) ->
  let buffer :=
    match data with OfString s => Js.Buffer_from_utf8 s | OfBuffer b => b end in
  exists pieces,
    createChunks h data = Some (Js.base64_encode <$> pieces)
    /\ concat pieces = buffer
    /\ ceiling (Z.of_nat (length buffer)) (chunkSize (_config h))
               (Z.of_nat (length pieces))
    /\ forall (i : nat) (p : list byte),
         pieces !! i = Some p ->
         0 < Z.of_nat (length p) <= chunkSize (_config h)
         /\ ((S i < length pieces)%nat ->
             Z.of_nat (length p) = chunkSize (_config h)).
Proof.
  intros Hsize buffer.
  set (size := chunkSize (_config h)) in *.
  destruct (Math_ceil_div_ceiling (Z.of_nat (length buffer)) size Hsize)
    as (n & Hn & Hceil).
  assert (Hn0 : 0 <= n) by (unfold ceiling in Hceil; nia).
  set (c := Z.to_nat size).
  exists (map (fun i : nat => take c (drop (i * c) buffer)) (seq 0 (Z.to_nat n))).
  assert (Hlen : length (map (fun i : nat => take c (drop (i * c) buffer))
                           (seq 0 (Z.to_nat n))) = Z.to_nat n)
    by (rewrite length_map, length_seq; reflexivity).
  split; [| split; [| split]].
  - unfold createChunks. fold buffer. fold size. rewrite Hn. f_equal.
    transitivity
      (map Js.base64_encode
         (map (fun i : nat => take c (drop (i * c) buffer)) (seq 0 (Z.to_nat n))));
      [| reflexivity].
    rewrite map_map. apply map_ext_in.
    intros i Hi. apply in_seq in Hi. f_equal. apply subarray_slice; [exact Hsize |].
    unfold ceiling in Hceil. nia.
  - rewrite concat_slices. apply take_ge. unfold ceiling in Hceil. nia.
  - rewrite Hlen, Z2Nat.id by exact Hn0. exact Hceil.
  - intros i p Hp. rewrite Hlen.
    change (map ?f ?l) with (f <$> l) in Hp.
    apply list_lookup_fmap_Some in Hp as (j & -> & Hj).
    apply lookup_seq in Hj as [-> Hj]. simpl.
    rewrite length_take, length_drop. unfold ceiling in Hceil.
    split; [nia |]. intros Hnext. nia.
Qed.

End Pieces.

Section Send.
Import ReliableUdpSocket.
Context `{Js.Builtins}.

Lemma chunkEnvelopes_cons (config : SocketConfig) (messageId : string)
    (cr : option CompressionResult.t) (total i : nat) (chunk : string)
    (rest : list string) :
  chunkEnvelopes config messageId cr total i (chunk :: rest)
  = chunkEnvelope config messageId cr total i chunk
      :: chunkEnvelopes config messageId cr total (S i) rest.
Proof.
  unfold chunkEnvelopes. simpl. rewrite Nat.add_0_r. f_equal.
  apply imap_ext. intros j x _. simpl. f_equal. lia.
Qed.

Lemma chunkEnvelopes_lookup (config : SocketConfig) (messageId : string)
    (cr : option CompressionResult.t) (total i j : nat) (chunks : list string) :
  chunkEnvelopes config messageId cr total i chunks !! j
  = chunkEnvelope config messageId cr total (i + j) <$> chunks !! j.
Proof. unfold chunkEnvelopes. rewrite list_lookup_imap. reflexivity. Qed.

(** The loop sends one datagram per chunk, in the order of the indices,
    and reads the clock once per chunk. *)
Lemma sendChunksFrom_events (s : t) (clock : list Z) (messageId : string)
    (cr : option CompressionResult.t) (host : string) (port : Z)
    (total i : nat) (chunks : list string) :
  (length chunks <= length clock)%nat ->
  exists s',
    sendChunksFrom s clock messageId cr host port total i chunks
    = Some (s', drop (length chunks) clock,
            datagram host port
              <$> chunkEnvelopes (_config s) messageId cr total i chunks)
    /\ _config s' = _config s.
Proof.
  revert s clock i.
  induction chunks as [| chunk rest IH]; intros s clock i Hclock.
  - exists s. split; reflexivity.
  - destruct clock as [| now clock]; [simpl in Hclock; lia |].
    cbn [sendChunksFrom].
    set (s1 := with_requestTracker s _).
    destruct (IH s1 clock (S i)) as (s' & -> & Hconfig).
    { simpl in Hclock. lia. }
    exists s'. split; [| exact Hconfig].
    rewrite chunkEnvelopes_cons. reflexivity.
Qed.

(** The fields of the envelope of chunk [i]. *)
Lemma chunkEnvelope_fields (config : SocketConfig) (messageId : string)
    (cr : option CompressionResult.t) (total i : nat) (chunk : string) :
  let e := chunkEnvelope config messageId cr total i chunk in
  let first := bool_decide (is_Some cr) && (i =? 0)%nat in
  MessageEnvelope.id e = chunkId messageId i
  /\ MessageEnvelope.body e = Js.JsString chunk
  /\ MessageEnvelope.ci e = Some (Z.of_nat i)
  /\ MessageEnvelope.ct e = Some (Z.of_nat total)
  /\ MessageEnvelopeHandler.decodeFlags (MessageEnvelope.flags e)
     = Some {| DecodedFlags.type := MessageType_value REQ;
               DecodedFlags.codec := codec_of cr;
               DecodedFlags.isCompressed := first;
               DecodedFlags.isChunked := true |}
  /\ (exists f,
        MessageEnvelope.flags e = Some f
        /\ Js.bitand f FlagBits.CODEC_MASK
           = CompressionCodecType_value (codec_of cr))
  /\ MessageEnvelope.os e
     = (if first then CompressionResult.originalSize <$> cr else None)
  /\ MessageEnvelope.cs e
     = (if first then CompressionResult.compressedSize <$> cr else None).
Proof.
  unfold chunkEnvelope, MessageEnvelopeHandler.createEnvelope.
  cbn [MessageEnvelope.id MessageEnvelope.body MessageEnvelope.ci
       MessageEnvelope.ct MessageEnvelope.flags MessageEnvelope.os
       MessageEnvelope.cs MessageEnvelopOptions.codec
       MessageEnvelopOptions.isCompressed MessageEnvelopOptions.isChunked
       MessageEnvelopOptions.chunkIndex MessageEnvelopOptions.chunkTotal
       MessageEnvelopOptions.originalSize MessageEnvelopOptions.compressedSize
       default].
  rewrite !bool_decide_true by eauto. cbn [andb].
  split; [reflexivity |]. split; [reflexivity |]. split; [reflexivity |].
  split; [reflexivity |]. split.
  { apply decodeFlags_encodeFlags. simpl. lia. }
  split.
  { eexists. split; [reflexivity |]. apply encodeFlags_codec_bits. }
  split; destruct (bool_decide (is_Some cr)), (i =? 0)%nat; reflexivity.
Qed.

(** The envelope of a message sent whole: a request that is not chunked. *)
Lemma singleEnvelope_fields (messageId : string) (body : Js.Value)
    (checksum : option string) (cr : option CompressionResult.t) :
  let e := singleEnvelope messageId body checksum cr in
  MessageEnvelope.id e = messageId
  /\ MessageEnvelope.body e = body
  /\ MessageEnvelopeHandler.decodeFlags (MessageEnvelope.flags e)
     = Some {| DecodedFlags.type := MessageType_value REQ;
               DecodedFlags.codec := codec_of cr;
               DecodedFlags.isCompressed := bool_decide (is_Some cr);
               DecodedFlags.isChunked := false |}
  /\ MessageEnvelope.ci e = None
  /\ MessageEnvelope.ct e = None.
Proof.
  unfold singleEnvelope, MessageEnvelopeHandler.createEnvelope.
  cbn [MessageEnvelope.id MessageEnvelope.body MessageEnvelope.ci
       MessageEnvelope.ct MessageEnvelope.flags MessageEnvelopOptions.codec
       MessageEnvelopOptions.isCompressed MessageEnvelopOptions.isChunked
       MessageEnvelopOptions.chunkIndex MessageEnvelopOptions.chunkTotal
       default andb].
  repeat split. apply decodeFlags_encodeFlags. simpl. lia.
Qed.

(** What [prepare] returns: the final size is the length of the text of
    the body to send. *)
Lemma prepare_Some (s : t) (message body : Js.Value)
    (cr : option CompressionResult.t) (finalSize : Z) :
  prepare s message = Some (body, cr, finalSize) ->
  exists finalString,
    text_of body = Some finalString /\ finalSize = Js.byteLength finalString.
Proof.
  unfold prepare.
  destruct (Js.JSON_stringify message) as [jsonString |]; [| discriminate].
  match goal with
  | |- context [text_of ?b] => destruct (text_of b) as [finalString |] eqn:Htext
  end; [| discriminate].
  intros [= <- <- <-]. exists finalString. auto.
Qed.

(** [_sendSingleMessage], once an identifier is generated and the clock
    is read: one datagram, the envelope of the whole message. *)
Lemma sendSingleMessage_events (s : t) (clock clock' : list Z)
    (body : Js.Value) (host : string) (port : Z)
    (cr : option CompressionResult.t) (messageId finalString : string)
    (g : SnowflakeIdGenerator.t) (now : Z) :
  SnowflakeIdGenerator.generate (_idGenerator s) clock
  = SnowflakeIdGenerator.Id messageId g (now :: clock') ->
  text_of body = Some finalString ->
  exists s' checksum,
    _sendSingleMessage s clock body host port cr
    = Some (s', clock',
            [datagram host port (singleEnvelope messageId body checksum cr)],
            None).
Proof.
  intros Hid Htext. unfold _sendSingleMessage, _calculateChecksum.
  rewrite Hid, Htext. cbn [_config with_idGenerator].
  destruct (enableChecksum (_config s)); do 2 eexists; reflexivity.
Qed.

(** [_sendChunkedMessage], once an identifier is generated, the chunks
    are cut and the clock can be read once per chunk: one datagram per
    chunk, in the order of the indices. *)
Lemma sendChunkedMessage_events (s : t) (clock clock' : list Z)
    (body : Js.Value) (host : string) (port : Z)
    (cr : option CompressionResult.t) (messageId dataString : string)
    (g : SnowflakeIdGenerator.t) (chunks : list string) :
  SnowflakeIdGenerator.generate (_idGenerator s) clock
  = SnowflakeIdGenerator.Id messageId g clock' ->
  text_of body = Some dataString ->
  ChunkingHandler.createChunks (_chunkingHandler s)
    (ChunkingHandler.OfString dataString) = Some chunks ->
  (length chunks <= length clock')%nat ->
  exists s',
    _sendChunkedMessage s clock body host port cr
    = Some (s', drop (length chunks) clock',
            datagram host port
              <$> chunkEnvelopes (_config s) messageId cr (length chunks) 0 chunks,
            None).
Proof.
  intros Hid Htext Hchunks Hclock. unfold _sendChunkedMessage.
  rewrite Hid, Htext. cbn [_chunkingHandler with_idGenerator]. rewrite Hchunks.
  destruct (sendChunksFrom_events (with_idGenerator s g) clock' messageId cr
              host port (length chunks) 0 chunks Hclock) as (s' & -> & _).
  exists s'. reflexivity.
Qed.

(** C3. Let [finalSize] be the byte length of the body to send, after
    the optional compression, and let an identifier be generated.  If
    [finalSize <= maxMessageSize], the send path emits a single REQ
    envelope with the chunked flag clear.  If [finalSize > maxMessageSize]
    (and the chunk size is positive), the body is cut in
    [ceil(finalSize / chunkSize)] chunks and the send path emits one
    chunked envelope per chunk; a body of [maxMessageSize + 1] bytes with
    [chunkSize <= maxMessageSize] makes at least 2 chunks.  The cut is a
    split of the body: the chunks are the base64 texts of consecutive
    pieces of the bytes of its text, which put together are these bytes,
    every piece of [chunkSize] bytes but the last, which is not empty;
    the envelope at index [i] carries the chunk at index [i]. *)
Theorem send_single_or_chunked (s : t) (clock clock' : list Z)
    (message body : Js.Value) (host : string) (port : Z) (callback : bool)
    (cr : option CompressionResult.t) (finalSize : Z) (messageId : string)
    (g : SnowflakeIdGenerator.t) :
  prepare s message = Some (body, cr, finalSize) ->
  SnowflakeIdGenerator.generate (_idGenerator s) clock
  = SnowflakeIdGenerator.Id messageId g clock' ->
  (finalSize <= maxMessageSize (_config s) ->
   clock' <> [] ->
   exists s' e,
     _sendMessageAsync s clock message host port callback
     = Some (s', tail clock', [datagram host port e], None)
     /\ MessageEnvelope.id e = messageId
     /\ MessageEnvelope.body e = body
     /\ MessageEnvelopeHandler.decodeFlags (MessageEnvelope.flags e)
        = Some {| DecodedFlags.type := MessageType_value REQ;
                  DecodedFlags.codec := codec_of cr;
                  DecodedFlags.isCompressed := bool_decide (is_Some cr);
                  DecodedFlags.isChunked := false |}
     /\ MessageEnvelope.ci e = None
     /\ MessageEnvelope.ct e = None)
  /\ (maxMessageSize (_config s) < finalSize ->
      0 < ChunkingHandler.chunkSize (ChunkingHandler._config (_chunkingHandler s)) ->
      exists dataString chunks,
        text_of body = Some dataString
        /\ Js.byteLength dataString = finalSize
        /\ ChunkingHandler.createChunks (_chunkingHandler s)
             (ChunkingHandler.OfString dataString) = Some chunks
        /\ ceiling finalSize
             (ChunkingHandler.chunkSize (ChunkingHandler._config (_chunkingHandler s)))
             (Z.of_nat (length chunks))
        /\ (finalSize = maxMessageSize (_config s) + 1 ->
            ChunkingHandler.chunkSize (ChunkingHandler._config (_chunkingHandler s))
            <= maxMessageSize (_config s) ->
            (2 <= length chunks)%nat)
        /\ ((length chunks <= length clock')%nat ->
            exists s',
              _sendMessageAsync s clock message host port callback
              = Some (s', drop (length chunks) clock',
                      datagram host port
                        <$> chunkEnvelopes (_config s) messageId cr
                              (length chunks) 0 chunks,
                      None))
        /\ Forall (fun e =>
                     isChunked_of e = Some true
                     /\ MessageEnvelope.ct e = Some (Z.of_nat (length chunks)))
                  (chunkEnvelopes (_config s) messageId cr (length chunks) 0 chunks)
        /\ exists pieces,
             chunks = Js.base64_encode <$> pieces
             /\ concat pieces = Js.Buffer_from_utf8 dataString
             /\ forall (i : nat) (p : list byte),
                  pieces !! i = Some p ->
                  0 < Z.of_nat (length p)
                    <= ChunkingHandler.chunkSize
                         (ChunkingHandler._config (_chunkingHandler s))
                  /\ ((S i < length pieces)%nat ->
                      Z.of_nat (length p)
                      = ChunkingHandler.chunkSize
                          (ChunkingHandler._config (_chunkingHandler s)))
                  /\ exists e,
                       chunkEnvelopes (_config s) messageId cr (length chunks) 0
                         chunks !! i = Some e
                       /\ MessageEnvelope.body e
                          = Js.JsString (Js.base64_encode p)
                       /\ MessageEnvelope.ci e = Some (Z.of_nat i)).
Proof.
  intros Hprepare Hid.
  destruct (prepare_Some s message body cr finalSize Hprepare)
    as (finalString & Htext & ->).
  split.
  - intros Hfits Hclock.
    destruct clock' as [| now clock']; [contradiction |].
    unfold _sendMessageAsync. rewrite Hprepare.
    apply Z.leb_le in Hfits. rewrite Hfits.
    destruct (sendSingleMessage_events s clock clock' body host port cr
                messageId finalString g now Hid Htext)
      as (s' & checksum & ->).
    exists s', (singleEnvelope messageId body checksum cr).
    split; [reflexivity |]. apply singleEnvelope_fields.
  - intros Hover Hsize.
    destruct (createChunks_ceiling (_chunkingHandler s) finalString Hsize)
      as (chunks & Hchunks & Hceiling).
    exists finalString, chunks.
    split; [exact Htext |]. split; [reflexivity |].
    split; [exact Hchunks |]. split; [exact Hceiling |]. split.
    { intros Hone Hsmall. rewrite Hone in Hceiling.
      assert (2 <= Z.of_nat (length chunks)); [| lia].
      apply (ceiling_over_limit (maxMessageSize (_config s))
               (ChunkingHandler.chunkSize
                  (ChunkingHandler._config (_chunkingHandler s))));
        [lia | exact Hceiling]. }
    split.
    { intros Hclock. unfold _sendMessageAsync. rewrite Hprepare.
      apply Z.leb_gt in Hover. rewrite Hover.
      destruct (sendChunkedMessage_events s clock clock' body host port cr
                  messageId finalString g chunks Hid Htext Hchunks Hclock)
        as (s' & ->).
      exists s'. reflexivity. }
    split.
    { apply Forall_lookup. intros j e He.
      rewrite chunkEnvelopes_lookup in He.
      destruct (chunks !! j) as [chunk |]; [| discriminate].
      cbn [Nat.add fmap option_fmap option_map] in He. injection He as <-.
      destruct (chunkEnvelope_fields (_config s) messageId cr (length chunks)
                  j chunk) as (_ & _ & _ & Hct & Hflags & _).
      unfold isChunked_of. rewrite Hflags. split; [reflexivity | exact Hct]. }
    destruct (createChunks_slices (_chunkingHandler s)
                (ChunkingHandler.OfString finalString) Hsize)
      as (pieces & Hcut & Hcat & _ & Hpieces).
    rewrite Hchunks in Hcut. injection Hcut as ->.
    exists pieces. split; [reflexivity |]. split; [exact Hcat |].
    intros i p Hp. destruct (Hpieces i p Hp) as [Hlength Hfull].
    split; [exact Hlength |]. split; [exact Hfull |].
    eexists. rewrite chunkEnvelopes_lookup, list_lookup_fmap, Hp.
    split; [reflexivity |].
    destruct (chunkEnvelope_fields (_config s) messageId cr
                (length (Js.base64_encode <$> pieces)) (0 + i)
                (Js.base64_encode p)) as (_ & Hbody & Hci & _).
    split; [exact Hbody | exact Hci].
Qed.

(** C4. For every chunked send of [N] chunks with compression applied,
    the datagrams sent are those of [N] envelopes, and the envelope of
    chunk [i] has the id [base_id-chunk-i], [ci = i] and [ct = N]; all
    carry the codec of the compression in their codec bits; the
    compressed flag and the sizes [os] and [cs] are on chunk 0 and on no
    other. *)
Theorem chunked_send_compressed (s : t) (clock clock' : list Z)
    (body : Js.Value) (host : string) (port : Z) (r : CompressionResult.t)
    (messageId dataString : string) (g : SnowflakeIdGenerator.t)
    (chunks : list string) :
  SnowflakeIdGenerator.generate (_idGenerator s) clock
  = SnowflakeIdGenerator.Id messageId g clock' ->
  text_of body = Some dataString ->
  ChunkingHandler.createChunks (_chunkingHandler s)
    (ChunkingHandler.OfString dataString) = Some chunks ->
  (length chunks <= length clock')%nat ->
  exists s' envelopes,
    _sendChunkedMessage s clock body host port (Some r)
    = Some (s', drop (length chunks) clock',
            datagram host port <$> envelopes, None)
    /\ length envelopes = length chunks
    /\ forall (i : nat) (e : MessageEnvelope.t),
         envelopes !! i = Some e ->
         MessageEnvelope.id e
         = messageId +:+ "-chunk-" +:+ Js.BigInt_toString (Z.of_nat i)
         /\ MessageEnvelope.ci e = Some (Z.of_nat i)
         /\ MessageEnvelope.ct e = Some (Z.of_nat (length chunks))
         /\ (exists f,
               MessageEnvelope.flags e = Some f
               /\ Js.bitand f FlagBits.CODEC_MASK
                  = CompressionCodecType_value (CompressionResult.codec r))
         /\ MessageEnvelopeHandler.decodeFlags (MessageEnvelope.flags e)
            = Some {| DecodedFlags.type := MessageType_value REQ;
                      DecodedFlags.codec := CompressionResult.codec r;
                      DecodedFlags.isCompressed := (i =? 0)%nat;
                      DecodedFlags.isChunked := true |}
         /\ MessageEnvelope.os e
            = (if (i =? 0)%nat
               then Some (CompressionResult.originalSize r) else None)
         /\ MessageEnvelope.cs e
            = (if (i =? 0)%nat
               then Some (CompressionResult.compressedSize r) else None).
Proof.
  intros Hid Htext Hchunks Hclock.
  destruct (sendChunkedMessage_events s clock clock' body host port (Some r)
              messageId dataString g chunks Hid Htext Hchunks Hclock)
    as (s' & Hrun).
  exists s', (chunkEnvelopes (_config s) messageId (Some r) (length chunks) 0 chunks).
  split; [exact Hrun |]. split.
  { unfold chunkEnvelopes. apply length_imap. }
  intros i e He. rewrite chunkEnvelopes_lookup in He.
  destruct (chunks !! i) as [chunk |]; [| discriminate].
  cbn [Nat.add fmap option_fmap option_map] in He. injection He as <-.
  destruct (chunkEnvelope_fields (_config s) messageId (Some r) (length chunks)
              i chunk)
    as (Hident & _ & Hci & Hct & Hflags & Hbits & Hos & Hcs).
  rewrite bool_decide_true in Hflags, Hos, Hcs by eauto.
  auto 10.
Qed.

End Send.

Section SendExamples.
Import ReliableUdpSocket.
#[local] Existing Instance Node.builtins.

(** On the default socket: a message of 5 bytes is sent whole, a message
    of 1401 bytes in at least two datagrams. *)
Lemma send_single_or_chunked_witness :
  (exists s' e,
     _sendMessageAsync default_socket [at_noon; at_noon] hello
       "127.0.0.1" 41234 true
     = Some (s', [], [datagram "127.0.0.1" 41234 e], None)
     /\ isChunked_of e = Some false)
  /\ (exists s' events,
        _sendMessageAsync default_socket [at_noon; at_noon; at_noon]
          one_byte_over "127.0.0.1" 41234 true
        = Some (s', [], events, None)
        /\ (2 <= length events)%nat).
Proof.
  split.
  - destruct (send_single_or_chunked default_socket [at_noon; at_noon]
                [at_noon] hello hello "127.0.0.1" 41234 true None 5
                "375796216627200000" after_first_id)
      as [Hsingle _]; [vm_compute; reflexivity | vm_compute; reflexivity |].
    destruct Hsingle as (s' & e & Hrun & _ & _ & Hflags & _);
      [evaluate | discriminate |].
    exists s', e. split; [exact Hrun |].
    unfold isChunked_of. rewrite Hflags. reflexivity.
  - destruct (send_single_or_chunked default_socket
                [at_noon; at_noon; at_noon] [at_noon; at_noon]
                one_byte_over one_byte_over "127.0.0.1" 41234 true None 1401
                "375796216627200000" after_first_id)
      as [_ Hchunked]; [vm_compute; reflexivity | vm_compute; reflexivity |].
    destruct Hchunked
      as (dataString & chunks & _ & _ & _ & Hceiling & Htwo & Hrun & _);
      [evaluate | evaluate |].
    assert (Hcount : (2 <= length chunks)%nat).
    { apply Htwo; evaluate. }
    assert (Hclock : (length chunks <= 2)%nat).
    { unfold ceiling in Hceiling.
      change (ChunkingHandler.chunkSize
                (ChunkingHandler._config (_chunkingHandler default_socket)))
        with 1200 in Hceiling.
      lia. }
    destruct (Hrun Hclock) as (s' & Hsent).
    assert (Hexact : length chunks = 2%nat) by lia.
    rewrite Hexact in Hsent at 1.
    exists s'. eexists. split; [exact Hsent |].
    rewrite length_fmap. unfold chunkEnvelopes. rewrite length_imap.
    exact Hcount.
Defined.

(** On the socket with compression: the 4000-byte message, compressed
    and cut in chunks. *)
Lemma chunked_send_compressed_witness :
  exists s' envelopes,
    _sendChunkedMessage gzip_socket five_readings
      (Js.JsString (CompressionResult.data runs_4000_compressed))
      "127.0.0.1" 41234 (Some runs_4000_compressed)
    = Some (s', drop (length runs_4000_chunks) (repeat at_noon 4),
            datagram "127.0.0.1" 41234 <$> envelopes, None)
    /\ length envelopes = length runs_4000_chunks.
Proof.
  destruct (chunked_send_compressed gzip_socket five_readings (repeat at_noon 4)
              (Js.JsString (CompressionResult.data runs_4000_compressed))
              "127.0.0.1" 41234 runs_4000_compressed "375796216627200000"
              (CompressionResult.data runs_4000_compressed) after_first_id
              runs_4000_chunks)
    as (s' & envelopes & Hrun & Hlength & _).
  - vm_compute. reflexivity.
  - reflexivity.
  - vm_compute. reflexivity.
  - vm_compute. repeat constructor.
  - exists s', envelopes. split; [exact Hrun | exact Hlength].
Defined.

(** The whole send path on that message: compressed, then cut in four
    chunks; the id, the indices, the flags byte and the sizes of each
    envelope. *)
Example send_compressed_chunked :
  prepare gzip_socket runs_4000
  = Some (Js.JsString (CompressionResult.data runs_4000_compressed),
          Some runs_4000_compressed, 4008)
  /\ CompressionResult.codec runs_4000_compressed = GZIP
  /\ map (fun e => (MessageEnvelope.id e, MessageEnvelope.ci e,
                    MessageEnvelope.ct e, MessageEnvelope.flags e,
                    MessageEnvelope.os e, MessageEnvelope.cs e))
         (chunkEnvelopes (_config gzip_socket) "375796216627200000"
            (Some runs_4000_compressed) 4 0 runs_4000_chunks)
     = [("375796216627200000-chunk-0", Some 0, Some 4, Some 25,
         Some 4002, Some 3004);
        ("375796216627200000-chunk-1", Some 1, Some 4, Some 17, None, None);
        ("375796216627200000-chunk-2", Some 2, Some 4, Some 17, None, None);
        ("375796216627200000-chunk-3", Some 3, Some 4, Some 17, None, None)].
Proof. vm_compute. repeat split; reflexivity. Qed.

End SendExamples.

(** * Further properties

    What the code shows beyond the properties above: edge cases, round
    trips, invariants, and how the operations compose. *)

(** ** The identifier generator: order, errors, round trip *)

Section SnowflakeOrder.
Import SnowflakeIdGenerator.

Lemma land_MAX_SEQUENCE (x : Z) :
  0 <= Z.land x Constants.SNOWFLAKE_MAX_SEQUENCE <= 4095.
Proof.
  change Constants.SNOWFLAKE_MAX_SEQUENCE with (Z.ones 12).
  rewrite Z.land_ones by lia. change (2 ^ 12) with 4096.
  pose proof (Z.mod_pos_bound x 4096). lia.
Qed.

Lemma waitNextMillis_later (last : Z) (clock rest : list Z) (timestamp : Z) :
  _waitNextMillis last clock = Some (timestamp, rest) -> last < timestamp.
Proof.
  induction clock as [| x clock IH]; simpl; [discriminate |].
  destruct (x <=? last) eqn:Hx; [exact IH |].
  intros [= <- _]. apply Z.leb_gt in Hx. exact Hx.
Qed.

(** One call of [generate] that returns: the sequence stays in its twelve
    bits, and the state moves to a later millisecond or, within the
    millisecond, to the next sequence number. *)
Lemma generate_step (g g' : t) (clock clock' : list Z) (id : string) :
  generate g clock = Id id g' clock' ->
  id = Js.BigInt_toString (lastId g')
  /\ _config g' = _config g
  /\ 0 <= _sequence g' <= 4095
  /\ (_lastTimestamp g < _lastTimestamp g'
      \/ (_lastTimestamp g' = _lastTimestamp g
          /\ (0 <= _sequence g <= 4095 -> _sequence g' = _sequence g + 1))).
Proof.
  unfold generate, lastId. destruct clock as [| now clock]; [discriminate |].
  destruct (now =? _lastTimestamp g) eqn:Hnow.
  - pose proof (land_MAX_SEQUENCE (_sequence g + 1)) as Hrange.
    destruct (Z.land (_sequence g + 1) Constants.SNOWFLAKE_MAX_SEQUENCE =? 0)
      eqn:Hwrap.
    + destruct (_waitNextMillis (_lastTimestamp g) clock) as [[t1 c1] |] eqn:Hwait;
        [| discriminate].
      apply waitNextMillis_later in Hwait.
      destruct (t1 <? _lastTimestamp g) eqn:Hback; [discriminate |].
      intros [= <- <- <-]. simpl. repeat split; lia.
    + apply Z.eqb_eq in Hnow. apply Z.eqb_neq in Hwrap.
      destruct (now <? _lastTimestamp g) eqn:Hback; [discriminate |].
      intros [= <- <- <-]. simpl. repeat split; try lia.
      right. split; [exact Hnow |]. intros Hseq.
      revert Hwrap Hrange.
      change Constants.SNOWFLAKE_MAX_SEQUENCE with (Z.ones 12).
      rewrite Z.land_ones by lia. change (2 ^ 12) with 4096.
      intros Hwrap Hrange.
      destruct (Z.eq_dec (_sequence g) 4095) as [Hlast | Hnot];
        [exfalso; apply Hwrap; rewrite Hlast; reflexivity |].
      apply Z.mod_small. lia.
  - apply Z.eqb_neq in Hnow.
    destruct (now <? _lastTimestamp g) eqn:Hback; [discriminate |].
    apply Z.ltb_ge in Hback.
    intros [= <- <- <-]. simpl. repeat split; lia.
Qed.

(** The packed value grows with every identifier returned. *)
Lemma generate_lastId (g g' : t) (clock clock' : list Z) (id : string) :
  0 <= workerId (_config g) <= 1023 ->
  0 <= _sequence g <= 4095 ->
  generate g clock = Id id g' clock' ->
  lastId g < lastId g'.
Proof.
  intros Hw Hs Hg.
  destruct (generate_step _ _ _ _ _ Hg) as (_ & Hc & Hs' & Hmove).
  unfold lastId. rewrite !compose_sum by (rewrite ?Hc; assumption).
  rewrite Hc. destruct Hmove as [Hlater | [Hsame Hnext]]; [nia |].
  rewrite Hsame, (Hnext Hs). lia.
Qed.

Lemma generateMany_values (n : nat) (g g' : t) (clock clock' : list Z)
    (ids : list string) :
  0 <= workerId (_config g) <= 1023 ->
  0 <= _sequence g <= 4095 ->
  generateMany g clock n = Some (ids, g', clock') ->
  exists values,
    ids = Js.BigInt_toString <$> values
    /\ StronglySorted Z.lt values
    /\ Forall (fun v => lastId g < v) values.
Proof.
  revert g clock ids. induction n as [| n IH]; intros g clock ids Hw Hs; simpl.
  - intros [= <- _ _]. exists []. repeat split; constructor.
  - destruct (generate g clock) as [id g1 clock1 | |] eqn:Hg; try discriminate.
    destruct (generateMany g1 clock1 n) as [[[rest g2] clock2] |] eqn:Hrest;
      [| discriminate].
    intros [= <- <- <-].
    destruct (generate_step _ _ _ _ _ Hg) as (Hid & Hc & Hs' & _).
    pose proof (generate_lastId _ _ _ _ _ Hw Hs Hg) as Hgrow.
    destruct (IH g1 clock1 rest) as (values & -> & Hsorted & Hlow);
      [rewrite Hc; assumption | assumption | exact Hrest |].
    exists (lastId g1 :: values). repeat split.
    + simpl. rewrite Hid. reflexivity.
    + constructor; assumption.
    + constructor; [exact Hgrow |].
      eapply Forall_impl; [exact Hlow |]. simpl. intros v Hv. lia.
Qed.

(** X1. The identifiers one generator returns in a run of calls without an
    exception are the decimal strings of strictly increasing numbers; no two
    of them are equal. *)
Theorem generateMany_increasing (n : nat) (g g' : t) (clock clock' : list Z)
    (ids : list string) :
  0 <= workerId (_config g) <= 1023 ->
  0 <= _sequence g <= 4095 ->
  generateMany g clock n = Some (ids, g', clock') ->
  (exists values,
     ids = Js.BigInt_toString <$> values /\ StronglySorted Z.lt values)
  /\ NoDup ids.
Proof.
  intros Hw Hs Hrun.
  destruct (generateMany_values _ _ _ _ _ _ Hw Hs Hrun)
    as (values & -> & Hsorted & _).
  split; [exists values; split; [reflexivity | exact Hsorted] |].
  apply NoDup_fmap_2_strong.
  - intros x y _ _ Heq.
    pose proof (BigInt_of_string_toString x) as Hx.
    rewrite Heq, BigInt_of_string_toString in Hx. congruence.
  - clear - Hsorted. induction Hsorted as [| v values _ IH Hall]; constructor.
    + intros Hin. rewrite Forall_forall in Hall. specialize (Hall _ Hin). lia.
    + exact IH.
Qed.

(** X2. [generate] throws exactly when the clock reads a millisecond before
    the last one used; the last timestamp is kept and the sequence is set
    to 0.  It never returns an identifier for an earlier millisecond. *)
Theorem generate_clock_backwards (g : t) (now : Z) (clock : list Z) :
  (now < _lastTimestamp g ->
   generate g (now :: clock)
   = ClockBackwards
       {| _config := _config g; _sequence := 0;
          _lastTimestamp := _lastTimestamp g |} clock)
  /\ (forall g' clock',
        generate g (now :: clock) = ClockBackwards g' clock' ->
        now < _lastTimestamp g)
  /\ (forall id g' clock',
        generate g (now :: clock) = Id id g' clock' ->
        _lastTimestamp g <= _lastTimestamp g' /\ now <= _lastTimestamp g').
Proof.
  repeat split.
  - intros Hback. unfold generate.
    destruct (now =? _lastTimestamp g) eqn:Hnow; [apply Z.eqb_eq in Hnow; lia |].
    destruct (now <? _lastTimestamp g) eqn:Hlt; [reflexivity |].
    apply Z.ltb_ge in Hlt. lia.
  - intros g' clock'. unfold generate.
    destruct (now =? _lastTimestamp g) eqn:Hnow.
    + destruct (Z.land (_sequence g + 1) Constants.SNOWFLAKE_MAX_SEQUENCE =? 0).
      * destruct (_waitNextMillis (_lastTimestamp g) clock) as [[t1 c1] |] eqn:Hwait;
          [| discriminate].
        apply waitNextMillis_later in Hwait.
        destruct (t1 <? _lastTimestamp g) eqn:Hlt; [| discriminate].
        apply Z.ltb_lt in Hlt. lia.
      * destruct (now <? _lastTimestamp g) eqn:Hlt; [| discriminate].
        apply Z.ltb_lt in Hlt. intros _. exact Hlt.
    + destruct (now <? _lastTimestamp g) eqn:Hlt; [| discriminate].
      apply Z.ltb_lt in Hlt. intros _. exact Hlt.
  - destruct (generate_step _ _ _ _ _ H) as (_ & _ & _ & Hmove). lia.
  - revert H. unfold generate.
    destruct (now =? _lastTimestamp g) eqn:Hnow.
    + apply Z.eqb_eq in Hnow.
      destruct (Z.land (_sequence g + 1) Constants.SNOWFLAKE_MAX_SEQUENCE =? 0).
      * destruct (_waitNextMillis (_lastTimestamp g) clock) as [[t1 c1] |] eqn:Hwait;
          [| discriminate].
        apply waitNextMillis_later in Hwait.
        destruct (t1 <? _lastTimestamp g); [discriminate |].
        intros [= _ <- _]. simpl. lia.
      * destruct (now <? _lastTimestamp g); [discriminate |].
        intros [= _ <- _]. simpl. lia.
    + destruct (now <? _lastTimestamp g); [discriminate |].
      intros [= _ <- _]. simpl. lia.
Qed.

(** X3. [parse] reads back from an identifier [generate] returned the
    millisecond, the worker id and the sequence number it was made of. *)
Theorem parse_generate (g g' : t) (clock clock' : list Z) (id : string) :
  0 <= workerId (_config g) <= 1023 ->
  generate g clock = Id id g' clock' ->
  0 <= _lastTimestamp g' - epoch (_config g) < 2 ^ 41 ->
  Z.abs (_lastTimestamp g') <= 8640000000000000 ->
  parse g' id
  = Some {| timestamp := _lastTimestamp g';
            p_workerId := workerId (_config g);
            sequence := _sequence g' |}.
Proof.
  intros Hw Hg Hts Htime.
  destruct (generate_step _ _ _ _ _ Hg) as (-> & Hc & Hs & _).
  unfold parse, lastId. rewrite <- Hc in Hw, Hts |- *.
  rewrite BigInt_of_string_toString, compose_sum by assumption.
  destruct (fields_of_sum (_lastTimestamp g' - epoch (_config g')) _ _ Hw Hs)
    as (Hq & Hworker & Htimestamp).
  rewrite Hq, Hworker, Htimestamp.
  rewrite !Number_of_BigInt_safe by lia.
  f_equal. f_equal. lia.
Qed.

End SnowflakeOrder.

Section SnowflakeOrderExamples.
Import SnowflakeIdGenerator.

(** Three identifiers in two milliseconds. *)
Lemma generateMany_increasing_witness :
  (exists values,
     ["375796216627372032"; "375796216627372033"; "375796216631566336"]
     = Js.BigInt_toString <$> values /\ StronglySorted Z.lt values)
  /\ NoDup ["375796216627372032"; "375796216627372033"; "375796216631566336"].
Proof.
  apply (generateMany_increasing 3 worker42
           {| _config := _config worker42; _sequence := 0;
              _lastTimestamp := 1793664000001 |}
           [1793664000000; 1793664000000; 1793664000001] []);
    [evaluate | evaluate | vm_compute; reflexivity].
Defined.

Lemma parse_generate_witness :
  parse {| _config := _config worker42; _sequence := 0;
           _lastTimestamp := 1793664000000 |} "375796216627372032"
  = Some {| timestamp := 1793664000000; p_workerId := 42; sequence := 0 |}.
Proof.
  refine (parse_generate worker42
            {| _config := _config worker42; _sequence := 0;
               _lastTimestamp := 1793664000000 |}
            [1793664000000] [] "375796216627372032" _ _ _ _); evaluate.
Defined.

End SnowflakeOrderExamples.

(** ** Base64: the text of a buffer, and the concrete decoder *)

Section Base64.

(** Linear arithmetic with divisions and remainders by constants. *)
Ltac euclid := zify; Z.to_euclidean_division_equations; lia.

(** Lists taken three items at a time. *)
Lemma list_ind3 {A : Type} (P : list A -> Prop) :
  P [] -> (forall a, P [a]) -> (forall a b, P [a; b]) ->
  (forall a b c l, P l -> P (a :: b :: c :: l)) ->
  forall l, P l.
Proof.
  intros H0 H1 H2 H3 l.
  assert (Hall : P l /\ (forall a, P (a :: l)) /\ (forall a b, P (a :: b :: l))).
  { induction l as [| x l (IH0 & IH1 & IH2)]; [auto |].
    split; [apply IH1 |]. split; [intros a; apply IH2 |].
    intros a b. apply H3. exact IH0. }
  apply Hall.
Qed.

(** [buf.toString('base64')] has four characters for every three bytes,
    the last group padded. *)
Lemma length_base64_encode (bs : list byte) :
  String.length (Js.base64_encode bs) = (4 * ((length bs + 2) / 3))%nat.
Proof.
  induction bs as [| a | a b | a b c bs IH] using list_ind3; try reflexivity.
  cbn [Js.base64_encode String.length length]. rewrite IH.
  replace (S (S (S (length bs))) + 2)%nat with (length bs + 2 + 1 * 3)%nat by lia.
  rewrite Nat.div_add by lia. lia.
Qed.

Lemma sextet_base64_digit (n : N) :
  (n < 64)%N ->
  Node.sextet (Js.base64_digit n) = Some n
  /\ Ascii.eqb (Js.base64_digit n) "="%char = false.
Proof.
  intros Hn.
  assert (Hall :
    forallb (fun k =>
               match Node.sextet (Js.base64_digit k) with
               | Some m => N.eqb m k
               | None => false
               end && negb (Ascii.eqb (Js.base64_digit k) "="%char))
            (map N.of_nat (seq 0 64)) = true) by (vm_compute; reflexivity).
  rewrite forallb_forall in Hall. specialize (Hall n).
  destruct (Node.sextet (Js.base64_digit n)) as [m |].
  - assert (Hin : In n (map N.of_nat (seq 0 64))).
    { apply in_map_iff. exists (N.to_nat n). split; [lia |]. apply in_seq. lia. }
    apply Hall in Hin. apply andb_true_iff in Hin as [Hm Hpad].
    apply N.eqb_eq in Hm. apply negb_true_iff in Hpad. subst m. auto.
  - assert (Hin : In n (map N.of_nat (seq 0 64))).
    { apply in_map_iff. exists (N.to_nat n). split; [lia |]. apply in_seq. lia. }
    apply Hall in Hin. discriminate.
Qed.

Lemma sextets_base64_digit (n : N) (rest : string) :
  (n < 64)%N ->
  Node.sextets (String (Js.base64_digit n) rest) = n :: Node.sextets rest.
Proof.
  intros Hn. destruct (sextet_base64_digit n Hn) as [Hs Hpad].
  cbn [Node.sextets]. rewrite Hpad, Hs. reflexivity.
Qed.

Lemma octet_to_N (a : byte) (n : N) :
  (n mod 256 = Byte.to_N a)%N -> Node.octet n = a.
Proof.
  intros Hn. unfold Node.octet. rewrite Hn, Byte.of_to_N. reflexivity.
Qed.

(** The concrete decoder reads back every buffer from its base64 text. *)
Lemma base64_decode_encode (bs : list byte) :
  Node.base64_decode (Js.base64_encode bs) = bs.
Proof.
  unfold Node.base64_decode.
  induction bs as [| a | a b | a b c bs IH] using list_ind3.
  - reflexivity.
  - pose proof (Byte.to_N_bounded a) as Ha.
    cbn [Js.base64_encode]. rewrite !sextets_base64_digit by euclid.
    cbn [Node.sextets Node.octets]. simpl Ascii.eqb. cbn iota.
    f_equal. apply octet_to_N. euclid.
  - pose proof (Byte.to_N_bounded a) as Ha.
    pose proof (Byte.to_N_bounded b) as Hb.
    cbn [Js.base64_encode]. rewrite !sextets_base64_digit by euclid.
    cbn [Node.sextets Node.octets]. simpl Ascii.eqb. cbn iota.
    f_equal; [| f_equal]; apply octet_to_N; euclid.
  - pose proof (Byte.to_N_bounded a) as Ha.
    pose proof (Byte.to_N_bounded b) as Hb.
    pose proof (Byte.to_N_bounded c) as Hc.
    cbn [Js.base64_encode]. rewrite !sextets_base64_digit by euclid.
    cbn [Node.octets]. rewrite IH.
    f_equal; [| f_equal; [| f_equal]]; apply octet_to_N; euclid.
Qed.

End Base64.

(** ** The chunker and the reassembler together *)

Section Arrivals.
Import ChunkingHandler.
Context `{Js.Builtins}.

Lemma slots_lookup (seen : gset nat) (texts : list string) (j : nat) :
  slots seen texts !! j
  = (fun text => if decide (j ∈ seen) then Js.JsString text else Js.JsNull)
      <$> texts !! j.
Proof. unfold slots. rewrite list_lookup_imap. reflexivity. Qed.

Lemma length_slots (seen : gset nat) (texts : list string) :
  length (slots seen texts) = length texts.
Proof. unfold slots. apply length_imap. Qed.

Lemma slots_insert (seen : gset nat) (texts : list string) (i : nat)
    (text : string) :
  texts !! i = Some text ->
  <[i := Js.JsString text]> (slots seen texts) = slots ({[i]} ∪ seen) texts.
Proof.
  intros Hi. apply list_eq. intros j.
  destruct (decide (i = j)) as [<- | Hne].
  - rewrite list_lookup_insert_eq
      by (rewrite length_slots; eapply lookup_lt_Some; exact Hi).
    rewrite slots_lookup, Hi. simpl.
    destruct (decide (i ∈ {[i]} ∪ seen)) as [_ | Hout]; [reflexivity |].
    exfalso. apply Hout. set_solver.
  - rewrite list_lookup_insert_ne by exact Hne.
    rewrite !slots_lookup. destruct (texts !! j) as [text' |]; [| reflexivity].
    simpl. destruct (decide (j ∈ seen)) as [Hin | Hout];
      destruct (decide (j ∈ {[i]} ∪ seen)) as [Hin' | Hout'];
      try reflexivity; exfalso; set_solver.
Qed.

(** One chunk arrives: its slot is filled and counted, unless it was
    filled before. *)
Lemma addChunk_arrival (h : t) (messageId : string)
    (a : ChunkedMessageAssembly) (seen : gset nat) (texts : list string)
    (i : nat) (text : string) :
  _assemblies h !! messageId = Some a ->
  chunks a = slots seen texts ->
  receivedCount a = Z.of_nat (size seen) ->
  texts !! i = Some text ->
  exists a',
    _assemblies (fst (addChunk h messageId (Z.of_nat i) (Js.JsString text)))
      !! messageId = Some a'
    /\ chunks a' = slots ({[i]} ∪ seen) texts
    /\ receivedCount a' = Z.of_nat (size ({[i]} ∪ seen))
    /\ totalChunks a' = totalChunks a
    /\ compressionCodec a' = compressionCodec a
    /\ timestamp a' = timestamp a.
Proof.
  intros Ha Hslots Hcount Hi. unfold addChunk. rewrite Ha.
  assert (Hslot : array_get (chunks a) (Z.of_nat i)
                  = if decide (i ∈ seen) then Js.JsString text else Js.JsNull).
  { apply array_get_inside. rewrite Hslots, slots_lookup, Hi. reflexivity. }
  rewrite Hslot. destruct (decide (i ∈ seen)) as [Hin | Hout]; simpl.
  - assert (Hsame : {[i]} ∪ seen = seen) by set_solver.
    exists a. rewrite Hsame. repeat split; assumption.
  - eexists. rewrite lookup_insert_eq. split; [reflexivity |]. simpl.
    rewrite Nat2Z.id, Hslots, (slots_insert _ _ _ _ Hi), Hcount.
    repeat split.
    rewrite size_union, size_singleton by set_solver. lia.
Qed.

(** Any sequence of arrivals, in any order and with repetitions. *)
Lemma addChunks_arrivals (calls : list (Z * Js.Value)) (h : t)
    (messageId : string) (a : ChunkedMessageAssembly) (seen : gset nat)
    (texts : list string) :
  _assemblies h !! messageId = Some a ->
  chunks a = slots seen texts ->
  receivedCount a = Z.of_nat (size seen) ->
  Forall (arrival texts) calls ->
  exists a',
    _assemblies (addChunks h messageId calls) !! messageId = Some a'
    /\ chunks a' = slots (arrived calls ∪ seen) texts
    /\ receivedCount a' = Z.of_nat (size (arrived calls ∪ seen))
    /\ totalChunks a' = totalChunks a
    /\ compressionCodec a' = compressionCodec a
    /\ timestamp a' = timestamp a.
Proof.
  revert h a seen. induction calls as [| call calls IH]; intros h a seen Ha Hs Hc Hcalls.
  - exists a. assert (Hsame : arrived [] ∪ seen = seen) by set_solver.
    rewrite Hsame. repeat split; assumption.
  - apply Forall_cons in Hcalls as [(i & text & Hi & ->) Hcalls].
    destruct (addChunk_arrival h messageId a seen texts i text Ha Hs Hc Hi)
      as (a1 & Ha1 & Hs1 & Hc1 & Ht1 & Hcodec1 & Htime1).
    destruct (IH _ _ _ Ha1 Hs1 Hc1 Hcalls)
      as (a2 & Ha2 & Hs2 & Hc2 & Ht2 & Hcodec2 & Htime2).
    exists a2.
    assert (Hsets : arrived ((Z.of_nat i, Js.JsString text) :: calls) ∪ seen
                    = arrived calls ∪ ({[i]} ∪ seen)).
    { unfold arrived. simpl. rewrite Nat2Z.id. set_solver. }
    rewrite Hsets. simpl. repeat split; try assumption; congruence.
Qed.

Lemma arrived_bound (texts : list string) (calls : list (Z * Js.Value)) (i : nat) :
  Forall (arrival texts) calls -> i ∈ arrived calls -> (i < length texts)%nat.
Proof.
  intros Hcalls. unfold arrived. rewrite elem_of_list_to_set, list_elem_of_fmap.
  intros ((j & d) & -> & Hin). rewrite Forall_forall in Hcalls.
  destruct (Hcalls _ Hin) as (k & text & Hk & [= -> ->]). simpl.
  rewrite Nat2Z.id. eapply lookup_lt_Some. exact Hk.
Qed.

Lemma slots_all (seen : gset nat) (texts : list string) :
  (forall i, (i < length texts)%nat -> i ∈ seen) ->
  slots seen texts = Js.JsString <$> texts.
Proof.
  intros Hall. apply list_eq. intros j.
  rewrite slots_lookup, list_lookup_fmap.
  destruct (texts !! j) as [text |] eqn:Hj; [| reflexivity]. simpl.
  destruct (decide (j ∈ seen)) as [_ | Hout]; [reflexivity |].
  exfalso. apply Hout, Hall. eapply lookup_lt_Some. exact Hj.
Qed.

Lemma mapM_Buffer_from_base64 (texts : list string) :
  mapM Js.Buffer_from_base64 (Js.JsString <$> texts)
  = Some (Js.base64_decode <$> texts).
Proof.
  induction texts as [| text texts IH]; [reflexivity |].
  rewrite !fmap_cons. cbn [mapM]. rewrite IH. reflexivity.
Qed.

End Arrivals.

Section Reassemble.
Import ChunkingHandler.
Context `{Js.Builtins}.

Lemma imap_const {A B : Type} (v : B) (l : list A) :
  imap (fun _ _ => v) l = repeat v (length l).
Proof. induction l as [| x l IH]; [reflexivity |]. simpl. f_equal. exact IH. Qed.

Lemma slots_empty (texts : list string) :
  slots ∅ texts = repeat Js.JsNull (length texts).
Proof.
  rewrite <- imap_const. unfold slots. apply imap_ext. intros j text _.
  destruct (decide (j ∈ (∅ : gset nat))) as [Hin | _]; [set_solver | reflexivity].
Qed.

(** X4. With a positive chunk size, [createChunks] cuts the buffer in
    consecutive pieces that make it up: every piece but the last has
    [chunkSize] bytes, the last at least one; each chunk is the base64
    text of its piece, four characters for every three bytes. *)
Theorem createChunks_pieces (h : t) (data : ChunkSource) :
  0 < chunkSize (_config h) ->
  let buffer :=
    match data with OfString s => Js.Buffer_from_utf8 s | OfBuffer b => b end in
  exists pieces,
    createChunks h data = Some (Js.base64_encode <$> pieces)
    /\ concat pieces = buffer
    /\ forall (i : nat) (p : list byte),
         pieces !! i = Some p ->
         0 < Z.of_nat (length p) <= chunkSize (_config h)
         /\ Js.byteLength (Js.base64_encode p)
            = 4 * ((Z.of_nat (length p) + 2) / 3)
         /\ ((S i < length pieces)%nat ->
             Z.of_nat (length p) = chunkSize (_config h)).
Proof.
  intros Hsize buffer.
  destruct (createChunks_slices h data Hsize) as (pieces & Hc & Hcat & _ & Hp).
  exists pieces. split; [exact Hc |]. split; [exact Hcat |].
  intros i p Hi. destruct (Hp i p Hi) as [Hlen Hfull].
  split; [exact Hlen |]. split; [| exact Hfull].
  unfold Js.byteLength. rewrite length_base64_encode.
  rewrite Nat2Z.inj_mul, Nat2Z.inj_div, Nat2Z.inj_add. reflexivity.
Qed.

(** X5. The chunks of a message reassemble to it, whatever the order they
    arrive in and however often each of them arrives: once every index has
    arrived, [getAssembledData] returns the bytes of the message and the
    codec of the assembly; as long as an index is missing, it returns
    [null].  (The platform decodes the base64 text of a buffer to that
    buffer.) *)
Theorem reassemble_any_order (sender h0 h : t) (data : string)
    (texts : list string) (now : Z) (messageId : string)
    (remote : option RemoteInfo.t) (codec : option CompressionCodecType)
    (calls : list (Z * Js.Value)) :
  (forall bs, Js.base64_decode (Js.base64_encode bs) = bs) ->
  0 < chunkSize (_config sender) ->
  createChunks sender (OfString data) = Some texts ->
  initAssembly h0 now messageId (Z.of_nat (length texts)) remote codec = Some h ->
  Forall (arrival texts) calls ->
  ((forall i, (i < length texts)%nat -> i ∈ arrived calls) ->
   getAssembledData (addChunks h messageId calls) messageId
   = Some (Js.Buffer_from_utf8 data, codec))
  /\ (forall i, (i < length texts)%nat -> i ∉ arrived calls ->
      getAssembledData (addChunks h messageId calls) messageId = None).
Proof.
  intros Hbase64 Hsize Hcut Hinit Hcalls.
  unfold initAssembly in Hinit.
  destruct ((Z.of_nat (length texts) <? 0) || (4294967295 <? Z.of_nat (length texts)));
    [discriminate |].
  injection Hinit as <-.
  match goal with
  | |- context [addChunks ?h1 _ _] =>
      edestruct (addChunks_arrivals calls h1 messageId)
        with (seen := (∅ : gset nat)) (texts := texts)
        as (a & Ha & Hslots & Hcount & Htotal & Hcodec & _);
        [simpl; apply lookup_insert_eq
        | simpl; rewrite Nat2Z.id; symmetry; apply slots_empty
        | reflexivity | exact Hcalls |]
  end.
  simpl in Htotal, Hcodec.
  assert (Hseen : arrived calls ∪ ∅ = arrived calls) by set_solver.
  rewrite Hseen in Hslots, Hcount. clear Hseen.
  split.
  - intros Hall.
    assert (Hfull : arrived calls = set_seq 0 (length texts)).
    { apply set_eq. intros i. rewrite elem_of_set_seq. split.
      - intros Hin. pose proof (arrived_bound _ _ _ Hcalls Hin). lia.
      - intros [_ Hi]. apply Hall. exact Hi. }
    unfold getAssembledData. rewrite Ha, Hcount, Htotal, Hfull, size_set_seq.
    rewrite Z.eqb_refl. simpl.
    rewrite Hslots, (slots_all _ _ Hall).
    replace (existsb Js.is_null (Js.JsString <$> texts)) with false.
    + rewrite mapM_Buffer_from_base64, Hcodec.
      destruct (createChunks_slices sender (OfString data) Hsize)
        as (pieces & Hpieces & Hcat & _).
      rewrite Hcut in Hpieces. injection Hpieces as ->.
      rewrite <- list_fmap_compose.
      rewrite (list_fmap_ext (Js.base64_decode ∘ Js.base64_encode) id pieces)
        by (intros; apply Hbase64).
      rewrite list_fmap_id, Hcat. reflexivity.
    + symmetry. apply existsb_is_null.
      apply Forall_fmap, Forall_forall. intros text _. discriminate.
  - intros i Hi Hout. unfold getAssembledData. rewrite Ha.
    destruct (receivedCount a =? totalChunks a); [| reflexivity]. simpl.
    replace (existsb Js.is_null (chunks a)) with true; [reflexivity |].
    symmetry. apply existsb_exists. exists Js.JsNull. split; [| reflexivity].
    apply lookup_lt_is_Some in Hi as [text Htext].
    apply list_elem_of_In, (list_elem_of_lookup_2 _ i).
    rewrite Hslots, slots_lookup, Htext. simpl.
    destruct (decide (i ∈ arrived calls)); [contradiction | reflexivity].
Qed.

(** X6. The edge cases of [createChunks].  With chunk size 0 the loop has
    no bound on a buffer that is not empty, and the call does not return;
    with a negative chunk size, or on an empty buffer, there is no chunk
    at all. *)
Theorem createChunks_degenerate (h : t) (data : ChunkSource) :
  let buffer :=
    match data with OfString s => Js.Buffer_from_utf8 s | OfBuffer b => b end in
  (chunkSize (_config h) = 0 -> buffer <> [] -> createChunks h data = None)
  /\ (chunkSize (_config h) < 0 -> createChunks h data = Some [])
  /\ (buffer = [] -> createChunks h data = Some []).
Proof.
  intros buffer. unfold createChunks, Math_ceil_div. fold buffer.
  repeat split.
  - intros -> Hbuffer. simpl.
    destruct buffer; [contradiction | reflexivity].
  - intros Hsize.
    destruct (chunkSize (_config h) =? 0) eqn:Hz; [apply Z.eqb_eq in Hz; lia |].
    replace (Z.to_nat (- (- Z.of_nat (length buffer) / chunkSize (_config h))))
      with 0%nat; [reflexivity |].
    assert (0 <= - Z.of_nat (length buffer) / chunkSize (_config h)); [| lia].
    Z.to_euclidean_division_equations. nia.
  - intros ->. simpl.
    destruct (chunkSize (_config h) =? 0); [reflexivity |].
    rewrite Zdiv_0_l. reflexivity.
Qed.

End Reassemble.

Section ReassembleExamples.
Import ChunkingHandler.
#[local] Existing Instance Node.builtins.

(** A message of 22 bytes cut at 10. *)
Lemma createChunks_pieces_witness :
  exists pieces,
    createChunks cut_at_10 (OfString test_message)
    = Some (Js.base64_encode <$> pieces)
    /\ concat pieces = Js.Buffer_from_utf8 test_message
    /\ forall (i : nat) (p : list byte),
         pieces !! i = Some p ->
         0 < Z.of_nat (length p) <= chunkSize (_config cut_at_10)
         /\ Js.byteLength (Js.base64_encode p)
            = 4 * ((Z.of_nat (length p) + 2) / 3)
         /\ ((S i < length pieces)%nat ->
             Z.of_nat (length p) = chunkSize (_config cut_at_10)).
Proof.
  apply (createChunks_pieces cut_at_10 (OfString test_message)). evaluate.
Defined.

(** The three chunks of the message, the last one first and twice. *)
Lemma reassemble_any_order_witness :
  ((forall i, (i < length test_message_chunks)%nat -> i ∈ arrived out_of_order) ->
   getAssembledData (addChunks test_message_assembly "msg-123" out_of_order)
     "msg-123"
   = Some (Js.Buffer_from_utf8 test_message, Some GZIP))
  /\ (forall i, (i < length test_message_chunks)%nat -> i ∉ arrived out_of_order ->
      getAssembledData (addChunks test_message_assembly "msg-123" out_of_order)
        "msg-123" = None).
Proof.
  apply (reassemble_any_order cut_at_10 cut_at_10 test_message_assembly
           test_message test_message_chunks 0 "msg-123" None (Some GZIP)
           out_of_order).
  - exact base64_decode_encode.
  - evaluate.
  - vm_compute. reflexivity.
  - vm_compute. reflexivity.
  - unfold out_of_order.
    constructor; [exists 2%nat, "Z2U="; split; reflexivity |].
    constructor; [exists 0%nat, "VGhpcyBpcyBhIA=="; split; reflexivity |].
    constructor; [exists 2%nat, "Z2U="; split; reflexivity |].
    constructor; [exists 1%nat, "dGVzdCBtZXNzYQ=="; split; reflexivity |].
    constructor.
Defined.

End ReassembleExamples.

(** ** The reassembler: what the periodic cleanup drops *)

Section Stale.
Import ChunkingHandler.

(** [addChunk] writes a slot and the count, nothing else: the handler
    keeps its configuration, and every assembly its time stamp. *)
Lemma addChunk_timestamp (h : t) (messageId : string) (i : Z) (d : Js.Value)
    (k : string) :
  _config (fst (addChunk h messageId i d)) = _config h
  /\ timestamp <$> _assemblies (fst (addChunk h messageId i d)) !! k
     = timestamp <$> _assemblies h !! k.
Proof.
  unfold addChunk. destruct (_assemblies h !! messageId) as [a |] eqn:Ha; [| auto].
  destruct (Js.is_null (array_get (chunks a) i)); [| auto]. simpl.
  split; [reflexivity |].
  destruct (decide (messageId = k)) as [<- | Hne].
  - rewrite lookup_insert_eq, Ha. reflexivity.
  - rewrite lookup_insert_ne by exact Hne. reflexivity.
Qed.

Lemma addChunks_timestamp (calls : list (Z * Js.Value)) (h : t)
    (messageId k : string) :
  _config (addChunks h messageId calls) = _config h
  /\ timestamp <$> _assemblies (addChunks h messageId calls) !! k
     = timestamp <$> _assemblies h !! k.
Proof.
  revert h. induction calls as [| [i d] calls IH]; intros h; [auto |].
  simpl. destruct (IH (fst (addChunk h messageId i d))) as [Hc Ht].
  destruct (addChunk_timestamp h messageId i d k) as [Hc1 Ht1].
  split; congruence.
Qed.

(** X7. [cleanupStaleAssemblies] drops exactly the assemblies begun more
    than [reassemblyTimeout] milliseconds ago and returns their number.
    The age is counted from [initAssembly]: chunks that arrive later do not
    extend it. *)
Theorem cleanupStaleAssemblies_by_age (h0 h : t) (begun now : Z)
    (messageId : string) (total : Z) (remote : option RemoteInfo.t)
    (codec : option CompressionCodecType) (calls : list (Z * Js.Value)) :
  initAssembly h0 begun messageId total remote codec = Some h ->
  let h1 := addChunks h messageId calls in
  let h2 := fst (cleanupStaleAssemblies h1 now) in
  is_Some (_assemblies h1 !! messageId)
  /\ (now - begun <= reassemblyTimeout (_config h0) ->
      _assemblies h2 !! messageId = _assemblies h1 !! messageId)
  /\ (reassemblyTimeout (_config h0) < now - begun ->
      _assemblies h2 !! messageId = None)
  /\ (forall k a,
        _assemblies h1 !! k = Some a ->
        _assemblies h2 !! k
        = if decide (reassemblyTimeout (_config h0) < now - timestamp a)
          then None else Some a)
  /\ (forall k, _assemblies h1 !! k = None -> _assemblies h2 !! k = None)
  /\ snd (cleanupStaleAssemblies h1 now)
     = Z.of_nat (size (filter (fun kv => stale h1 now (snd kv)) (_assemblies h1))).
Proof.
  intros Hinit h1 h2.
  destruct (addChunks_timestamp calls h messageId messageId) as [Hconfig Htime].
  fold h1 in Hconfig, Htime.
  unfold initAssembly in Hinit.
  destruct ((total <? 0) || (4294967295 <? total)); [discriminate |].
  injection Hinit as <-. simpl in Hconfig, Htime.
  rewrite lookup_insert_eq in Htime. simpl in Htime.
  destruct (_assemblies h1 !! messageId) as [a1 |] eqn:Ha1; [| discriminate].
  injection Htime as Htime.
  assert (Hlookup : forall k a,
            _assemblies h1 !! k = Some a ->
            _assemblies h2 !! k
            = if decide (reassemblyTimeout (_config h0) < now - timestamp a)
              then None else Some a).
  { intros k a Hk. unfold h2, cleanupStaleAssemblies. simpl.
    rewrite map_lookup_filter, Hk. simpl.
    case_guard as Hg; simpl; pose proof Hg as Hage; simpl in Hage;
      unfold stale in Hage; rewrite Hconfig in Hage;
      destruct (decide (reassemblyTimeout (_config h0) < now - timestamp a));
      try reflexivity; lia. }
  split; [eexists; reflexivity |].
  split; [| split; [| split; [exact Hlookup | split]]].
  - intros Hfresh. rewrite (Hlookup _ _ Ha1).
    destruct (decide (reassemblyTimeout (_config h0) < now - timestamp a1))
      as [Hold | _]; [rewrite Htime in Hold; lia | reflexivity].
  - intros Hold. rewrite (Hlookup _ _ Ha1).
    destruct (decide (reassemblyTimeout (_config h0) < now - timestamp a1))
      as [_ | Hfresh]; [reflexivity | rewrite Htime in Hfresh; lia].
  - intros k Hk. unfold h2, cleanupStaleAssemblies. simpl.
    rewrite map_lookup_filter, Hk. reflexivity.
  - unfold cleanupStaleAssemblies. simpl.
    rewrite <- (map_filter_union_complement
                  (fun kv => stale h1 now (snd kv)) (_assemblies h1)) at 1.
    rewrite map_size_disj_union by apply map_disjoint_filter_complement. lia.
Qed.

End Stale.

Section StaleExamples.
Import ChunkingHandler.

(** The assembly of the 22-byte message, begun at 0 and cleaned up at
    30001 after its three chunks have arrived. *)
Lemma cleanupStaleAssemblies_by_age_witness :
  let h1 := addChunks test_message_assembly "msg-123" out_of_order in
  let h2 := fst (cleanupStaleAssemblies h1 30001) in
  is_Some (_assemblies h1 !! "msg-123")
  /\ (30001 - 0 <= reassemblyTimeout (_config cut_at_10) ->
      _assemblies h2 !! "msg-123" = _assemblies h1 !! "msg-123")
  /\ (reassemblyTimeout (_config cut_at_10) < 30001 - 0 ->
      _assemblies h2 !! "msg-123" = None)
  /\ (forall k a,
        _assemblies h1 !! k = Some a ->
        _assemblies h2 !! k
        = if decide (reassemblyTimeout (_config cut_at_10) < 30001 - timestamp a)
          then None else Some a)
  /\ (forall k, _assemblies h1 !! k = None -> _assemblies h2 !! k = None)
  /\ snd (cleanupStaleAssemblies h1 30001)
     = Z.of_nat (size (filter (fun kv => stale h1 30001 (snd kv)) (_assemblies h1))).
Proof.
  apply (cleanupStaleAssemblies_by_age cut_at_10 test_message_assembly 0 30001
           "msg-123" 3 None (Some GZIP) out_of_order).
  reflexivity.
Defined.

End StaleExamples.

(** ** The compression pipeline: the codecs at hand, the round trip *)

Section Codecs.
Import CompressionHandler.
Context `{Js.Builtins}.

(** The factory of a handler, codec by codec. *)
Lemma new_factory (libs : Libraries.t) (config : CompressionHandlerConfig)
    (h : t) :
  new libs config = Some h ->
  1 <= level config <= 9
  /\ _config h = config
  /\ forall name,
       CompressionFactory.get (_factory h) name
       = match name with
         | NONE => None
         | GZIP =>
             Some {| CompressionCodec.name := GZIP;
                     CompressionCodec.compress :=
                       Libraries.pkg_compress (Libraries.zlib libs) (level config);
                     CompressionCodec.decompress :=
                       Libraries.pkg_decompress (Libraries.zlib libs);
                     CompressionCodec.isAvailable := true |}
         | SNAPPY =>
             match Libraries.snappy libs with
             | Some _ => Some (Codecs.SnappyCodec libs)
             | None => None
             end
         | LZ4 =>
             match Libraries.lz4 libs with
             | Some _ => Some (Codecs.Lz4Codec libs)
             | None => None
             end
         | ZSTD =>
             match Libraries.zstd libs with
             | Some _ =>
                 Some (Codecs.optional ZSTD (level config) (Libraries.zstd libs))
             | None => None
             end
         end.
Proof.
  unfold new, Codecs.GzipCodec, Codecs.ZstdCodec.
  destruct ((level config <? 1) || (9 <? level config)) eqn:Hgzip; [discriminate |].
  apply orb_false_iff in Hgzip as [Hlow Hhigh].
  apply Z.ltb_ge in Hlow. apply Z.ltb_ge in Hhigh.
  destruct ((level config <? 1) || (22 <? level config)) eqn:Hzstd.
  { apply orb_true_iff in Hzstd as [Hz | Hz]; apply Z.ltb_lt in Hz; lia. }
  intros [= <-]. split; [lia |]. split; [reflexivity |].
  intros name. simpl. rewrite !register_get.
  unfold Codecs.SnappyCodec, Codecs.Lz4Codec, Codecs.optional. simpl.
  destruct libs as [zlib [snappy |] [lz4 |] [zstd |]], name; reflexivity.
Qed.

(** X8. The constructor of the compression handler throws exactly when the
    level is outside 1..9, whatever codec is configured.  Otherwise gzip
    is always at hand, snappy, lz4 and zstd exactly when their package is
    installed, each under its own name, and [NONE] never: with the default
    codec ([NONE]) [tryCompress] returns [null] for every payload, and
    [tryDecompress] with [NONE] returns [null]. *)
Theorem new_registers (libs : Libraries.t) (config : CompressionHandlerConfig) :
  (is_Some (new libs config) <-> 1 <= level config <= 9)
  /\ forall h,
       new libs config = Some h ->
       _config h = config
       /\ (forall name,
             is_Some (CompressionFactory.get (_factory h) name)
             <-> match name with
                 | NONE => False
                 | GZIP => True
                 | SNAPPY => is_Some (Libraries.snappy libs)
                 | LZ4 => is_Some (Libraries.lz4 libs)
                 | ZSTD => is_Some (Libraries.zstd libs)
                 end)
       /\ (forall name c,
             CompressionFactory.get (_factory h) name = Some c ->
             CompressionCodec.name c = name)
       /\ (codec config = NONE -> forall payload, tryCompress h payload = None)
       /\ (forall data, tryDecompress h data NONE = Js.JsNull).
Proof.
  split.
  - split.
    + intros [h Hh]. apply (new_factory _ _ _ Hh).
    + intros Hlevel. unfold new, Codecs.GzipCodec, Codecs.ZstdCodec.
      replace ((level config <? 1) || (9 <? level config)) with false
        by (symmetry; apply orb_false_iff; split; apply Z.ltb_ge; lia).
      replace ((level config <? 1) || (22 <? level config)) with false
        by (symmetry; apply orb_false_iff; split; apply Z.ltb_ge; lia).
      eexists. reflexivity.
  - intros h Hh. destruct (new_factory _ _ _ Hh) as (_ & Hconfig & Hget).
    split; [exact Hconfig |]. split; [| split; [| split]].
    + intros name. rewrite Hget.
      destruct name, (Libraries.snappy libs), (Libraries.lz4 libs),
        (Libraries.zstd libs); simpl;
        split; intros Hx; try exact I; try (eexists; reflexivity);
        try (destruct Hx; discriminate); try contradiction.
    + intros name c. rewrite Hget.
      destruct name, (Libraries.snappy libs), (Libraries.lz4 libs),
        (Libraries.zstd libs); simpl; intros [= <-]; reflexivity.
    + intros Hnone payload. unfold tryCompress. rewrite Hconfig.
      destruct (negb (enabled config)); [reflexivity |].
      destruct (Js.byteLength payload <? minSize config); [reflexivity |].
      rewrite Hnone, Hget. reflexivity.
    + intros data. unfold tryDecompress. rewrite Hget. reflexivity.
Qed.

(** What one handler compressed, a handler that undoes its codec
    decompresses. *)
Lemma tryDecompress_inverts (sender receiver : t) (jsonString : string)
    (value : Js.Value) (r : CompressionResult.t) :
  (forall bs, Js.base64_decode (Js.base64_encode bs) = bs) ->
  inverts receiver sender ->
  Js.JSON_parse jsonString = Some value ->
  tryCompress sender jsonString = Some r ->
  tryDecompress receiver (Js.JsString (CompressionResult.data r))
    (CompressionResult.codec r) = value.
Proof.
  intros Hbase64 Hinverse Hparse. unfold tryCompress.
  destruct (negb (enabled (_config sender))); [discriminate |].
  destruct (Js.byteLength jsonString <? minSize (_config sender)); [discriminate |].
  destruct (CompressionFactory.get (_factory sender) (codec (_config sender)))
    as [c |] eqn:Hc; [| discriminate].
  destruct (CompressionCodec.compress c (Js.Buffer_from_utf8 jsonString))
    as [compressed |] eqn:Hcompressed; [| discriminate].
  destruct (PrimFloat.leb _ _); [| discriminate].
  intros [= <-]. simpl.
  destruct (Hinverse _ _ _ _ Hc Hcompressed) as (c' & Hc' & Hback).
  unfold tryDecompress. rewrite Hc'. simpl. rewrite Hbase64, Hback.
  unfold Js.Buffer_toString_utf8, Js.Buffer_from_utf8.
  rewrite string_of_list_byte_of_string, Hparse. reflexivity.
Qed.

(** X9. What [tryCompress] returns, [tryDecompress] turns back into the
    value the text was the JSON of, when the decompressing handler undoes
    the codec of the compressing one and the platform decodes base64 text
    to the buffer it encodes. *)
Theorem tryDecompress_tryCompress (sender receiver : t) (jsonString : string)
    (value : Js.Value) (r : CompressionResult.t) :
  (forall bs, Js.base64_decode (Js.base64_encode bs) = bs) ->
  inverts receiver sender ->
  Js.JSON_parse jsonString = Some value ->
  tryCompress sender jsonString = Some r ->
  tryDecompress receiver (Js.JsString (CompressionResult.data r))
    (CompressionResult.codec r) = value.
Proof. apply tryDecompress_inverts. Qed.

End Codecs.

Section CodecsExamples.
Import CompressionHandler.
#[local] Existing Instance Node.builtins.

Lemma to_N_octet (n : N) : (n < 256)%N -> Byte.to_N (Node.octet n) = n.
Proof.
  intros Hn. unfold Node.octet. rewrite N.mod_small by exact Hn.
  destruct (Byte.of_N n) as [b |] eqn:Hb.
  - apply Byte.to_of_N in Hb. exact Hb.
  - apply Byte.of_N_None_iff in Hb. lia.
Qed.

Lemma decode_encode_run (l : list byte) (count : N) (b : byte) :
  (1 <= count <= 255)%N ->
  RunLength.decode (RunLength.encode_run count b l)
  = repeat b (N.to_nat count) ++ l.
Proof.
  revert count b. induction l as [| c l IH]; intros count b Hcount.
  - simpl. rewrite to_N_octet by lia. reflexivity.
  - cbn [RunLength.encode_run].
    destruct (Byte.eqb c b && (count <? 255)%N) eqn:Hrun.
    + apply andb_true_iff in Hrun as [Hsame Hroom].
      apply Byte.byte_dec_bl in Hsame as ->. apply N.ltb_lt in Hroom.
      rewrite IH by lia.
      replace (N.to_nat (count + 1)) with (S (N.to_nat count)) by lia.
      change (repeat b (S (N.to_nat count))) with (b :: repeat b (N.to_nat count)).
      rewrite repeat_cons, <- app_assoc. reflexivity.
    + cbn [RunLength.decode]. rewrite to_N_octet by lia.
      rewrite IH by lia. reflexivity.
Qed.

(** The run-length codec undoes itself. *)
Lemma decode_encode (l : list byte) :
  RunLength.decode (RunLength.encode l) = l.
Proof.
  destruct l as [| b l]; [reflexivity |].
  unfold RunLength.encode. rewrite decode_encode_run by lia. reflexivity.
Qed.

Lemma gzip_handler_inverts : inverts gzip_handler gzip_handler.
Proof.
  assert (Hnew : new RunLength.libraries gzip_config = Some gzip_handler)
    by reflexivity.
  destruct (new_factory _ _ _ Hnew) as (_ & _ & Hget).
  intros name c buffer compressed Hc. rewrite Hget in Hc.
  destruct name; try discriminate. injection Hc as <-. simpl.
  intros [= <-]. eexists. split; [exact (Hget GZIP) |]. simpl.
  rewrite decode_encode. reflexivity.
Qed.

Lemma tryDecompress_tryCompress_witness :
  tryDecompress gzip_handler
    (Js.JsString (CompressionResult.data letters_300_compressed))
    (CompressionResult.codec letters_300_compressed) = letters_300.
Proof.
  apply (tryDecompress_tryCompress gzip_handler gzip_handler
           (Node.stringify letters_300) letters_300 letters_300_compressed).
  - exact base64_decode_encode.
  - exact gzip_handler_inverts.
  - vm_compute. reflexivity.
  - vm_compute. reflexivity.
Defined.

End CodecsExamples.

(** ** The envelope on the wire: what the receiver accepts *)

Section Validation.
Import MessageEnvelopeHandler.
Context `{Js.Builtins}.

(** The receiver reads back from the object of an envelope the envelope
    itself. *)
Lemma typed_envelope_object (e : MessageEnvelope.t) :
  typed (envelope_object e) = Some e.
Proof.
  destruct e as [id body checksum flags type ci ct os cs].
  destruct checksum, flags, type, ci, ct, os, cs, body; reflexivity.
Qed.

Lemma isValidEnvelope_envelope_object (e : MessageEnvelope.t) :
  isValidEnvelope (envelope_object e)
  = bool_decide (is_Some (MessageEnvelope.flags e)).
Proof.
  destruct e as [id body checksum flags type ci ct os cs].
  destruct checksum, flags, type, ci, ct, os, cs, body; reflexivity.
Qed.

(** X10. [isValidEnvelope] accepts exactly the objects (not [null], not
    an array, not a primitive) with a string [id] and a number [flags];
    an object in the earlier format, with [type] and without [flags], is
    refused.  Every envelope [createEnvelope] builds is accepted, [parse]
    returns [null] where [JSON.parse] throws, and what it returns has its
    flags, so the switch on the message type never falls back on the
    property [type]. *)
Theorem isValidEnvelope_accepts (obj : Js.Value) :
  (isValidEnvelope obj = true
   <-> exists fields id flags,
         obj = Js.JsObject fields
         /\ Js.get obj "id" = Js.JsString id
         /\ Js.get obj "flags" = Js.JsNumber flags)
  /\ (forall id type body options,
        isValidEnvelope (envelope_object (createEnvelope id type body options))
        = true)
  /\ (forall jsonString, Js.JSON_parse jsonString = None -> parse jsonString = None)
  /\ (forall jsonString parsed,
        parse jsonString = Some parsed ->
        Js.JSON_parse jsonString = Some parsed /\ isValidEnvelope parsed = true)
  /\ (forall e,
        isValidEnvelope obj = true -> typed obj = Some e ->
        is_Some (MessageEnvelope.flags e)
        /\ MessageEnvelope.body e = Js.get obj "body").
Proof.
  split; [| split; [| split; [| split]]].
  - unfold isValidEnvelope. split.
    + destruct obj as [| | b | n | text | items | fields]; try discriminate.
      cbn [Js.typeof_object Js.is_null negb orb].
      destruct (Js.get (Js.JsObject fields) "id") as [| | | | name | |];
        try discriminate.
      destruct (Js.get (Js.JsObject fields) "flags") as [| | | number | | |];
        try discriminate.
      intros _. exists fields, name, number. auto.
    + intros (fields & id & flags & -> & Hid & Hflags).
      rewrite Hid, Hflags. reflexivity.
  - intros id type body options. rewrite isValidEnvelope_envelope_object.
    reflexivity.
  - intros jsonString Hthrow. unfold parse. rewrite Hthrow. reflexivity.
  - intros jsonString parsed. unfold parse.
    destruct (Js.JSON_parse jsonString) as [v |]; [| discriminate].
    destruct (isValidEnvelope v) eqn:Hv; [| discriminate].
    intros [= <-]. auto.
  - intros e. unfold isValidEnvelope, typed.
    destruct (negb (Js.typeof_object obj) || Js.is_null obj
              || negb (Js.typeof_string (Js.get obj "id"))); [discriminate |].
    destruct (Js.get obj "flags") as [| | | flags | | |]; try discriminate.
    intros _.
    destruct (Js.get obj "id"); try discriminate.
    repeat match goal with
           | |- context [match Js.get obj ?k with _ => _ end] =>
               destruct (Js.get obj k); try discriminate
           end;
      intros [= <-]; simpl; split; try reflexivity; eexists; reflexivity.
Qed.

(** X11. [emitMessage] hands the application the value the text parses
    to, or an empty object when that value is falsy ([null], [false], 0,
    the empty string): the message emitted is never falsy.  It throws
    exactly when the text is not JSON. *)
Theorem emitMessage_never_falsy (data : option string) (info : RemoteInfo.t) :
  (forall message info',
     UdpSocket.emitMessage data info = UdpSocket.Data message info' ->
     info' = info
     /\ Js.truthy message = true
     /\ exists text parsed,
          data = Some text /\ Js.JSON_parse text = Some parsed
          /\ message = (if Js.truthy parsed then parsed else Js.JsObject []))
  /\ ((exists d, UdpSocket.emitMessage data info = UdpSocket.InvalidJSONFormat d)
      <-> data ≫= Js.JSON_parse = None).
Proof.
  unfold UdpSocket.emitMessage. destruct data as [text |]; simpl.
  - destruct (Js.JSON_parse text) as [parsed |] eqn:Hparsed.
    + split.
      * intros message info' [= <- <-]. split; [reflexivity |].
        split; [destruct (Js.truthy parsed) eqn:Ht; [exact Ht | reflexivity] |].
        exists text, parsed. auto.
      * split; [intros [d Hd]; discriminate | discriminate].
    + split; [discriminate |]. split; [reflexivity | eauto].
  - split; [discriminate |]. split; [reflexivity | eauto].
Qed.

End Validation.

(** ** The plain JSON socket *)

Section Json.
Import JsonUdpSocket.
Context `{Js.Builtins}.
Context (socket_send : string -> option (Z * string) -> option string).

(** X12. [handleSend] of the JSON socket hands the JSON text of the
    message to [socket.send] exactly when the text has at most 65507
    bytes, with the address when both a host and a port are given (a port
    0 or an empty host counts as none).  A longer text, a message without
    JSON text and an exception of [socket.send] go to the caller's
    callback, if there is one; nothing is thrown to the caller. *)
Theorem handleSend_limit (message : Js.Value) (host : option string)
    (port : option Z) (callback : bool) :
  let actions := handleSend socket_send message host port callback in
  (forall jsonString,
     Js.JSON_stringify message = Some jsonString ->
     Js.byteLength jsonString <= MAX_UDP_PAYLOAD_SIZE ->
     exists address,
       (address = None
        \/ exists h p,
             address = Some (p, h) /\ host = Some h /\ port = Some p
             /\ h <> EmptyString /\ p <> 0)
       /\ actions
          = Send jsonString address callback
              :: match socket_send jsonString address with
                 | Some e => if callback then [Callback (SendFailed e)] else []
                 | None => []
                 end)
  /\ (forall jsonString,
        Js.JSON_stringify message = Some jsonString ->
        MAX_UDP_PAYLOAD_SIZE < Js.byteLength jsonString ->
        actions
        = if callback then [Callback (MaxPacketLengthExceeded 65507)] else [])
  /\ (Js.JSON_stringify message = None ->
      actions = if callback then [Callback TypeError] else []).
Proof.
  intros actions. unfold actions, handleSend. repeat split.
  - intros jsonString -> Hsize.
    destruct (MAX_UDP_PAYLOAD_SIZE <? Js.byteLength jsonString) eqn:Hover;
      [apply Z.ltb_lt in Hover; lia |].
    eexists. split; [| reflexivity].
    destruct host as [h |], port as [p |]; try (left; reflexivity).
    destruct (string_truthy (Some h) && negb (p =? 0)) eqn:Hboth;
      [| left; reflexivity].
    right. apply andb_true_iff in Hboth as [Hh Hp].
    exists h, p. repeat split.
    + destruct h; [discriminate | discriminate].
    + apply negb_true_iff, Z.eqb_neq in Hp. exact Hp.
  - intros jsonString -> Hsize.
    destruct (MAX_UDP_PAYLOAD_SIZE <? Js.byteLength jsonString) eqn:Hover;
      [reflexivity | apply Z.ltb_ge in Hover; lia].
  - intros ->. reflexivity.
Qed.

(** X13. A datagram that is not JSON makes the JSON socket emit the event
    [error], on which the base class marks the socket closed: every
    [sendMessage] after it is refused with an error to the callback and
    sends nothing, until the socket is listening again.  A datagram that
    is JSON is emitted as a message and leaves the socket as it is. *)
Theorem handleData_invalid_closes (s : UdpSocket.t) (data : string)
    (rinfo : RemoteInfo.t) :
  (Js.JSON_parse data = None ->
   let s' := fst (handleData s data rinfo) in
   snd (handleData s data rinfo) = [EmitError (Some data)]
   /\ UdpSocket.isClosed s' = true
   /\ (forall message host port callback,
         sendMessage socket_send s' message host port callback
         = if callback then [Callback SocketClosed] else [])
   /\ (forall message host port callback,
         sendMessage socket_send (UdpSocket.listener s' UdpSocket.LISTENING)
           message host port callback
         = handleSend socket_send message host port callback))
  /\ (forall parsed,
        Js.JSON_parse data = Some parsed ->
        handleData s data rinfo
        = (s, [EmitData (if Js.truthy parsed then parsed else Js.JsObject [])
                        rinfo])).
Proof.
  unfold handleData, UdpSocket.emitMessage. split.
  - intros ->. simpl. repeat split.
  - intros parsed ->. reflexivity.
Qed.

End Json.

Section JsonExamples.
Import JsonUdpSocket.
#[local] Existing Instance Node.builtins.

(** The datagram [hello] is not JSON. *)
Lemma handleData_invalid_closes_witness :
  handleData {| UdpSocket.isClosed := false |} "hello" localhost
  = ({| UdpSocket.isClosed := true |}, [EmitError (Some "hello")])
  /\ sendMessage (fun _ _ => None) {| UdpSocket.isClosed := true |}
       (Js.JsString "ping") (Some "127.0.0.1") (Some 41234) true
     = [Callback SocketClosed].
Proof.
  pose proof (handleData_invalid_closes (fun _ _ => None)
                {| UdpSocket.isClosed := false |} "hello" localhost) as [Hclosed _].
  destruct (Hclosed eq_refl) as (Hactions & _ & Hrefused & _).
  split.
  - reflexivity.
  - exact (Hrefused (Js.JsString "ping") (Some "127.0.0.1") (Some 41234) true).
Defined.

End JsonExamples.

(** ** The request tracker: removal, cleanup, and settling once *)

Section TrackerRemoval.
Import RequestTracker.
Context {C : Type} (run : C -> Js.Value -> View -> Outcome).

(** [remove] of a tracked request: the entry is deleted and its timers
    are cleared. *)
Lemma remove_tracked (tr : t C) (tm : Timers.t) (messageId : string)
    (h : ResponseHandler C) :
  _handlers tr !! messageId = Some h ->
  exists tr' tm',
    remove tr tm messageId = (tr', tm', true)
    /\ _handlers tr' = delete messageId (_handlers tr)
    /\ requestTimeout tr' = requestTimeout tr
    /\ Timers.armed tm' = Timers.armed tm ∖ timers_of h
    /\ Timers.next tm' = Timers.next tm.
Proof.
  intros Hh. unfold remove. rewrite Hh.
  unfold clearRetryTimer. rewrite Hh. unfold timers_of.
  destruct (retryTimer h) as [retry |], (timeoutId h) as [timeout |]; simpl;
    do 2 eexists; (split; [reflexivity |]); simpl;
    rewrite ?delete_insert_eq; repeat split; set_solver.
Qed.

Lemma remove_unknown (tr : t C) (tm : Timers.t) (messageId : string) :
  _handlers tr !! messageId = None -> remove tr tm messageId = (tr, tm, false).
Proof. intros Hh. unfold remove. rewrite Hh. reflexivity. Qed.

(** The loop of [clear] over a list of tracked keys. *)
Lemma clear_loop (entries : list (string * ResponseHandler C)) (tr : t C)
    (tm : Timers.t) :
  NoDup (fst <$> entries) ->
  (forall k h, (k, h) ∈ entries -> _handlers tr !! k = Some h) ->
  exists tr' tm',
    foldl (fun (acc : t C * Timers.t) (messageId : string) =>
             let '(tr, tm, _) := remove (fst acc) (snd acc) messageId in (tr, tm))
          (tr, tm) (fst <$> entries) = (tr', tm')
    /\ (forall k,
          _handlers tr' !! k
          = if decide (k ∈ fst <$> entries) then None else _handlers tr !! k)
    /\ requestTimeout tr' = requestTimeout tr
    /\ Timers.armed tm'
       = Timers.armed tm ∖ ⋃ ((fun entry => timers_of (snd entry)) <$> entries).
Proof.
  revert tr tm. induction entries as [| [k h] entries IH]; intros tr tm Hnodup Hin.
  - exists tr, tm. simpl. split; [reflexivity |]. split; [| split].
    + intros k. destruct (decide (k ∈ [])) as [Hk | _]; [| reflexivity].
      apply elem_of_nil in Hk. contradiction.
    + reflexivity.
    + symmetry. apply difference_empty_L.
  - rewrite fmap_cons in Hnodup. apply NoDup_cons in Hnodup as [Hfresh Hnodup].
    assert (Hk : _handlers tr !! k = Some h) by (apply Hin; apply list_elem_of_here).
    destruct (remove_tracked tr tm k h Hk) as (tr1 & tm1 & Hr & Hh1 & Ht1 & Ha1 & _).
    destruct (IH tr1 tm1 Hnodup) as (tr' & tm' & Hfold & Hh' & Ht' & Ha').
    { intros k' h' Hin'. rewrite Hh1, lookup_delete_ne.
      - apply Hin. apply list_elem_of_further. exact Hin'.
      - intros <-. apply Hfresh. apply list_elem_of_fmap.
        exists (k, h'). split; [reflexivity | exact Hin']. }
    exists tr', tm'. rewrite fmap_cons. simpl. rewrite Hr. simpl.
    split; [exact Hfold |]. split; [| split; [congruence |]].
    + intros k'. rewrite Hh', Hh1.
      destruct (decide (k' ∈ fst <$> entries)) as [Hk' | Hk'];
        destruct (decide (k' ∈ k :: (fst <$> entries))) as [Hk'' | Hk''].
      * reflexivity.
      * exfalso. apply Hk''. apply list_elem_of_further. exact Hk'.
      * apply elem_of_cons in Hk'' as [-> | Hk'']; [| contradiction].
        apply lookup_delete_eq.
      * apply lookup_delete_ne. intros <-. apply Hk''. apply list_elem_of_here.
    + rewrite Ha', Ha1. apply difference_difference_l_L.
Qed.

(** X14. [clear] empties the tracker and clears the timers of every
    request it held; it calls no callback, so the requests in flight are
    dropped without their senders being told. *)
Theorem clear_drops_everything (tr : t C) (tm : Timers.t) :
  _handlers (fst (clear tr tm)) = ∅
  /\ requestTimeout (fst (clear tr tm)) = requestTimeout tr
  /\ Timers.armed (snd (clear tr tm)) = Timers.armed tm ∖ held (_handlers tr)
  /\ (forall messageId response,
        invokeAndRemove run (fst (clear tr tm)) (snd (clear tr tm)) messageId response
        = (fst (clear tr tm), snd (clear tr tm), [], Some false))
  /\ (forall messageId onTimeout,
        timeoutExpired (fst (clear tr tm)) (snd (clear tr tm)) messageId onTimeout
        = (fst (clear tr tm), snd (clear tr tm), [])).
Proof.
  destruct (clear_loop (map_to_list (_handlers tr)) tr tm)
    as (tr' & tm' & Hfold & Hh & Ht & Ha).
  { apply NoDup_fst_map_to_list. }
  { intros k h Hin. apply elem_of_map_to_list. exact Hin. }
  unfold clear. rewrite Hfold. simpl.
  assert (Hempty : _handlers tr' = ∅).
  { apply map_eq. intros k. rewrite Hh, lookup_empty.
    destruct (decide (k ∈ (map_to_list (_handlers tr)).*1)) as [_ | Hout];
      [reflexivity |].
    destruct (_handlers tr !! k) as [h |] eqn:Hk; [| reflexivity].
    exfalso. apply Hout. apply list_elem_of_fmap. exists (k, h).
    split; [reflexivity |]. apply elem_of_map_to_list. exact Hk. }
  split; [exact Hempty |]. split; [exact Ht |]. split; [exact Ha |]. split.
  - intros messageId response. unfold invokeAndRemove.
    rewrite Hempty, lookup_empty. reflexivity.
  - intros messageId onTimeout. unfold timeoutExpired.
    rewrite Hempty, lookup_empty. reflexivity.
Qed.

(** The loop of [cleanupOldRequests] over a list of tracked entries. *)
Lemma cleanup_loop (now maxAge : Z) (entries : list (string * ResponseHandler C))
    (tr : t C) (tm : Timers.t) (n : Z) :
  NoDup (fst <$> entries) ->
  (forall k h, (k, h) ∈ entries -> _handlers tr !! k = Some h) ->
  exists tr' tm',
    foldl (fun (acc : t C * Timers.t * Z) (entry : string * ResponseHandler C) =>
             let '(tr, tm, cleanedCount) := acc in
             if maxAge <? now - timestamp (snd entry) then
               let '(tr, tm, _) := remove tr tm (fst entry) in
               (tr, tm, cleanedCount + 1)
             else (tr, tm, cleanedCount))
          (tr, tm, n) entries
    = (tr', tm',
       n + Z.of_nat (length (List.filter (fun e => aged now maxAge (snd e)) entries)))
    /\ (forall k,
          _handlers tr' !! k
          = if decide (k ∈ fst <$> List.filter (fun e => aged now maxAge (snd e)) entries)
            then None else _handlers tr !! k)
    /\ requestTimeout tr' = requestTimeout tr
    /\ Timers.armed tm'
       = Timers.armed tm
           ∖ ⋃ ((fun entry => timers_of (snd entry))
                  <$> List.filter (fun e => aged now maxAge (snd e)) entries).
Proof.
  revert tr tm n.
  induction entries as [| [k h] entries IH]; intros tr tm n Hnodup Hin.
  - exists tr, tm. simpl. rewrite Z.add_0_r. split; [reflexivity |].
    split; [| split].
    + intros k. destruct (decide (k ∈ [])) as [Hk | _]; [| reflexivity].
      apply elem_of_nil in Hk. contradiction.
    + reflexivity.
    + symmetry. apply difference_empty_L.
  - rewrite fmap_cons in Hnodup. apply NoDup_cons in Hnodup as [Hfresh Hnodup].
    assert (Hk : _handlers tr !! k = Some h) by (apply Hin; apply list_elem_of_here).
    assert (Hfilter :
      List.filter (fun e => aged now maxAge (snd e)) ((k, h) :: entries)
      = if maxAge <? now - timestamp h
        then (k, h) :: List.filter (fun e => aged now maxAge (snd e)) entries
        else List.filter (fun e => aged now maxAge (snd e)) entries)
      by reflexivity.
    rewrite !Hfilter. clear Hfilter. cbn [foldl fst snd].
    destruct (maxAge <? now - timestamp h) eqn:Hold.
    + destruct (remove_tracked tr tm k h Hk)
        as (tr1 & tm1 & Hr & Hh1 & Ht1 & Ha1 & _).
      rewrite Hr.
      destruct (IH tr1 tm1 (n + 1) Hnodup) as (tr' & tm' & Hfold & Hh' & Ht' & Ha').
      { intros k' h' Hin'. rewrite Hh1, lookup_delete_ne.
        - apply Hin. apply list_elem_of_further. exact Hin'.
        - intros <-. apply Hfresh. apply list_elem_of_fmap.
          exists (k, h'). split; [reflexivity | exact Hin']. }
      exists tr', tm'. rewrite Hfold. split; [f_equal; simpl length; lia |].
      split; [| split; [congruence |]].
      * intros k'. rewrite Hh', Hh1. rewrite fmap_cons. cbn [fst].
        set (keys := fst <$> List.filter (fun e => aged now maxAge (snd e)) entries).
        destruct (decide (k' ∈ keys)) as [Hk' | Hk'];
          destruct (decide (k' ∈ k :: keys)) as [Hk'' | Hk''].
        -- reflexivity.
        -- exfalso. apply Hk''. apply list_elem_of_further. exact Hk'.
        -- apply elem_of_cons in Hk'' as [-> | Hk'']; [| contradiction].
           apply lookup_delete_eq.
        -- apply lookup_delete_ne. intros <-. apply Hk''. apply list_elem_of_here.
      * rewrite Ha', Ha1, fmap_cons. apply difference_difference_l_L.
    + destruct (IH tr tm n Hnodup) as (tr' & tm' & Hfold & Hh' & Ht' & Ha').
      { intros k' h' Hin'. apply Hin. apply list_elem_of_further. exact Hin'. }
      exists tr', tm'. auto.
Qed.

(** X15. [cleanupOldRequests] removes exactly the requests registered more
    than [maxAge] milliseconds before (an age equal to [maxAge] stays),
    clears their timers and returns their number.  It calls neither the
    callback nor the timeout callback of a request it removes. *)
Theorem cleanupOldRequests_by_age (tr : t C) (tm : Timers.t) (now maxAge : Z) :
  exists tr' tm',
    cleanupOldRequests tr tm now maxAge
    = (tr', tm', Z.of_nat (length (aged_entries now maxAge (_handlers tr))))
    /\ (forall k,
          _handlers tr' !! k
          = match _handlers tr !! k with
            | Some h => if aged now maxAge h then None else Some h
            | None => None
            end)
    /\ requestTimeout tr' = requestTimeout tr
    /\ Timers.armed tm'
       = Timers.armed tm
           ∖ ⋃ ((fun entry => timers_of (snd entry))
                  <$> aged_entries now maxAge (_handlers tr)).
Proof.
  destruct (cleanup_loop now maxAge (map_to_list (_handlers tr)) tr tm 0)
    as (tr' & tm' & Hfold & Hh & Ht & Ha).
  { apply NoDup_fst_map_to_list. }
  { intros k h Hin. apply elem_of_map_to_list. exact Hin. }
  exists tr', tm'. unfold cleanupOldRequests, aged_entries.
  split; [exact Hfold |]. split; [| split; [exact Ht | exact Ha]].
  intros k. rewrite Hh.
  destruct (decide (k ∈ (List.filter (fun e => aged now maxAge (snd e))
                            (map_to_list (_handlers tr))).*1)) as [Hin | Hout].
  - apply list_elem_of_fmap in Hin as ([k' h] & -> & Hin). simpl.
    apply list_elem_of_In, filter_In in Hin as [Hin Hold].
    apply list_elem_of_In, elem_of_map_to_list in Hin. rewrite Hin.
    simpl in Hold. rewrite Hold. reflexivity.
  - destruct (_handlers tr !! k) as [h |] eqn:Hk; [| reflexivity].
    destruct (aged now maxAge h) eqn:Hold; [| reflexivity].
    exfalso. apply Hout. apply list_elem_of_fmap. exists (k, h).
    split; [reflexivity |]. apply list_elem_of_In, filter_In.
    split; [| exact Hold]. apply list_elem_of_In, elem_of_map_to_list. exact Hk.
Qed.



End TrackerRemoval.

Section TrackerRemovalExamples.
Import RequestTracker.


(** A callback that throws [null]: the request stays tracked, without its
    timers, and the next response calls the callback again. *)
Example invokeAndRemove_null_thrown :
  match invokeAndRemove throws_null (fst one_request) (snd one_request)
          "msg-123" Js.JsNull with
  | (tr', tm', [Called _ _ _ armed], None) =>
      armed = ∅
      /\ Timers.armed tm' = ∅
      /\ _handlers tr' !! "msg-123"
         = Some (without_retryTimer one_request_handler)
      /\ invokeAndRemove throws_null tr' tm' "msg-123" Js.JsNull
         = (tr', tm', [Called "msg-123" Js.JsNull (view tr') ∅], None)
  | _ => False
  end.
Proof. vm_compute. repeat split; reflexivity. Qed.

End TrackerRemovalExamples.

(** ** The receive path: acknowledgements, responses, other datagrams *)

Section Incoming.
Import ReliableUdpSocket.
Context `{Js.Builtins}.
Context (run : SendCallback -> Js.Value -> RequestTracker.View
               -> RequestTracker.Outcome).

Lemma with_requestTracker_same (s : t) :
  with_requestTracker s (_requestTracker s, timers s) = s.
Proof. destruct s. reflexivity. Qed.

Lemma dispatch_ack (s : t) (now : Z) (data : string) (ack : MessageEnvelope.t)
    (rinfo : RemoteInfo.t) :
  messageType ack = Some 1 ->
  dispatch run s now data ack rinfo = _handleAcknowledgement run s ack.
Proof.
  unfold messageType, dispatch.
  destruct (MessageEnvelopeHandler.decodeFlags (MessageEnvelope.flags ack))
    as [f |]; [| discriminate].
  simpl. intros [= ->]. reflexivity.
Qed.





(** X19. A datagram that is not an envelope is handed on to the
    application as it is: the value its text parses to is emitted (an
    empty object in the place of a falsy value); when the text is not
    JSON, an error line is logged instead.  The same holds for an envelope
    of the reserved message type 3, which is emitted whole.  In every case
    the socket is as before and nothing is sent back. *)
Theorem other_datagrams_passed_on (s : t) (now : Z) (data : string)
    (rinfo : RemoteInfo.t) :
  MessageEnvelopeHandler.parse data = None
  \/ (exists parsed envelope,
        MessageEnvelopeHandler.parse data = Some parsed
        /\ MessageEnvelopeHandler.typed parsed = Some envelope
        /\ messageType envelope = Some 3) ->
  exists rest,
    handleData run s now data rinfo
    = Some (s, Engine (Emit (Some data) rinfo) :: rest)
    /\ match Js.JSON_parse data with
       | Some parsed =>
           rest = [Data (if Js.truthy parsed then parsed else Js.JsObject [])
                        rinfo]
       | None => exists line, rest = [Engine (Log LogError line)]
       end.
Proof.
  unfold handleData, _processIncomingMessage.
  intros [-> | (parsed & envelope & -> & -> & Htype)].
  - unfold emitted, UdpSocket.emitMessage. simpl.
    destruct (Js.JSON_parse data); eexists; (split; [reflexivity |]);
      [reflexivity | eexists; reflexivity].
  - unfold dispatch. unfold messageType in Htype.
    destruct (MessageEnvelopeHandler.decodeFlags (MessageEnvelope.flags envelope))
      as [f |]; [| discriminate].
    simpl in Htype. injection Htype as ->.
    unfold emitted, UdpSocket.emitMessage. simpl.
    destruct (Js.JSON_parse data); eexists; (split; [reflexivity |]);
      [reflexivity | eexists; reflexivity].
Qed.

End Incoming.

Section IncomingExamples.
Import ReliableUdpSocket.
#[local] Existing Instance Node.builtins.


(** The same acknowledgement when the callback throws [null]: the run is
    rejected and the request stays tracked. *)
Example acknowledgement_null_thrown :
  match dispatch (fun _ _ _ => RequestTracker.ThrewNullish) hello_sent 0
          EmptyString hello_ack localhost with
  | (s1, [Tracker (RequestTracker.Called _ _ _ _)], Some _) =>
      is_Some (RequestTracker.get (_requestTracker s1) hello_id)
      /\ Timers.armed (timers s1) = ∅
  | _ => False
  end.
Proof. vm_compute. split; [eexists |]; reflexivity. Qed.


(** A datagram that holds a number, and one that is not JSON. *)
Lemma other_datagrams_passed_on_witness :
  (exists rest,
     handleData returns default_socket 0 "42" localhost
     = Some (default_socket, Engine (Emit (Some "42") localhost) :: rest)
     /\ rest = [Data (Js.JsNumber 42) localhost])
  /\ (exists rest,
        handleData returns default_socket 0 "ping" localhost
        = Some (default_socket, Engine (Emit (Some "ping") localhost) :: rest)
        /\ exists line, rest = [Engine (Log LogError line)]).
Proof.
  split.
  - refine (other_datagrams_passed_on returns default_socket 0 "42" localhost _).
    left. vm_compute. reflexivity.
  - refine (other_datagrams_passed_on returns default_socket 0 "ping" localhost _).
    left. vm_compute. reflexivity.
Defined.

End IncomingExamples.

(** ** Retransmission, and the completion of a chunked send *)

Section Retry.
Import ReliableUdpSocket.
Context `{Js.Builtins}.

(** One round on a request that has retries left. *)
Lemma retry_round (s : t) (envelope : MessageEnvelope.t) (host : string)
    (port : Z) (h : RequestTracker.ResponseHandler SendCallback) :
  RequestTracker.get (_requestTracker s) (MessageEnvelope.id envelope) = Some h ->
  RequestTracker.ackReceived h = false ->
  RequestTracker.retryCount h < maxRetries (_config s) ->
  exists s1 s2 timer text h2,
    sendCompleted s (MessageEnvelope.id envelope) None = (s1, [], Some timer)
    /\ retryFired s1 envelope host port timer
       = (s2,
          [Log LogWarn text;
           Send (serialize_retry envelope (RequestTracker.retryCount h + 1))
                port host])
    /\ RequestTracker.get (_requestTracker s2) (MessageEnvelope.id envelope)
       = Some h2
    /\ RequestTracker.ackReceived h2 = false
    /\ RequestTracker.retryCount h2 = RequestTracker.retryCount h + 1
    /\ _config s2 = _config s.
Proof.
  unfold RequestTracker.get. intros Hh Hack Hleft.
  assert (Hmore : (maxRetries (_config s) <=? RequestTracker.retryCount h) = false)
    by (apply Z.leb_gt; exact Hleft).
  unfold sendCompleted, RequestTracker.get. rewrite Hh, Hack, Hmore.
  cbn [orb]. unfold Timers.setTimeout, RequestTracker.setRetryTimer.
  rewrite Hh. do 5 eexists. split; [reflexivity |].
  unfold retryFired, RequestTracker.get, RequestTracker.incrementRetry.
  cbn [with_requestTracker _requestTracker _config timers fst snd
       RequestTracker._handlers RequestTracker.with_handlers].
  rewrite !lookup_insert_eq.
  cbn [RequestTracker.ackReceived RequestTracker.retryCount].
  rewrite Hack, Hmore. cbn [orb].
  split; [reflexivity |].
  cbn [with_requestTracker _requestTracker _config timers fst snd
       RequestTracker._handlers RequestTracker.with_handlers].
  rewrite lookup_insert_eq. repeat split; reflexivity.
Qed.

(** A request that is out of retries, or gone: no timer, no datagram. *)
Lemma retry_none (s : t) (envelopeId : string) :
  match RequestTracker.get (_requestTracker s) envelopeId with
  | Some h =>
      RequestTracker.ackReceived h = true
      \/ maxRetries (_config s) <= RequestTracker.retryCount h
  | None => True
  end ->
  sendCompleted s envelopeId None = (s, [], None).
Proof.
  unfold sendCompleted.
  destruct (RequestTracker.get (_requestTracker s) envelopeId) as [h |];
    [| reflexivity].
  intros [-> | Hout]; [reflexivity |].
  apply Z.leb_le in Hout. rewrite Hout, orb_true_r. reflexivity.
Qed.

Lemma retryRounds_datagrams (n : nat) :
  forall (s : t) (envelope : MessageEnvelope.t) (host : string) (port : Z)
         (h : RequestTracker.ResponseHandler SendCallback),
    RequestTracker.get (_requestTracker s) (MessageEnvelope.id envelope) = Some h ->
    RequestTracker.ackReceived h = false ->
    datagrams (snd (retryRounds n s envelope host port))
    = (fun j => serialize_retry envelope (RequestTracker.retryCount h + Z.of_nat j))
        <$> seq 1 (Nat.min n
                     (Z.to_nat (maxRetries (_config s)
                                - RequestTracker.retryCount h))).
Proof.
  induction n as [| n IH]; intros s envelope host port h Hh Hack; [reflexivity |].
  cbn [retryRounds].
  destruct (Z_lt_le_dec (RequestTracker.retryCount h) (maxRetries (_config s)))
    as [Hleft | Hout].
  - destruct (retry_round s envelope host port h Hh Hack Hleft)
      as (s1 & s2 & timer & text & h2 & -> & -> & Hh2 & Hack2 & Hcount2 & Hconfig).
    specialize (IH s2 envelope host port h2 Hh2 Hack2).
    destruct (retryRounds n s2 envelope host port) as [s3 later].
    cbn [snd] in IH |- *.
    change (datagrams ([Log LogWarn text;
                        Send (serialize_retry envelope
                                (RequestTracker.retryCount h + 1)) port host]
                       ++ later))
      with (serialize_retry envelope (RequestTracker.retryCount h + 1)
              :: datagrams later).
    rewrite IH, Hcount2, Hconfig.
    replace (Z.to_nat (maxRetries (_config s) - RequestTracker.retryCount h))
      with (S (Z.to_nat (maxRetries (_config s)
                         - (RequestTracker.retryCount h + 1)))) by lia.
    rewrite <- Nat.succ_min_distr. cbn [seq fmap list_fmap].
    f_equal.
    rewrite <- (seq_shift _ 1).
    transitivity
      ((fun j => serialize_retry envelope
                   (RequestTracker.retryCount h + Z.of_nat j))
         <$> (S <$> seq 1 (Nat.min n
                             (Z.to_nat (maxRetries (_config s)
                                        - (RequestTracker.retryCount h + 1))))));
      [| reflexivity].
    rewrite <- list_fmap_compose.
    apply list_fmap_ext. intros _ j _. simpl. f_equal. lia.
  - rewrite (retry_none s (MessageEnvelope.id envelope))
      by (rewrite Hh; right; exact Hout).
    replace (Z.to_nat (maxRetries (_config s) - RequestTracker.retryCount h))
      with 0%nat by lia.
    rewrite Nat.min_0_r. reflexivity.
Qed.

(** X20. A request is retransmitted at most [maxRetries] times: left to
    its retries for [n] rounds, a tracked request with retry count [c]
    is sent again [min n (maxRetries - c)] times, the copies carrying the
    retry counts [c + 1], [c + 2], ...; once the count has reached
    [maxRetries] no retry timer is armed.  A request that is no longer
    tracked is never sent again, and a send that failed arms no retry
    timer. *)
Theorem retries_bounded (s : t) (envelope : MessageEnvelope.t) (host : string)
    (port : Z) :
  (forall h n,
     RequestTracker.get (_requestTracker s) (MessageEnvelope.id envelope)
     = Some h ->
     RequestTracker.ackReceived h = false ->
     datagrams (snd (retryRounds n s envelope host port))
     = (fun j => serialize_retry envelope (RequestTracker.retryCount h + Z.of_nat j))
         <$> seq 1 (Nat.min n
                      (Z.to_nat (maxRetries (_config s)
                                 - RequestTracker.retryCount h))))
  /\ (RequestTracker.get (_requestTracker s) (MessageEnvelope.id envelope) = None ->
      sendCompleted s (MessageEnvelope.id envelope) None = (s, [], None)
      /\ forall timer,
           datagrams (snd (retryFired s envelope host port timer)) = [])
  /\ (forall message,
        exists line,
          sendCompleted s (MessageEnvelope.id envelope) (Some message)
          = (s, [Log LogError line], None)).
Proof.
  split; [| split].
  - intros h n Hh Hack. apply retryRounds_datagrams; assumption.
  - intros Hgone. split.
    + apply retry_none. rewrite Hgone. exact I.
    + intros timer. unfold retryFired, RequestTracker.get in *.
      cbn [with_requestTracker _requestTracker fst]. rewrite Hgone. reflexivity.
  - intros message. eexists. reflexivity.
Qed.

End Retry.

Section RetryExamples.
Import ReliableUdpSocket.
#[local] Existing Instance Node.builtins.

(** The message the default socket has sent, left alone for 8 rounds: 5
    retransmissions. *)
Lemma retries_bounded_witness :
  datagrams (snd (retryRounds 8 hello_sent hello_envelope "127.0.0.1" 41234))
  = (fun j => serialize_retry hello_envelope j) <$> [1; 2; 3; 4; 5].
Proof.
  destruct (retries_bounded hello_sent hello_envelope "127.0.0.1" 41234)
    as (Hrounds & _).
  destruct (RequestTracker.get (_requestTracker hello_sent)
              (MessageEnvelope.id hello_envelope)) as [h |] eqn:Hh;
    [| vm_compute in Hh; discriminate].
  rewrite (Hrounds h 8%nat eq_refl).
  - vm_compute in Hh. injection Hh as <-. reflexivity.
  - vm_compute in Hh. injection Hh as <-. reflexivity.
Defined.

End RetryExamples.

Section Completion.
Import ReliableUdpSocket.

(** Once a chunk has timed out, the closures call nothing more. *)
Lemma settleAll_after_error (total : nat) (callback : bool)
    (xs : list Settlement) (v : ChunkedSend) :
  hasError v = true -> snd (settleAll total callback v xs) = [].
Proof.
  revert v. induction xs as [| x xs IH]; intros v Herror; [reflexivity |].
  cbn [settleAll].
  destruct x as [i | i]; unfold settle, chunkAcked, chunkTimedOut;
    rewrite Herror.
  - rewrite andb_false_r.
    specialize (IH {| completedChunks := completedChunks v + 1;
                      hasError := true |} eq_refl).
    destruct (settleAll total callback _ xs) as [v' later]. exact IH.
  - specialize (IH v Herror).
    destruct (settleAll total callback v xs) as [v' later]. exact IH.
Qed.

(** Without a completion callback nothing is called. *)
Lemma settleAll_no_callback (total : nat) (xs : list Settlement)
    (v : ChunkedSend) :
  snd (settleAll total false v xs) = [].
Proof.
  revert v. induction xs as [| x xs IH]; intros v; [reflexivity |].
  cbn [settleAll].
  destruct x as [i | i]; unfold settle, chunkAcked, chunkTimedOut.
  - rewrite andb_false_r. cbn [andb].
    specialize (IH {| completedChunks := completedChunks v + 1;
                      hasError := hasError v |}).
    destruct (settleAll total false _ xs) as [v' later]. exact IH.
  - destruct (hasError v).
    + specialize (IH v).
      destruct (settleAll total false v xs) as [v' later]. exact IH.
    + specialize (IH {| completedChunks := completedChunks v;
                        hasError := true |}).
      destruct (settleAll total false _ xs) as [v' later]. exact IH.
Qed.

Lemma settleAll_completion (total : nat) (xs : list Settlement) :
  forall v : ChunkedSend,
    hasError v = false ->
    completedChunks v + Z.of_nat (length xs) <= Z.of_nat total ->
    snd (settleAll total true v xs)
    = match first_expired xs with
      | Some i =>
          [Completion (Some ("Chunk " +:+ Js.BigInt_toString (Z.of_nat i)
                               +:+ " timeout"))]
      | None =>
          if bool_decide (xs <> []
                          /\ completedChunks v + Z.of_nat (length xs)
                             = Z.of_nat total)
          then [Completion None] else []
      end.
Proof.
  induction xs as [| x xs IH]; intros v Herror Hroom.
  - change (first_expired []) with (@None nat).
    rewrite bool_decide_false by (intros [Hne _]; congruence).
    reflexivity.
  - cbn [settleAll]. destruct x as [i | i].
    + unfold settle, chunkAcked. rewrite Herror. cbn [negb andb].
      rewrite andb_true_r.
      set (v1 := {| completedChunks := completedChunks v + 1; hasError := false |}).
      assert (Hroom1 : completedChunks v1 + Z.of_nat (length xs) <= Z.of_nat total).
      { simpl in Hroom |- *. lia. }
      specialize (IH v1 eq_refl Hroom1).
      destruct (settleAll total true v1 xs) as [v' later]. cbn [snd] in IH |- *.
      change (first_expired (Acknowledged i :: xs)) with (first_expired xs).
      rewrite IH.
      destruct (completedChunks v + 1 =? Z.of_nat total) eqn:Hdone.
      * apply Z.eqb_eq in Hdone.
        assert (Hlast : xs = []).
        { destruct xs; [reflexivity |]. simpl in Hroom. lia. }
        subst xs. simpl.
        rewrite bool_decide_true by (split; [discriminate | lia]).
        reflexivity.
      * apply Z.eqb_neq in Hdone. cbn [app].
        destruct (first_expired xs); [reflexivity |].
        destruct xs as [| x xs].
        -- rewrite !bool_decide_false; [reflexivity | |].
           ++ intros [_ Hall]. simpl in Hall. lia.
           ++ intros [Hne _]. congruence.
        -- destruct (decide (completedChunks v1 + Z.of_nat (length (x :: xs))
                             = Z.of_nat total)) as [Hall | Hnot].
           ++ rewrite !bool_decide_true; [reflexivity | |].
              ** split; [discriminate |]. simpl in Hall |- *. lia.
              ** split; [discriminate | exact Hall].
           ++ rewrite !bool_decide_false; [reflexivity | |].
              ** intros [_ Hall]. apply Hnot. simpl in Hall |- *. lia.
              ** intros [_ Hall]. contradiction.
    + unfold settle, chunkTimedOut. rewrite Herror.
      pose proof (settleAll_after_error total true xs
                    {| completedChunks := completedChunks v; hasError := true |}
                    eq_refl) as Hquiet.
      destruct (settleAll total true _ xs) as [v' later]. cbn [snd] in Hquiet |- *.
      rewrite Hquiet. reflexivity.
Qed.

(** Distinct indices below [total] are at most [total]. *)
Lemma distinct_below (total : nat) (l : list nat) :
  NoDup l -> Forall (fun i => (i < total)%nat) l -> (length l <= total)%nat.
Proof.
  intros Hdistinct Hbelow.
  assert (Hlength : length (seq 0 total) = total) by apply List.length_seq.
  rewrite <- Hlength.
  apply NoDup_incl_length; [apply NoDup_ListNoDup; exact Hdistinct |].
  intros i Hi. apply in_seq. rewrite Forall_forall in Hbelow.
  specialize (Hbelow i (proj2 (list_elem_of_In _ _) Hi)). lia.
Qed.

(** X21. The completion callback of a chunked send is called at most
    once.  When the requests of the chunks are settled, each at most
    once, the callback is called with the error of the chunk whose timeout
    comes first, if any chunk times out, and then with nothing more; it is
    called without error when the last of all the chunks is acknowledged,
    and not before.  Without a callback nothing is called. *)
Theorem chunked_send_completes_once (total : nat) (xs : list Settlement) :
  (0 < total)%nat ->
  NoDup (index_of <$> xs) ->
  Forall (fun x => (index_of x < total)%nat) xs ->
  snd (settleAll total true {| completedChunks := 0; hasError := false |} xs)
  = match first_expired xs with
    | Some i =>
        [Completion (Some ("Chunk " +:+ Js.BigInt_toString (Z.of_nat i)
                             +:+ " timeout"))]
    | None => if (length xs =? total)%nat then [Completion None] else []
    end
  /\ snd (settleAll total false {| completedChunks := 0; hasError := false |} xs)
     = [].
Proof.
  intros Hsome Hdistinct Hbelow. split; [| apply settleAll_no_callback].
  assert (Hroom : (length xs <= total)%nat).
  { rewrite <- (length_fmap index_of xs).
    apply distinct_below; [exact Hdistinct |].
    apply Forall_fmap. exact Hbelow. }
  rewrite settleAll_completion by (simpl; lia).
  destruct (first_expired xs); [reflexivity |]. simpl.
  destruct (length xs =? total)%nat eqn:Hall.
  - apply Nat.eqb_eq in Hall. rewrite bool_decide_true; [reflexivity |].
    split; [| lia]. intros ->. simpl in Hall. lia.
  - apply Nat.eqb_neq in Hall. rewrite bool_decide_false; [reflexivity |].
    intros [_ Hlength]. lia.
Qed.

End Completion.

Section CompletionExamples.
Import ReliableUdpSocket.

(** Three chunks: the second acknowledged, the first timed out, the third
    acknowledged. *)
Lemma chunked_send_completes_once_witness :
  snd (settleAll 3 true {| completedChunks := 0; hasError := false |}
         [Acknowledged 1; Expired 0; Acknowledged 2])
  = [Completion (Some "Chunk 0 timeout")]
  /\ snd (settleAll 3 false {| completedChunks := 0; hasError := false |}
            [Acknowledged 1; Expired 0; Acknowledged 2])
     = [].
Proof.
  refine (chunked_send_completes_once 3
            [Acknowledged 1; Expired 0; Acknowledged 2] _ _ _).
  - lia.
  - vm_compute. repeat constructor; set_solver.
  - repeat constructor.
Defined.

End CompletionExamples.

(** ** [configure] and [close] *)

Section Housekeeping.
Import ReliableUdpSocket.
Context `{Js.Builtins}.
Context (run : SendCallback -> Js.Value -> RequestTracker.View
               -> RequestTracker.Outcome).

(** What [clear] leaves of a tracker and of the timers. *)
Lemma tracker_clear_parts {C : Type} (tr : RequestTracker.t C) (tm : Timers.t) :
  RequestTracker._handlers (fst (RequestTracker.clear tr tm)) = ∅
  /\ Timers.armed (snd (RequestTracker.clear tr tm))
     = Timers.armed tm ∖ held (RequestTracker._handlers tr).
Proof.
  destruct (clear_loop (map_to_list (RequestTracker._handlers tr)) tr tm)
    as (tr' & tm' & Hfold & Hh & _ & Ha).
  { apply NoDup_fst_map_to_list. }
  { intros k h Hin. apply elem_of_map_to_list. exact Hin. }
  unfold RequestTracker.clear. rewrite Hfold. simpl. split; [| exact Ha].
  apply map_eq. intros k. rewrite Hh, lookup_empty.
  destruct (decide (k ∈ (map_to_list (RequestTracker._handlers tr)).*1))
    as [_ | Hout]; [reflexivity |].
  destruct (RequestTracker._handlers tr !! k) as [h |] eqn:Hk; [| reflexivity].
  exfalso. apply Hout. apply list_elem_of_fmap. exists (k, h).
  split; [reflexivity |]. apply elem_of_map_to_list. exact Hk.
Qed.

(** An acknowledgement for a request the tracker does not hold. *)
Lemma ack_unknown (s : t) (now : Z) (data : string) (ack : MessageEnvelope.t)
    (rinfo : RemoteInfo.t) :
  RequestTracker.get (_requestTracker s) (MessageEnvelope.id ack) = None ->
  messageType ack = Some 1 ->
  dispatch run s now data ack rinfo = (s, [], None).
Proof.
  intros Hgone Hack. rewrite (dispatch_ack run _ _ _ _ _ Hack).
  unfold _handleAcknowledgement.
  rewrite (invokeAndRemove_unknown run _ _ _ _ Hgone), with_requestTracker_same.
  reflexivity.
Qed.

(** X22. [configure] stores the four settings before it validates them:
    when [maxMessageSize] is outside the limits it throws, and the socket
    keeps the rejected value (nothing else is changed).  When it
    succeeds: a chunk size or a reassembly timeout given alone resets the
    other to its built-in default, not to the value in force, and the
    assemblies under way are dropped; a request timeout replaces the
    tracker by an empty one, so the requests in flight are forgotten
    (their acknowledgements are ignored) while their timers stay armed. *)
Theorem configure_replaces (libs : Libraries.t) (s : t)
    (options : ReliableUdpSocketOptions.t) :
  let s' := fst (configure libs s options) in
  let error := snd (configure libs s options) in
  _config s'
  = {| maxMessageSize :=
         default (maxMessageSize (_config s))
                 (ReliableUdpSocketOptions.maxMessageSize options);
       maxRetries :=
         default (maxRetries (_config s))
                 (ReliableUdpSocketOptions.maxRetries options);
       retryInterval :=
         default (retryInterval (_config s))
                 (ReliableUdpSocketOptions.retryInterval options);
       enableChecksum :=
         default (enableChecksum (_config s))
                 (ReliableUdpSocketOptions.enableChecksum options) |}
  /\ timers s' = timers s
  /\ (maxMessageSize (_config s') < Constants.MIN_MESSAGE_SIZE
      \/ Constants.MAX_MESSAGE_SIZE < maxMessageSize (_config s') ->
      error <> None /\ s' = with_config s (_config s'))
  /\ (error = None ->
      Constants.MIN_MESSAGE_SIZE <= maxMessageSize (_config s')
        <= Constants.MAX_MESSAGE_SIZE
      /\ (is_Some (ReliableUdpSocketOptions.chunkSize options)
          \/ is_Some (ReliableUdpSocketOptions.reassemblyTimeout options) ->
          _chunkingHandler s'
          = ChunkingHandler.new
              (Some (default Constants.DEFAULT_CHUNK_SIZE
                             (ReliableUdpSocketOptions.chunkSize options)))
              (Some (default Constants.DEFAULT_REASSEMBLY_TIMEOUT
                             (ReliableUdpSocketOptions.reassemblyTimeout options))))
      /\ (ReliableUdpSocketOptions.chunkSize options = None ->
          ReliableUdpSocketOptions.reassemblyTimeout options = None ->
          _chunkingHandler s' = _chunkingHandler s)
      /\ (ReliableUdpSocketOptions.requestTimeout options = None ->
          _requestTracker s' = _requestTracker s)
      /\ (forall requestTimeout,
            ReliableUdpSocketOptions.requestTimeout options = Some requestTimeout ->
            _requestTracker s' = RequestTracker.new (Some requestTimeout)
            /\ forall now data ack rinfo,
                 messageType ack = Some 1 ->
                 dispatch run s' now data ack rinfo = (s', [], None))).
Proof.
  intros s' error. subst s' error. unfold configure.
  set (config := {| maxMessageSize := _; maxRetries := _; retryInterval := _;
                    enableChecksum := _ |}).
  unfold _validateOptions.
  destruct ((maxMessageSize config <? Constants.MIN_MESSAGE_SIZE)
            || (Constants.MAX_MESSAGE_SIZE <? maxMessageSize config)) eqn:Hvalid.
  { cbn [fst snd with_config _config timers].
    split; [reflexivity |]. split; [reflexivity |].
    split; [intros _; split; [discriminate | reflexivity] | discriminate]. }
  apply orb_false_iff in Hvalid as [Hmin Hmax].
  apply Z.ltb_ge in Hmin, Hmax.
  destruct (match ReliableUdpSocketOptions.messageIdOptions options with
            | Some o => _
            | None => Some (_idGenerator (with_config s config))
            end) as [g |].
  2: { cbn [fst snd with_config _config timers].
       split; [reflexivity |]. split; [reflexivity |].
       split; [intros [Hlow | Hhigh]; lia | discriminate]. }
  destruct (match ReliableUdpSocketOptions.compression options with
            | Some c => _
            | None => Some (_compressionHandler _)
            end) as [h |].
  2: { cbn [fst snd with_config with_idGenerator _config timers].
       split; [reflexivity |]. split; [reflexivity |].
       split; [intros [Hlow | Hhigh]; lia | discriminate]. }
  cbn [fst snd].
  destruct (ReliableUdpSocketOptions.chunkSize options) as [chunkSize |];
    destruct (ReliableUdpSocketOptions.reassemblyTimeout options)
      as [reassemblyTimeout |];
    destruct (ReliableUdpSocketOptions.requestTimeout options)
      as [requestTimeout |];
    cbn [bool_decide decide_rel is_Some_dec orb default with_requestTracker
         with_chunkingHandler with_compressionHandler with_idGenerator
         with_config _config timers _chunkingHandler _requestTracker fst snd];
    (split; [reflexivity |]); (split; [reflexivity |]);
    (split; [intros [Hlow | Hhigh]; lia |]);
    intros _; (split; [split; assumption |]);
    (split; [intros Hgiven;
             first [reflexivity
                   | destruct Hgiven as [[v Hv] | [v Hv]]; discriminate] |]);
    (split; [intros Hsize Htimeout; first [reflexivity | discriminate] |]);
    (split; [intros Hrequest; first [reflexivity | discriminate] |]);
    intros r Hr;
    first [discriminate
          | injection Hr as <-; split; [reflexivity |];
            intros now data ack rinfo Hack;
            apply ack_unknown; [apply lookup_empty | exact Hack]].
Qed.

(** X23. [close] leaves nothing pending: the cleanup timer is stopped, no
    request is tracked and no assembly is under way, and the retry and
    timeout timers of the requests that were in flight are cleared.  No
    callback is called, so the senders of these requests are never told;
    an acknowledgement that arrives afterwards and a retry timer that
    still fires do nothing. *)
Theorem close_drops_pending (s : t) (cleanupTimer : option nat) :
  let s' := fst (close s cleanupTimer) in
  snd (close s cleanupTimer) = None
  /\ (_config s', _idGenerator s', _compressionHandler s')
     = (_config s, _idGenerator s, _compressionHandler s)
  /\ (forall id, RequestTracker.get (_requestTracker s') id = None)
  /\ (forall id, ChunkingHandler.getAssembly (_chunkingHandler s') id = None)
  /\ Timers.armed (timers s')
     = (Timers.armed (timers s)
          ∖ match cleanupTimer with Some timer => {[timer]} | None => ∅ end)
         ∖ held (RequestTracker._handlers (_requestTracker s))
  /\ (forall now data ack rinfo,
        messageType ack = Some 1 ->
        dispatch run s' now data ack rinfo = (s', [], None))
  /\ (forall envelope host port timer,
        snd (retryFired s' envelope host port timer) = []).
Proof.
  intros s'. subst s'. unfold close.
  set (tm := match cleanupTimer with
             | Some timer => Timers.clearTimeout (timers s) timer
             | None => timers s
             end).
  destruct (tracker_clear_parts (_requestTracker s) tm) as [Hempty Harmed].
  cbn [fst snd with_requestTracker with_chunkingHandler _config _idGenerator
       _compressionHandler _requestTracker _chunkingHandler timers].
  assert (Hgone : forall id,
            RequestTracker.get (RequestTracker.clear (_requestTracker s) tm).1 id
            = None).
  { intros id. unfold RequestTracker.get. rewrite Hempty. apply lookup_empty. }
  split; [reflexivity |]. split; [reflexivity |]. split; [exact Hgone |].
  split; [intros id; apply lookup_empty |]. split.
  { rewrite Harmed. subst tm. destruct cleanupTimer as [timer |]; simpl.
    - reflexivity.
    - rewrite difference_empty_L. reflexivity. }
  split.
  - intros now data ack rinfo Hack. apply ack_unknown; [apply Hgone | exact Hack].
  - intros envelope host port timer. unfold retryFired.
    cbn [with_requestTracker _requestTracker fst]. rewrite Hgone. reflexivity.
Qed.

End Housekeeping.

(** ** From the sender to the application of the receiver *)

Section Delivery.
Import ReliableUdpSocket.
Context `{Js.Builtins}.
Context (run : SendCallback -> Js.Value -> RequestTracker.View
               -> RequestTracker.Outcome).

(** A datagram that holds an envelope reaches the switch on its type. *)
Lemma receive_envelope (r : t) (now : Z) (e : MessageEnvelope.t)
    (rinfo : RemoteInfo.t) :
  reads_back (MessageEnvelopeHandler.envelope_object e) ->
  is_Some (MessageEnvelope.flags e) ->
  _processIncomingMessage run r now (MessageEnvelopeHandler.serialize e) rinfo
  = let '(s, steps, error) :=
      dispatch run r now (MessageEnvelopeHandler.serialize e) e rinfo in
    Ran s steps error.
Proof.
  intros Hreads Hflags.
  unfold _processIncomingMessage, MessageEnvelopeHandler.parse.
  unfold MessageEnvelopeHandler.serialize at 1. rewrite Hreads.
  rewrite isValidEnvelope_envelope_object, bool_decide_true by exact Hflags.
  rewrite typed_envelope_object. reflexivity.
Qed.

(** A request whose checksum, if it has one, is the one the sender
    computes passes the check of every receiver. *)
Lemma own_checksum_passes (r : t) (req : MessageEnvelope.t) :
  MessageEnvelope.checksum req = None
  \/ MessageEnvelope.checksum req = _calculateChecksum (MessageEnvelope.body req) ->
  ~ checksum_mismatch r req.
Proof.
  intros [Hnone | Hown] (_ & c & Hc & _ & Hdiffers).
  - congruence.
  - apply Hdiffers. congruence.
Qed.

(** The checksum of the envelopes [createEnvelope] builds. *)
Lemma createEnvelope_checksum (id : string) (type : MessageType)
    (body : Js.Value) (options : MessageEnvelopOptions.t) :
  let e := MessageEnvelopeHandler.createEnvelope id type body options in
  MessageEnvelope.checksum e = None
  \/ MessageEnvelope.checksum e = MessageEnvelopOptions.checksum options.
Proof.
  simpl. destruct (string_truthy (MessageEnvelopOptions.checksum options)); auto.
Qed.


(** What [prepare] hands on: the message itself, or the text its JSON was
    compressed to. *)
Lemma prepare_parts (s : t) (message body : Js.Value)
    (cr : option CompressionResult.t) (finalSize : Z) :
  prepare s message = Some (body, cr, finalSize) ->
  message <> Js.JsUndefined
  /\ match cr with
     | Some r =>
         body = Js.JsString (CompressionResult.data r)
         /\ CompressionHandler.tryCompress (_compressionHandler s)
              (Js.JSON_stringify_defined message) = Some r
     | None => body = message
     end.
Proof.
  unfold prepare.
  destruct message; try discriminate;
    cbn [Js.JSON_stringify]; intros Hrun;
    (split; [discriminate |]);
    revert Hrun;
    (destruct (CompressionHandler.shouldCompress _ _);
     [destruct (CompressionHandler.tryCompress _ _) as [r |] |]);
    cbn [text_of Js.JSON_stringify]; intros [= <- <- <-]; auto.
Qed.


End Delivery.

Section DeliveryExamples.
Import ReliableUdpSocket.
#[local] Existing Instance JsonText.builtins.


End DeliveryExamples.

(** ** A chunked message, from the sender to the application *)

Section ChunkedDelivery.
Import ReliableUdpSocket.
Context `{Js.Builtins}.
Context (run : SendCallback -> Js.Value -> RequestTracker.View
               -> RequestTracker.Outcome).

(** The digits of a number hold no letter. *)
Lemma string_of_uint_no_c (d : Decimal.uint) (rest : string) :
  String.prefix "chunk-" (NilEmpty.string_of_uint d +:+ "-" +:+ rest) = false
  /\ before_separator "-chunk-"
       (NilEmpty.string_of_uint d +:+ "-chunk-" +:+ rest)
     = NilEmpty.string_of_uint d.
Proof.
  induction d as [| d [IHp IHb] | d [IHp IHb] | d [IHp IHb] | d [IHp IHb]
                  | d [IHp IHb] | d [IHp IHb] | d [IHp IHb] | d [IHp IHb]
                  | d [IHp IHb] | d [IHp IHb]];
    [split; [reflexivity | destruct rest; reflexivity] | ..];
    (split; [reflexivity |]);
    cbn [NilEmpty.string_of_uint];
    change (String ?c ?s +:+ ?t) with (String c (s +:+ t));
    cbn [before_separator];
    change (String.prefix "-chunk-" (String ?c ?s)) with false;
    cbv iota; rewrite IHb; reflexivity.
Qed.

(** [split('-chunk-')[0]] gives back the message id from the id of a
    chunk. *)
Lemma before_separator_chunkId (z : Z) (i : nat) :
  before_separator "-chunk-" (chunkId (Js.BigInt_toString z) i)
  = Js.BigInt_toString z.
Proof.
  unfold chunkId. generalize (Js.BigInt_toString (Z.of_nat i)). intros rest.
  unfold Js.BigInt_toString.
  assert (Hdigits : forall d rest,
            String.prefix "chunk-" (NilZero.string_of_uint d +:+ "-" +:+ rest)
            = false
            /\ before_separator "-chunk-"
                 (NilZero.string_of_uint d +:+ "-chunk-" +:+ rest)
               = NilZero.string_of_uint d).
  { intros d rest'. unfold NilZero.string_of_uint.
    destruct d; try apply string_of_uint_no_c.
    split; [reflexivity | destruct rest'; reflexivity]. }
  destruct (Z.to_int z) as [d | d]; cbn [NilZero.string_of_int].
  - apply Hdigits.
  - change (String ?c ?s +:+ ?t) with (String c (s +:+ t)).
    cbn [before_separator].
    destruct (Hdigits d ("chunk-" +:+ rest)) as [Hprefix _].
    destruct (Hdigits d rest) as [_ Hbefore].
    change (String.prefix "-chunk-" (String "-" ?s))
      with (String.prefix "chunk-" s).
    change ("-" +:+ "chunk-" +:+ ?x) with ("-chunk-" +:+ x) in Hprefix.
    rewrite Hprefix, Hbefore. reflexivity.
Qed.

(** One chunk is stored in the assembly of its message. *)
Lemma addChunk_assemblyOf (h : ChunkingHandler.t) (messageId : string)
    (texts : list string) (now : Z) (remote : option RemoteInfo.t)
    (codec : option CompressionCodecType) (seen : gset nat) (i : nat)
    (text : string) :
  ChunkingHandler._assemblies h !! messageId
  = Some (assemblyOf texts now remote codec seen) ->
  texts !! i = Some text ->
  ChunkingHandler.addChunk h messageId (Z.of_nat i) (Js.JsString text)
  = ({| ChunkingHandler._config := ChunkingHandler._config h;
        ChunkingHandler._assemblies :=
          <[messageId := assemblyOf texts now remote codec ({[i]} ∪ seen)]>
            (ChunkingHandler._assemblies h) |},
     Z.of_nat (size ({[i]} ∪ seen)) =? Z.of_nat (length texts)).
Proof.
  intros Ha Hi. unfold ChunkingHandler.addChunk. rewrite Ha.
  cbn [assemblyOf ChunkingHandler.chunks ChunkingHandler.receivedCount
       ChunkingHandler.totalChunks ChunkingHandler.acksReceived
       ChunkingHandler.timestamp ChunkingHandler.remoteInfo
       ChunkingHandler.compressionCodec].
  rewrite (array_get_inside _ i
             (if decide (i ∈ seen) then Js.JsString text else Js.JsNull))
    by (rewrite slots_lookup, Hi; reflexivity).
  destruct (decide (i ∈ seen)) as [Hin | Hout]; cbn [Js.is_null].
  - assert (Hsame : {[i]} ∪ seen = seen) by set_solver.
    rewrite Hsame, (insert_id _ _ _ Ha). destruct h. reflexivity.
  - rewrite Nat2Z.id, (slots_insert _ _ _ _ Hi). unfold assemblyOf.
    rewrite size_union, size_singleton by set_solver.
    replace (Z.of_nat (1 + size seen)) with (Z.of_nat (size seen) + 1) by lia.
    reflexivity.
Qed.

(** The assembly of a message all of whose chunks have arrived. *)
Lemma getAssembledData_all (h : ChunkingHandler.t) (messageId : string)
    (pieces : list (list byte)) (now : Z) (remote : option RemoteInfo.t)
    (codec : option CompressionCodecType) (seen : gset nat) :
  (forall bs, Js.base64_decode (Js.base64_encode bs) = bs) ->
  ChunkingHandler._assemblies h !! messageId
  = Some (assemblyOf (Js.base64_encode <$> pieces) now remote codec seen) ->
  (forall i, (i < length pieces)%nat -> i ∈ seen) ->
  size seen = length pieces ->
  ChunkingHandler.getAssembledData h messageId = Some (concat pieces, codec).
Proof.
  intros Hbase64 Ha Hall Hsize. unfold ChunkingHandler.getAssembledData.
  rewrite Ha.
  cbn [assemblyOf ChunkingHandler.chunks ChunkingHandler.receivedCount
       ChunkingHandler.totalChunks ChunkingHandler.compressionCodec].
  rewrite length_fmap, Hsize, Z.eqb_refl. cbn [negb].
  rewrite slots_all by (rewrite length_fmap; exact Hall).
  replace (existsb Js.is_null (Js.JsString <$> (Js.base64_encode <$> pieces)))
    with false.
  - rewrite mapM_Buffer_from_base64, <- list_fmap_compose.
    rewrite (list_fmap_ext (Js.base64_decode ∘ Js.base64_encode) id pieces)
      by (intros; apply Hbase64).
    rewrite list_fmap_id. reflexivity.
  - symmetry. apply existsb_is_null.
    apply Forall_fmap, Forall_forall. intros text _. discriminate.
Qed.

Section Stream.
Context (config : SocketConfig) (messageId : string)
  (cr : option CompressionResult.t) (pieces : list (list byte)) (now : Z)
  (rinfo : RemoteInfo.t) (r0 : t).
Context (Hid : forall i,
           before_separator "-chunk-" (chunkId messageId i) = messageId).
Context (Hfresh : ChunkingHandler.getAssembly (_chunkingHandler r0) messageId
                  = None).
Context (Hlimit : Z.of_nat (length pieces) <= 4294967295).
Context (Hwire : forall i p,
           pieces !! i = Some p ->
           reads_back
             (MessageEnvelopeHandler.envelope_object
                (chunkEnvelope config messageId cr (length pieces) i
                   (Js.base64_encode p)))).

Local Abbreviation current := (underway r0 messageId cr pieces now rinfo).

(** The chunk at index [i] arrives: [_handleChunkedRequest] up to its
    test of [isComplete]. *)
Lemma handleChunkedRequest_stored (seen : gset nat) (i : nat) (p : list byte) :
  pieces !! i = Some p ->
  _handleChunkedRequest (current seen) now
    (chunkEnvelope config messageId cr (length pieces) i (Js.base64_encode p))
    (Z.of_nat i) (Z.of_nat (length pieces)) rinfo
  = let h :=
      {| ChunkingHandler._config :=
           ChunkingHandler._config (_chunkingHandler r0);
         ChunkingHandler._assemblies :=
           <[messageId :=
               assemblyOf (Js.base64_encode <$> pieces) now (Some rinfo)
                 (Some (codec_of cr)) ({[i]} ∪ seen)]>
             (ChunkingHandler._assemblies (_chunkingHandler r0)) |} in
    let e2 :=
      (if decide (seen = ∅)
       then [InitAssembly messageId (Z.of_nat (length pieces))] else [])
        ++ [AddChunk messageId (Z.of_nat i)] in
    if Z.of_nat (size ({[i]} ∪ seen)) =? Z.of_nat (length pieces) then
      match ChunkingHandler.getAssembledData h messageId with
      | None =>
          (with_chunkingHandler r0 h,
           e2 ++ [Log LogError ("Failed to assemble message " +:+ messageId)],
           None)
      | Some (data, compressionCodec) =>
          let h := fst (ChunkingHandler.removeAssembly h messageId) in
          let finalData := Js.Buffer_toString_utf8 data in
          if codec_truthy compressionCodec then
            let codec := default NONE compressionCodec in
            let decompressed :=
              CompressionHandler.tryDecompress (_compressionHandler r0)
                (Js.JsString finalData) codec in
            (with_chunkingHandler r0 h,
             e2 ++ [Decompress codec;
                    Emit (Js.JSON_stringify decompressed) rinfo],
             None)
          else
            (with_chunkingHandler r0 h, e2 ++ [Emit (Some finalData) rinfo], None)
      end
    else (with_chunkingHandler r0 h, e2, None).
Proof.
  intros Hi.
  assert (Htext : (Js.base64_encode <$> pieces) !! i = Some (Js.base64_encode p))
    by (rewrite list_lookup_fmap, Hi; reflexivity).
  destruct (chunkEnvelope_fields config messageId cr (length pieces) i
              (Js.base64_encode p))
    as (Hident & Hbody & _ & _ & Hflags & _).
  unfold _handleChunkedRequest. rewrite Hident, Hid, Hflags, Hbody.
  cbn [fmap option_fmap option_map DecodedFlags.codec].
  unfold underway. destruct (decide (seen = ∅)) as [-> | Hsome].
  - rewrite Hfresh. unfold ChunkingHandler.initAssembly.
    replace ((Z.of_nat (length pieces) <? 0)
             || (4294967295 <? Z.of_nat (length pieces))) with false
      by (symmetry; apply orb_false_iff; split; apply Z.ltb_ge; lia).
    replace {| ChunkingHandler.chunks :=
                 repeat Js.JsNull (Z.to_nat (Z.of_nat (length pieces)));
               ChunkingHandler.totalChunks := Z.of_nat (length pieces);
               ChunkingHandler.receivedCount := 0;
               ChunkingHandler.acksReceived := [];
               ChunkingHandler.timestamp := now;
               ChunkingHandler.remoteInfo := Some rinfo;
               ChunkingHandler.compressionCodec := Some (codec_of cr) |}
      with (assemblyOf (Js.base64_encode <$> pieces) now (Some rinfo)
              (Some (codec_of cr)) ∅)
      by (unfold assemblyOf;
          rewrite slots_empty, length_fmap, Nat2Z.id, size_empty; reflexivity).
    rewrite (addChunk_assemblyOf _ messageId (Js.base64_encode <$> pieces) now
               (Some rinfo) (Some (codec_of cr)) ∅ i (Js.base64_encode p))
      by (exact Htext || apply lookup_insert_eq).
    cbn [ChunkingHandler._config ChunkingHandler._assemblies].
    rewrite insert_insert_eq, length_fmap. reflexivity.
  - unfold ChunkingHandler.getAssembly, assembling.
    cbn [_chunkingHandler with_chunkingHandler ChunkingHandler._assemblies].
    rewrite lookup_insert_eq.
    rewrite (addChunk_assemblyOf _ messageId (Js.base64_encode <$> pieces) now
               (Some rinfo) (Some (codec_of cr)) seen i (Js.base64_encode p))
      by (exact Htext || apply lookup_insert_eq).
    cbn [ChunkingHandler._config ChunkingHandler._assemblies
         _compressionHandler with_chunkingHandler].
    rewrite insert_insert_eq, length_fmap. reflexivity.
Qed.

(** A datagram that holds a chunk: the acknowledgement, then
    [_handleChunkedRequest]. *)
Lemma receive_chunk (r : t) (i : nat) (p : list byte) :
  pieces !! i = Some p ->
  handleData run r now
    (MessageEnvelopeHandler.serialize
       (chunkEnvelope config messageId cr (length pieces) i (Js.base64_encode p)))
    rinfo
  = let '(s, events, error) :=
      _handleChunkedRequest r now
        (chunkEnvelope config messageId cr (length pieces) i (Js.base64_encode p))
        (Z.of_nat i) (Z.of_nat (length pieces)) rinfo in
    let '(steps, thrown) :=
      emitted (Send (MessageEnvelopeHandler.serialize
                       (ackEnvelope (chunkId messageId i)))
                    (RemoteInfo.port rinfo) (RemoteInfo.address rinfo)
                 :: events) in
    Some (s,
          steps
            ++ match match thrown with Some e => Some e | None => error end with
               | Some e =>
                   [Engine (Log LogError ("Error processing message: " +:+ e))]
               | None => []
               end).
Proof.
  intros Hi.
  destruct (chunkEnvelope_fields config messageId cr (length pieces) i
              (Js.base64_encode p))
    as (Hident & Hbody & Hci & Hct & Hflags & _).
  unfold handleData.
  rewrite receive_envelope by (apply (Hwire i p Hi) || (eexists; reflexivity)).
  unfold dispatch. rewrite Hflags. cbn [DecodedFlags.type MessageType_value].
  rewrite handleRequest_accepted.
  2: { apply own_checksum_passes. rewrite Hbody.
       unfold chunkEnvelope.
       match goal with
       | |- context [MessageEnvelopeHandler.createEnvelope ?a ?b ?c ?o] =>
           destruct (createEnvelope_checksum a b c o) as [Hnone | Hsome]
       end; [left; exact Hnone |].
       rewrite Hsome. cbn [MessageEnvelopOptions.checksum].
       destruct (enableChecksum config); auto. }
  rewrite Hci, Hct. unfold acknowledgement. rewrite Hident.
  destruct (_handleChunkedRequest r now _ (Z.of_nat i) (Z.of_nat (length pieces))
              rinfo) as [[s events] error].
  fold (ackEnvelope (chunkId messageId i)).
  destruct (emitted _) as [steps thrown]. reflexivity.
Qed.

(** A chunk that does not complete its message is acknowledged and
    stored. *)
Lemma receive_chunk_partial (seen : gset nat) (i : nat) (p : list byte) :
  pieces !! i = Some p ->
  size ({[i]} ∪ seen) <> length pieces ->
  handleData run (current seen) now
    (MessageEnvelopeHandler.serialize
       (chunkEnvelope config messageId cr (length pieces) i (Js.base64_encode p)))
    rinfo
  = Some (current ({[i]} ∪ seen),
          arrivalSteps messageId (length pieces) rinfo
            (bool_decide (seen = ∅)) [i]).
Proof.
  intros Hi Hmore.
  rewrite (receive_chunk _ i p Hi), (handleChunkedRequest_stored seen i p Hi).
  cbv zeta.
  replace (Z.of_nat (size ({[i]} ∪ seen)) =? Z.of_nat (length pieces)) with false
    by (symmetry; apply Z.eqb_neq; lia).
  unfold underway at 1.
  destruct (decide ({[i]} ∪ seen = ∅)) as [Hnone | _]; [set_solver |].
  destruct (decide (seen = ∅)) as [-> | Hsome].
  - rewrite bool_decide_true by reflexivity. reflexivity.
  - rewrite bool_decide_false by exact Hsome. reflexivity.
Qed.

Context (Hbase64 : forall bs, Js.base64_decode (Js.base64_encode bs) = bs).
Context (dataString final : string) (value : Js.Value).
Context (Hcat : concat pieces = Js.Buffer_from_utf8 dataString).
Context (Hfinal : Js.JSON_parse final = Some value).
Context (Hcodec :
           match cr with
           | Some c =>
               CompressionResult.codec c <> NONE
               /\ Js.JSON_stringify
                    (CompressionHandler.tryDecompress (_compressionHandler r0)
                       (Js.JsString dataString) (CompressionResult.codec c))
                  = Some final
           | None => final = dataString
           end).

(** The chunk that completes its message: the message is assembled,
    decompressed if need be, and emitted; the assembly is removed. *)
Lemma receive_chunk_last (seen : gset nat) (i : nat) (p : list byte) :
  pieces !! i = Some p ->
  size ({[i]} ∪ seen) = length pieces ->
  (forall j, (j < length pieces)%nat -> j ∈ {[i]} ∪ seen) ->
  handleData run (current seen) now
    (MessageEnvelopeHandler.serialize
       (chunkEnvelope config messageId cr (length pieces) i (Js.base64_encode p)))
    rinfo
  = Some (r0,
          arrivalSteps messageId (length pieces) rinfo
            (bool_decide (seen = ∅)) [i]
            ++ match cr with
               | Some c => [Engine (Decompress (CompressionResult.codec c))]
               | None => []
               end
            ++ [Engine (Emit (Some final) rinfo); Data (delivered value) rinfo]).
Proof.
  intros Hi Hsize Hall.
  rewrite (receive_chunk _ i p Hi), (handleChunkedRequest_stored seen i p Hi).
  cbv zeta. rewrite Hsize, Z.eqb_refl.
  rewrite (getAssembledData_all _ messageId pieces now (Some rinfo)
             (Some (codec_of cr)) ({[i]} ∪ seen) Hbase64)
    by (apply lookup_insert_eq || assumption).
  unfold ChunkingHandler.removeAssembly.
  cbn [fst ChunkingHandler._config ChunkingHandler._assemblies].
  rewrite delete_insert_id by exact Hfresh.
  replace (with_chunkingHandler r0
             {| ChunkingHandler._config :=
                  ChunkingHandler._config (_chunkingHandler r0);
                ChunkingHandler._assemblies :=
                  ChunkingHandler._assemblies (_chunkingHandler r0) |})
    with r0 by (destruct r0 as [? ? ? [? ?] ? ?]; reflexivity).
  rewrite Hcat. unfold Js.Buffer_toString_utf8, Js.Buffer_from_utf8.
  rewrite string_of_list_byte_of_string.
  assert (Hfirst : forall first : bool,
            (if decide (seen = ∅) then first = true else first = false) ->
            (if decide (seen = ∅)
             then [InitAssembly messageId (Z.of_nat (length pieces))] else [])
            = if first
              then [InitAssembly messageId (Z.of_nat (length pieces))] else []).
  { intros first. destruct (decide (seen = ∅)); intros ->; reflexivity. }
  rewrite (Hfirst (bool_decide (seen = ∅)))
    by (destruct (decide (seen = ∅));
        [apply bool_decide_true | apply bool_decide_false]; assumption).
  destruct cr as [c |]; cbn [codec_of].
  - destruct Hcodec as [Hnamed Hstring].
    replace (codec_truthy (Some (CompressionResult.codec c))) with true
      by (destruct (CompressionResult.codec c); [contradiction | reflexivity ..]).
    cbn [default id]. rewrite Hstring.
    destruct (bool_decide (seen = ∅));
      unfold emitted, UdpSocket.emitMessage; simpl; rewrite Hfinal; reflexivity.
  - subst final. cbn [codec_truthy].
    destruct (bool_decide (seen = ∅));
      unfold emitted, UdpSocket.emitMessage; simpl; rewrite Hfinal; reflexivity.
Qed.

Lemma arrivalSteps_cons (first : bool) (i : nat) (rest : list nat) :
  arrivalSteps messageId (length pieces) rinfo first (i :: rest)
  = arrivalSteps messageId (length pieces) rinfo first [i]
      ++ arrivalSteps messageId (length pieces) rinfo false rest.
Proof. destruct first; reflexivity. Qed.

(** The chunks of a message arrive one after the other, each once: the
    last one delivers the message. *)
Lemma receive_stream (order : list nat) :
  forall seen : gset nat,
    NoDup order ->
    (forall i, i ∈ order -> (i ∉ seen) /\ (i < length pieces)%nat) ->
    (size seen + length order = length pieces)%nat ->
    (forall j, (j < length pieces)%nat -> (j ∈ seen) \/ (j ∈ order)) ->
    order <> [] ->
    receiveAll run (current seen) now
      (MessageEnvelopeHandler.serialize
         <$> pick (chunkEnvelopes config messageId cr (length pieces) 0
                     (Js.base64_encode <$> pieces)) order)
      rinfo
    = Some (r0,
            arrivalSteps messageId (length pieces) rinfo
              (bool_decide (seen = ∅)) order
              ++ match cr with
                 | Some c => [Engine (Decompress (CompressionResult.codec c))]
                 | None => []
                 end
              ++ [Engine (Emit (Some final) rinfo); Data (delivered value) rinfo]).
Proof.
  induction order as [| i rest IH]; intros seen Hdistinct Hnew Hcount Hall Hsome;
    [contradiction |].
  apply NoDup_cons in Hdistinct as [Hfresh_i Hdistinct].
  destruct (Hnew i) as [Hout Hi]; [apply list_elem_of_here |].
  apply lookup_lt_is_Some in Hi as [p Hp].
  unfold pick. cbn [omap list_omap].
  rewrite chunkEnvelopes_lookup, list_lookup_fmap, Hp.
  cbn [fmap option_fmap option_map Nat.add list_fmap].
  change (list_fmap _ _ ?f ?l) with (f <$> l).
  fold (pick (chunkEnvelopes config messageId cr (length pieces) 0
                (Js.base64_encode <$> pieces)) rest).
  cbn [receiveAll].
  assert (Hsize : size ({[i]} ∪ seen) = S (size seen))
    by (rewrite size_union, size_singleton by set_solver; reflexivity).
  destruct rest as [| k rest].
  - rewrite (receive_chunk_last seen i p Hp).
    + cbn [pick omap list_omap fmap list_fmap receiveAll].
      rewrite app_nil_r. reflexivity.
    + rewrite Hsize. simpl in Hcount. lia.
    + intros j Hj. destruct (Hall j Hj) as [Hin | Hin]; [set_solver |].
      apply list_elem_of_singleton in Hin as ->. set_solver.
  - rewrite (receive_chunk_partial seen i p Hp)
      by (rewrite Hsize; simpl in Hcount; lia).
    rewrite (IH ({[i]} ∪ seen)).
    + rewrite (arrivalSteps_cons _ i (k :: rest)).
      rewrite (bool_decide_false ({[i]} ∪ seen = ∅)) by set_solver.
      rewrite <- app_assoc. reflexivity.
    + exact Hdistinct.
    + intros j Hj. destruct (Hnew j) as [Hjout Hjlt];
        [apply list_elem_of_further; exact Hj |].
      split; [| exact Hjlt]. intros Hin.
      apply elem_of_union in Hin as [Hin | Hin]; [| contradiction].
      apply elem_of_singleton in Hin as ->. contradiction.
    + rewrite Hsize. simpl in Hcount |- *. lia.
    + intros j Hj. destruct (Hall j Hj) as [Hin | Hin]; [left; set_solver |].
      apply elem_of_cons in Hin as [-> | Hin]; [left; set_solver | right; exact Hin].
    + discriminate.
Qed.

End Stream.

(** An identifier is the decimal text of a number. *)
Lemma generate_decimal (g g' : SnowflakeIdGenerator.t) (clock clock' : list Z)
    (id : string) :
  SnowflakeIdGenerator.generate g clock = SnowflakeIdGenerator.Id id g' clock' ->
  exists z, id = Js.BigInt_toString z.
Proof.
  unfold SnowflakeIdGenerator.generate.
  destruct clock as [| now clock]; [discriminate |].
  match goal with
  | |- context [match ?step with Some _ => _ | None => _ end] =>
      destruct step as [[[timestamp sequence] rest] |]
  end; [| discriminate].
  destruct (timestamp <? _); [discriminate |].
  intros [= <- _ _]. eexists. reflexivity.
Qed.

(** X25. A message too long for one datagram reaches the application of
    the receiver whatever the order its chunks arrive in.  The sender
    cuts the text of the body in chunks and sends one envelope per chunk.
    A receiver that gets each of these datagrams once, in any order (all
    of them at one reading of the clock, which only the start of the
    assembly records), acknowledges every one of them, begins the
    assembly on the first and stores the others; on the last it puts the
    text together again,
    decompresses it if the sender compressed it, emits the message once,
    and is left as it was before the first chunk.  What is emitted for a
    message sent uncompressed is the value its text parses to: the
    message itself, except that a string is sent as it is, without
    quotes, and so reaches [JSON.parse] bare. *)
Theorem chunked_message_delivered (sender receiver : t) (clock clock' : list Z)
    (message body : Js.Value) (cr : option CompressionResult.t)
    (finalSize : Z) (host : string) (port : Z) (callback : bool)
    (messageId : string) (g : SnowflakeIdGenerator.t) (order : list nat)
    (now : Z) (rinfo : RemoteInfo.t) (value : Js.Value) :
  prepare sender message = Some (body, cr, finalSize) ->
  0 <= maxMessageSize (_config sender) < finalSize ->
  0 < ChunkingHandler.chunkSize (ChunkingHandler._config (_chunkingHandler sender)) ->
  SnowflakeIdGenerator.generate (_idGenerator sender) clock
  = SnowflakeIdGenerator.Id messageId g clock' ->
  exists dataString chunks,
    text_of body = Some dataString
    /\ ChunkingHandler.createChunks (_chunkingHandler sender)
         (ChunkingHandler.OfString dataString) = Some chunks
    /\ let envelopes :=
         chunkEnvelopes (_config sender) messageId cr (length chunks) 0 chunks in
       let final :=
         match cr with
         | Some _ => Js.JSON_stringify_defined message
         | None => dataString
         end in
       ((length chunks <= length clock')%nat ->
        exists sender1,
          _sendMessageAsync sender clock message host port callback
          = Some (sender1, drop (length chunks) clock',
                  datagram host port <$> envelopes, None))
       /\ (order ≡ₚ seq 0 (length chunks) ->
           Z.of_nat (length chunks) <= 4294967295 ->
           ChunkingHandler.getAssembly (_chunkingHandler receiver) messageId
           = None ->
           (forall bs, Js.base64_decode (Js.base64_encode bs) = bs) ->
           Forall (fun e => reads_back (MessageEnvelopeHandler.envelope_object e))
                  envelopes ->
           Js.JSON_parse final = Some value ->
           (forall c,
              cr = Some c ->
              CompressionResult.codec c <> NONE
              /\ inverts (_compressionHandler receiver)
                   (_compressionHandler sender)
              /\ value = message) ->
           receiveAll run receiver now
             (MessageEnvelopeHandler.serialize <$> pick envelopes order) rinfo
           = Some (receiver,
                   arrivalSteps messageId (length chunks) rinfo true order
                     ++ match cr with
                        | Some c =>
                            [Engine (Decompress (CompressionResult.codec c))]
                        | None => []
                        end
                     ++ [Engine (Emit (Some final) rinfo);
                         Data (delivered value) rinfo])).
Proof.
  intros Hprepare [Hlimit Hover] Hsize Hgenerated.
  destruct (prepare_Some sender message body cr finalSize Hprepare)
    as (dataString & Htext & ->).
  destruct (prepare_parts sender message body cr _ Hprepare)
    as (Hdefined & Hbody).
  destruct (createChunks_slices (_chunkingHandler sender)
              (ChunkingHandler.OfString dataString) Hsize)
    as (pieces & Hchunks & Hcat & Hceiling & _).
  exists dataString, (Js.base64_encode <$> pieces).
  split; [exact Htext |]. split; [exact Hchunks |].
  cbv zeta. rewrite length_fmap. split.
  - intros Hclock. unfold _sendMessageAsync. rewrite Hprepare.
    apply Z.leb_gt in Hover. rewrite Hover.
    destruct (sendChunkedMessage_events sender clock clock' body host port cr
                messageId dataString g (Js.base64_encode <$> pieces)
                Hgenerated Htext Hchunks)
      as (sender1 & Hsent); [rewrite length_fmap; exact Hclock |].
    rewrite Hsent, length_fmap. exists sender1. reflexivity.
  - intros Horder Hrange Hfresh Hbase64 Hwire Hfinal Hcodec.
    destruct (generate_decimal _ _ _ _ _ Hgenerated) as [z ->].
    assert (Hlength : length order = length pieces)
      by (rewrite Horder, length_seq; reflexivity).
    assert (Hsome : length pieces <> 0%nat).
    { unfold ceiling, Js.byteLength, Js.Buffer_from_utf8 in *.
      rewrite length_list_byte_of_string in Hceiling. intros Hnone.
      rewrite Hnone in Hceiling. simpl in Hceiling. lia. }
    pose proof (receive_stream (_config sender) (Js.BigInt_toString z) cr pieces
                  now rinfo receiver (before_separator_chunkId z) Hfresh Hrange)
      as Hstream.
    specialize (Hstream
      (fun i p Hp =>
         proj1 (Forall_lookup _ _) Hwire i _
           (eq_trans (chunkEnvelopes_lookup _ _ _ _ 0 i _)
              (f_equal (fmap _)
                 (eq_trans (list_lookup_fmap _ _ _) (f_equal (fmap _) Hp)))))).
    assert (Hend : forall final,
              Js.JSON_parse final = Some value ->
              match cr with
              | Some c =>
                  CompressionResult.codec c <> NONE
                  /\ Js.JSON_stringify
                       (CompressionHandler.tryDecompress
                          (_compressionHandler receiver)
                          (Js.JsString dataString) (CompressionResult.codec c))
                     = Some final
              | None => final = dataString
              end ->
              receiveAll run receiver now
                (MessageEnvelopeHandler.serialize
                   <$> pick (chunkEnvelopes (_config sender)
                               (Js.BigInt_toString z) cr (length pieces) 0
                               (Js.base64_encode <$> pieces)) order) rinfo
              = Some (receiver,
                      arrivalSteps (Js.BigInt_toString z) (length pieces) rinfo
                        true order
                        ++ match cr with
                           | Some c =>
                               [Engine (Decompress (CompressionResult.codec c))]
                           | None => []
                           end
                        ++ [Engine (Emit (Some final) rinfo);
                            Data (delivered value) rinfo])).
    { intros final Hparsed Hdecoded.
      specialize (Hstream Hbase64 dataString final value Hcat Hparsed Hdecoded
                    order ∅).
      unfold underway in Hstream.
      destruct (decide ((∅ : gset nat) = ∅)) as [_ | Hne]; [| contradiction].
      rewrite bool_decide_true in Hstream by reflexivity.
      apply Hstream.
      + rewrite Horder. apply NoDup_seq.
      + intros i Hi. split; [set_solver |].
        rewrite Horder in Hi. apply elem_of_seq in Hi. lia.
      + rewrite size_empty. exact Hlength.
      + intros j Hj. right. rewrite Horder. apply elem_of_seq. lia.
      + intros ->. simpl in Hlength. lia. }
    destruct cr as [c |]; apply Hend; try exact Hfinal; [| reflexivity].
    destruct Hbody as [-> Hcompressed]. injection Htext as <-.
    destruct (Hcodec c eq_refl) as (Hnamed & Hinverts & ->).
    split; [exact Hnamed |].
    rewrite (tryDecompress_inverts _ _ _ message c Hbase64 Hinverts Hfinal
               Hcompressed).
    destruct message; [contradiction | reflexivity ..].
Qed.

End ChunkedDelivery.

Section ChunkedDeliveryExamples.
Import ReliableUdpSocket.
#[local] Existing Instance JsonText.builtins.

(** The message of 4000 bytes, compressed and cut in four chunks, which
    arrive in the order 2, 0, 3, 1. *)
Lemma chunked_message_delivered_witness :
  exists envelopes steps,
    length envelopes = 4%nat
    /\ receiveAll returns gzip_socket 0
         (MessageEnvelopeHandler.serialize <$> pick envelopes [2; 0; 3; 1]%nat)
         localhost
       = Some (gzip_socket, steps)
    /\ last steps = Some (Data runs_4000 localhost).
Proof.
  destruct (chunked_message_delivered returns gzip_socket gzip_socket
              five_readings (repeat at_noon 4) runs_4000
              (Js.JsString (CompressionResult.data runs_4000_compressed))
              (Some runs_4000_compressed) 4008 "127.0.0.1" 41234 true
              hello_id after_first_id [2; 0; 3; 1]%nat 0 localhost runs_4000)
    as (dataString & chunks & Htext & Hchunks & _ & Hreceive).
  - vm_compute. reflexivity.
  - vm_compute. split; [discriminate | reflexivity].
  - vm_compute. reflexivity.
  - vm_compute. reflexivity.
  - assert (Hdata : dataString = CompressionResult.data runs_4000_compressed).
    { change (Some (CompressionResult.data runs_4000_compressed)
              = Some dataString) in Htext.
      congruence. }
    subst dataString.
    assert (Hcut : ChunkingHandler.createChunks (_chunkingHandler gzip_socket)
                     (ChunkingHandler.OfString
                        (CompressionResult.data runs_4000_compressed))
                   = Some runs_4000_chunks) by (vm_compute; reflexivity).
    assert (Hfour : chunks = runs_4000_chunks) by congruence.
    subst chunks. clear Htext Hchunks Hcut.
    cbv zeta in Hreceive.
    assert (Hlen : length runs_4000_chunks = 4%nat) by (vm_compute; reflexivity).
    rewrite Hlen in Hreceive.
    exists (chunkEnvelopes (_config gzip_socket) hello_id
              (Some runs_4000_compressed) 4 0 runs_4000_chunks).
    eexists. split; [vm_compute; reflexivity |]. split.
    + apply Hreceive.
      * change (seq 0 4) with [0; 1; 2; 3]%nat.
        apply NoDup_Permutation.
        -- repeat constructor; rewrite ?elem_of_cons, ?elem_of_nil; lia.
        -- repeat constructor; rewrite ?elem_of_cons, ?elem_of_nil; lia.
        -- intros i. rewrite !elem_of_cons, !elem_of_nil. lia.
      * vm_compute. discriminate.
      * vm_compute. reflexivity.
      * exact base64_decode_encode.
      * assert (Henvelopes :
            exists l,
              chunkEnvelopes (_config gzip_socket) hello_id
                (Some runs_4000_compressed) 4 0 runs_4000_chunks = l
              /\ Forall (fun e => reads_back
                                    (MessageEnvelopeHandler.envelope_object e))
                        l).
        { eexists. split; [vm_compute; reflexivity |].
          repeat (apply Forall_cons; split; [vm_compute; reflexivity |]).
          apply Forall_nil. constructor. }
        destruct Henvelopes as (l & -> & Hl). exact Hl.
      * vm_compute. reflexivity.
      * intros c [= <-]. split; [vm_compute; discriminate |].
        split; [exact gzip_handler_inverts | reflexivity].
    + vm_compute. reflexivity.
Defined.
End ChunkedDeliveryExamples.
